(** * EN->JA porter for .ast script files: a shallow embedding and its properties

    The development follows [port_en_to_jp_3.py]:

    - buffers are Python [str] values, i.e. sequences of Unicode code points;
    - [find_matching_brace] is the delimiter matcher;
    - the regular expressions handed to [re.search], [re.sub] and [re.findall]
      are sequences of atoms run by a backtracking matcher;
    - [extract_blocks_to] / [extract_blocks_from] are the block locators;
      they return blocks, or raise the [ValueError] of [int] on an id of
      more digits than the runtime converts;
    - [extract_ja_section] / [extract_en_section] are the subsection
      extractors, the latter with the name-field transform;
    - [process_file] is the per-file operation, with the processor's three
      accumulators passed explicitly. *)

From Stdlib Require Import String Ascii.
From Stdlib Require Import List Bool Arith NArith ZArith Lia.
From Stdlib Require Import Permutation Sorted.
Import ListNotations.

(** ** Characters and buffers *)

(** A Python [str] is a sequence of code points. *)
Definition char := N.
Definition Buffer := list char.

Definition chr (a : ascii) : char := N_of_ascii a.

(** The code points of an ASCII literal. *)
Fixpoint str (s : string) : Buffer :=
  match s with
  | EmptyString => []
  | String a s' => chr a :: str s'
  end.

Definition backslash : char := 92%N.
Definition lbrace : char := 123%N.
Definition rbrace : char := 125%N.
Definition dquote : char := 34%N.
Definition newline : char := 10%N.

(** [text[i] == c], for an index known to be in range or not. *)
Definition is_at (text : Buffer) (i : nat) (c : char) : bool :=
  match nth_error text i with
  | Some x => N.eqb x c
  | None => false
  end.

(** [text[a:b]] for non-negative [a] and [b]. *)
Definition slice (text : Buffer) (a b : nat) : Buffer :=
  firstn (b - a) (skipn a text).

(** ** Delimiter matcher: [find_matching_brace] *)

Module Brace.

(** One iteration of the [while] loop on the state [(i, depth)]. *)
Definition loop_body (text : Buffer) (st : nat * Z) : nat * Z :=
  let '(i, depth) := st in
  if (0 <? i) && is_at text (i - 1) backslash then (i + 1, depth)
  else if is_at text i lbrace then (i + 1, (depth + 1)%Z)
  else if is_at text i rbrace then (i + 1, (depth - 1)%Z)
  else (i + 1, depth).

(** [while i < len(text) and depth > 0]. *)
Definition loop_cond (text : Buffer) (st : nat * Z) : bool :=
  (fst st <? length text) && (0 <? snd st)%Z.

Fixpoint loop (text : Buffer) (fuel : nat) (st : nat * Z) : nat * Z :=
  match fuel with
  | O => st
  | S fuel' =>
      if loop_cond text st then loop text fuel' (loop_body text st) else st
  end.

(** The result [-1] of the source is [None]. The index [i] only grows, so
    [length text] iterations are enough for the loop to reach its exit
    (lemma [loop_exits]). *)
Definition find_matching_brace (text : Buffer) (start_idx : nat) : option nat :=
  if (length text <=? start_idx) || negb (is_at text start_idx lbrace) then None
  else
    let '(i, depth) := loop text (length text) (start_idx + 1, 1%Z) in
    if (depth =? 0)%Z then Some i else None.

(** *** The nesting depth, as the specification words it *)

(** A character is escaped when the character just before it is a backslash. *)
Definition escaped (text : Buffer) (k : nat) : bool :=
  (0 <? k) && is_at text (k - 1) backslash.

(** Each unescaped [{] increments the depth, each unescaped [}] decrements it. *)
Definition weight (text : Buffer) (k : nat) : Z :=
  if escaped text k then 0%Z
  else if is_at text k lbrace then 1%Z
  else if is_at text k rbrace then (-1)%Z
  else 0%Z.

(** Sum of the weights of the [n] positions from [i] on. *)
Fixpoint wsum (text : Buffer) (i n : nat) : Z :=
  match n with
  | O => 0%Z
  | S n' => (weight text i + wsum text (S i) n')%Z
  end.

(** Depth once the characters strictly between [open_index] and [j] are read. *)
Definition depth_at (text : Buffer) (open_index j : nat) : Z :=
  (1 + wsum text (open_index + 1) (j - (open_index + 1)))%Z.

End Brace.

Import Brace.

(** ** Regular expressions *)

Module Re.

(** The patterns of the program are sequences of the following items. A
    character class is a boolean predicate on code points. *)
Inductive atom : Type :=
| One (p : char -> bool)                   (* one character of the class *)
| Star (p : char -> bool)                  (* [p*], greedy *)
| Plus (p : char -> bool)                  (* [p+], greedy *)
| Lazy (p : char -> bool)                  (* [p*?] *)
| StarAlt (alts : list (list (char -> bool))).
    (* [(?:a1|a2|...)*], greedy, each alternative a sequence of classes *)

Definition pattern := list atom.

Definition bump (r : option (nat * list nat)) : option (nat * list nat) :=
  match r with
  | Some (n, ls) => Some (S n, ls)
  | None => None
  end.

Definition zero (r : option (list nat)) : option (nat * list nat) :=
  option_map (pair 0) r.

Definition glue (r : option (nat * list nat)) : option (list nat) :=
  option_map (fun '(n, ls) => n :: ls) r.

(** Greedy repetition followed by the continuation [k]: the longest run is
    tried first, shorter ones on backtracking. The result is the number of
    repetitions and what [k] returned. *)
Fixpoint greedy (p : char -> bool) (k : Buffer -> option (list nat))
    (s : Buffer) : option (nat * list nat) :=
  match s with
  | c :: s' =>
      if p c then
        match greedy p k s' with
        | Some (n, ls) => Some (S n, ls)
        | None => zero (k s)
        end
      else zero (k s)
  | [] => zero (k s)
  end.

(** Lazy repetition: the continuation is tried first. *)
Fixpoint lazy (p : char -> bool) (k : Buffer -> option (list nat))
    (s : Buffer) : option (nat * list nat) :=
  match k s with
  | Some ls => Some (0, ls)
  | None =>
      match s with
      | c :: s' => if p c then bump (lazy p k s') else None
      | [] => None
      end
  end.

(** A fixed sequence of classes at the head of [s]; returns the rest. *)
Fixpoint seq_here (ps : list (char -> bool)) (s : Buffer) : option Buffer :=
  match ps with
  | [] => Some s
  | p :: ps' =>
      match s with
      | c :: s' => if p c then seq_here ps' s' else None
      | [] => None
      end
  end.

(** Greedy repetition of an alternation. Every alternative of the program's
    patterns is non-empty, so [length s] iterations are never exceeded. The
    result counts the characters consumed by the repetition. *)
Fixpoint star_alt (alts : list (list (char -> bool)))
    (k : Buffer -> option (list nat)) (fuel : nat) (s : Buffer)
    : option (nat * list nat) :=
  match fuel with
  | O => zero (k s)
  | S fuel' =>
      (fix try (rest : list (list (char -> bool))) : option (nat * list nat) :=
         match rest with
         | [] => zero (k s)
         | a :: rest' =>
             match seq_here a s with
             | Some s' =>
                 match star_alt alts k fuel' s' with
                 | Some (n, ls) => Some (length a + n, ls)
                 | None => try rest'
                 end
             | None => try rest'
             end
         end) alts
  end.

(** Match [pat] at the head of [s]; the result lists, atom by atom, the number
    of characters each one consumed. *)
Fixpoint match_here (pat : pattern) (s : Buffer) {struct pat}
    : option (list nat) :=
  match pat with
  | [] => Some []
  | One p :: pat' =>
      match s with
      | c :: s' => if p c then option_map (cons 1) (match_here pat' s') else None
      | [] => None
      end
  | Star p :: pat' => glue (greedy p (match_here pat') s)
  | Plus p :: pat' =>
      match s with
      | c :: s' =>
          if p c then glue (bump (greedy p (match_here pat') s')) else None
      | [] => None
      end
  | Lazy p :: pat' => glue (lazy p (match_here pat') s)
  | StarAlt alts :: pat' => glue (star_alt alts (match_here pat') (length s) s)
  end.

(** A match object: where it starts and the lengths of its pieces. *)
Record rmatch : Type := { m_start : nat; m_lens : list nat }.

Definition m_len (m : rmatch) : nat := list_sum (m_lens m).
Definition m_end (m : rmatch) : nat := m_start m + m_len m.

(** The span of the atoms [i..j) of the pattern, a group of the match. *)
Definition span (m : rmatch) (i j : nat) : nat * nat :=
  (m_start m + list_sum (firstn i (m_lens m)),
   m_start m + list_sum (firstn j (m_lens m))).

Definition group (s : Buffer) (m : rmatch) (i j : nat) : Buffer :=
  slice s (fst (span m i j)) (snd (span m i j)).

Definition group0 (s : Buffer) (m : rmatch) : Buffer :=
  slice s (m_start m) (m_end m).

(** [re.search]: the leftmost position where the pattern matches. *)
Fixpoint search_from (pat : pattern) (s : Buffer) (off : nat) : option rmatch :=
  match match_here pat s with
  | Some ls => Some {| m_start := off; m_lens := ls |}
  | None =>
      match s with
      | [] => None
      | _ :: s' => search_from pat s' (S off)
      end
  end.

Definition search (pat : pattern) (s : Buffer) : option rmatch :=
  search_from pat s 0.

(** [re.findall] for a pattern without groups: the successive non-overlapping
    matches, left to right. The patterns used never match the empty string. *)
Fixpoint findall_loop (pat : pattern) (fuel : nat) (s : Buffer) : list Buffer :=
  match fuel with
  | O => []
  | S fuel' =>
      match search pat s with
      | None => []
      | Some m => group0 s m :: findall_loop pat fuel' (skipn (m_end m) s)
      end
  end.

Definition findall (pat : pattern) (s : Buffer) : list Buffer :=
  findall_loop pat (length s) s.

(** [re.sub] with a function as replacement: text between matches is copied,
    each match is replaced by [repl] of it. *)
Fixpoint sub_loop (pat : pattern) (repl : Buffer -> rmatch -> Buffer)
    (fuel : nat) (s : Buffer) : Buffer :=
  match fuel with
  | O => s
  | S fuel' =>
      match search pat s with
      | None => s
      | Some m =>
          firstn (m_start m) s ++ repl s m
            ++ sub_loop pat repl fuel' (skipn (m_end m) s)
      end
  end.

Definition sub (pat : pattern) (repl : Buffer -> rmatch -> Buffer)
    (s : Buffer) : Buffer :=
  sub_loop pat repl (length s) s.

(** *** Character classes *)

Definition lit (x : char) : char -> bool := N.eqb x.

(** A lower-case ASCII letter under [re.IGNORECASE]: the letter, its capital,
    and the code points Unicode folds to it (dotted and dotless i for [i],
    long s for [s], the Kelvin sign for [k]). *)
Definition ci (a : ascii) : char -> bool :=
  fun c =>
    let x := chr a in
    (c =? x)%N || (c =? x - 32)%N
    || ((x =? 105) && ((c =? 304) || (c =? 305)))%N
    || ((x =? 115) && (c =? 383))%N
    || ((x =? 107) && (c =? 8490))%N.

(** [\s] on [str]: the code points Python calls whitespace. *)
Definition is_space (c : char) : bool :=
  ((9 <=? c) && (c <=? 13))%N || ((28 <=? c) && (c <=? 32))%N
  || (c =? 133)%N || (c =? 160)%N || (c =? 5760)%N
  || ((8192 <=? c) && (c <=? 8202))%N
  || (c =? 8232)%N || (c =? 8233)%N || (c =? 8239)%N || (c =? 8287)%N
  || (c =? 12288)%N.

(** [.] with [re.DOTALL], and without. *)
Definition any_char (c : char) : bool := true.
Definition not_newline (c : char) : bool := negb (c =? newline)%N.

(** The class of every character but the double quote and the backslash. *)
Definition plain_char (c : char) : bool :=
  negb (c =? dquote)%N && negb (c =? backslash)%N.

(** *** Predicates on classes and patterns *)

Definition holds (p : char -> bool) (c : char) : Prop := p c = true.

(** Patterns whose first atom is a single character; they never match the
    empty string. *)
Definition starts_with_One (pat : pattern) : Prop :=
  match pat with
  | One _ :: _ => True
  | _ => False
  end.

(** The classes a pattern is made of, and the patterns without repeated
    alternations. *)
Fixpoint classes (pat : pattern) : list (char -> bool) :=
  match pat with
  | [] => []
  | One p :: pat' => p :: classes pat'
  | Star p :: pat' => p :: classes pat'
  | Plus p :: pat' => p :: classes pat'
  | Lazy p :: pat' => p :: classes pat'
  | StarAlt alts :: pat' => concat alts ++ classes pat'
  end.

Fixpoint simple (pat : pattern) : Prop :=
  match pat with
  | [] => True
  | StarAlt _ :: _ => False
  | _ :: pat' => simple pat'
  end.

End Re.

Import Re.
(** ** Python dictionaries *)

(** A [dict] keeps its keys in insertion order, and assigning to a key that is
    present replaces the value where the key already stands. *)
Module Dict.

Section Ops.

Variables K V : Type.
Variable eqb : K -> K -> bool.

Definition dict := list (K * V).

Fixpoint get (k : K) (d : dict) : option V :=
  match d with
  | [] => None
  | (k', v) :: d' => if eqb k k' then Some v else get k d'
  end.

Definition mem (k : K) (d : dict) : bool :=
  match get k d with Some _ => true | None => false end.

Fixpoint set (k : K) (v : V) (d : dict) : dict :=
  match d with
  | [] => [(k, v)]
  | (k', v') :: d' => if eqb k k' then (k', v) :: d' else (k', v') :: set k v d'
  end.

Definition keys (d : dict) : list K := map fst d.

End Ops.

Arguments get {K V} eqb k d.
Arguments mem {K V} eqb k d.
Arguments set {K V} eqb k v d.
Arguments keys {K V} d.

End Dict.

(** ** Lists of characters: slice assignment, substring test, sorting *)

(** [l[s:e] = r] for non-negative [s] and [e]: both bounds are clamped to the
    length, and an end before the start counts as the start. *)
Definition slice_assign (l : Buffer) (s e : nat) (r : Buffer) : Buffer :=
  firstn s l ++ r ++ skipn (Nat.max s e) l.

Fixpoint is_prefix (p s : Buffer) : bool :=
  match p, s with
  | [], _ => true
  | x :: p', y :: s' => (x =? y)%N && is_prefix p' s'
  | _ :: _, [] => false
  end.

(** [sub in s]. *)
Fixpoint contains (sub s : Buffer) : bool :=
  is_prefix sub s
  || match s with
     | [] => false
     | _ :: s' => contains sub s'
     end.

Fixpoint insert_desc (k : nat) (l : list nat) : list nat :=
  match l with
  | [] => [k]
  | x :: l' => if x <=? k then k :: l else x :: insert_desc k l'
  end.

(** [sorted(keys, reverse=True)]. *)
Definition sorted_reverse (l : list nat) : list nat :=
  fold_right insert_desc [] l.

(** ** Blocks *)

Record ASTBlock : Type := {
  start : nat;
  end_ : nat;
  content : Buffer;
  block_id : Z;
  raw_header : Buffer
}.

(** What a block locator comes to: the blocks it returns, or the
    [ValueError] that [int] raises on the digits of a header, which leaves
    the loop and the function with no block returned. *)
Inductive located : Type :=
| Blocks (blocks : list ASTBlock)
| IntRaises (digits : Buffer).

(** ** The processor *)

Section Program.

(** The Unicode decimal digits, with their values: [\d] matches them and
    [int] reads them. The table belongs to the Python runtime. *)
Variable decimal : char -> option Z.

(** [sys.get_int_max_str_digits()]: the longest run of digits [int]
    converts, 4300 unless the interpreter was started or set otherwise;
    0 lifts the limit, and the interpreter takes no other value below 640.
    It belongs to the Python runtime too. *)
Variable int_max_str_digits : nat.

Definition is_digit (c : char) : bool :=
  match decimal c with Some _ => true | None => false end.

(** The number a run of decimal digits denotes. *)
Definition digits_value (digits : Buffer) : Z :=
  fold_left
    (fun acc c => (10 * acc + match decimal c with Some v => v | None => 0 end)%Z)
    digits 0%Z.

(** [int(s)] for a run of decimal digits: its value, or [None] for the
    [ValueError] raised when the limit is set and the run has more digits
    than the limit; leading zeros count. *)
Definition int (digits : Buffer) : option Z :=
  if (0 <? int_max_str_digits) && (int_max_str_digits <? length digits)
  then None
  else Some (digits_value digits).

(** [\s*=\s*\{], the tail of every header pattern. *)
Definition header_tail : pattern :=
  [Star is_space; One (lit (chr "=")); Star is_space; One (lit lbrace)].

(** [block_(\d+)\s*=\s*\{], case-insensitive; group 1 is atom 6. *)
Definition block_pattern_to : pattern :=
  [One (ci "b"); One (ci "l"); One (ci "o"); One (ci "c"); One (ci "k");
   One (lit (chr "_")); Plus is_digit] ++ header_tail.

(** A bracketed, double-quoted key [digits_digits] and the header tail; group 1
    is the second run of digits, atom 4. *)
Definition block_pattern_from : pattern :=
  [One (lit (chr "[")); One (lit dquote); Plus is_digit; One (lit (chr "_"));
   Plus is_digit; One (lit dquote); One (lit (chr "]"))] ++ header_tail.

(** [text\s*=\s*\{], [ja\s*=\s*\{], [en\s*=\s*\{], case-insensitive. *)
Definition text_pattern : pattern :=
  [One (ci "t"); One (ci "e"); One (ci "x"); One (ci "t")] ++ header_tail.
Definition ja_pattern : pattern :=
  [One (ci "j"); One (ci "a")] ++ header_tail.
Definition en_pattern : pattern :=
  [One (ci "e"); One (ci "n")] ++ header_tail.

(** [(name\s*=\s*\{)(.*?)(\})] with DOTALL and IGNORECASE: group 1 is atoms
    0..8, group 2 atom 8, group 3 atom 9. *)
Definition name_pattern : pattern :=
  [One (ci "n"); One (ci "a"); One (ci "m"); One (ci "e")] ++ header_tail
  ++ [Lazy any_char; One (lit rbrace)].

(** A double-quoted string: a quote, then any number of items that are either
    a character other than quote and backslash or a backslash followed by any
    character but a newline, then a quote. *)
Definition quoted_pattern : pattern :=
  [One (lit dquote);
   StarAlt [[plain_char]; [lit backslash; not_newline]];
   One (lit dquote)].

(** [^en\s*=], case-insensitive. *)
Definition en_tag_pattern : pattern :=
  [One (ci "e"); One (ci "n"); Star is_space; One (lit (chr "="))].

(** [blocks.append(block)] seen from the rest of the loop: the block comes
    first in what is returned, unless the rest of the loop raises. *)
Definition append_block (block : ASTBlock) (rest : located) : located :=
  match rest with
  | Blocks blocks => Blocks (block :: blocks)
  | IntRaises digits => IntRaises digits
  end.

(** The [while] loop shared by the two block locators; [gid] is the atom that
    is group 1 of [block_pattern]. The id is converted before the brace of
    the header is looked at. *)
Fixpoint extract_blocks_loop (block_pattern : pattern) (gid : nat)
    (content : Buffer) (fuel pos : nat) : located :=
  match fuel with
  | O => Blocks []
  | S fuel' =>
      if pos <? length content then
        match search block_pattern (skipn pos content) with
        | None => Blocks []
        | Some m =>
            let abs_start := pos + m_start m in
            match int (group (skipn pos content) m gid (S gid)) with
            | None => IntRaises (group (skipn pos content) m gid (S gid))
            | Some block_id =>
                let brace_pos := pos + m_end m - 1 in
                match find_matching_brace content brace_pos with
                | None =>
                    extract_blocks_loop block_pattern gid content fuel'
                      (pos + m_end m)
                | Some end_pos =>
                    append_block
                      {| start := abs_start;
                         end_ := end_pos;
                         content := slice content abs_start end_pos;
                         block_id := block_id;
                         raw_header := group0 (skipn pos content) m |}
                      (extract_blocks_loop block_pattern gid content fuel'
                         end_pos)
                end
            end
        end
      else Blocks []
  end.

(** The scan position grows in every iteration, so [length content]
    iterations are enough (lemma [extract_blocks_loop_fuel]). *)
Definition extract_blocks_to (content : Buffer) : located :=
  extract_blocks_loop block_pattern_to 6 content (length content) 0.

Definition extract_blocks_from (content : Buffer) : located :=
  extract_blocks_loop block_pattern_from 4 content (length content) 0.

Definition extract_ja_section (block_content : Buffer)
    : option (nat * nat * Buffer) :=
  match search text_pattern block_content with
  | None => None
  | Some text_match =>
      let text_start := m_start text_match in
      let brace_pos := m_end text_match - 1 in
      match find_matching_brace block_content brace_pos with
      | None => None
      | Some text_end =>
          let text_section := slice block_content text_start text_end in
          match search ja_pattern text_section with
          | None => None
          | Some ja_match =>
              let ja_start_in_section := m_start ja_match in
              let brace_pos := m_end ja_match - 1 in
              match find_matching_brace text_section brace_pos with
              | None => None
              | Some ja_end_in_section =>
                  let ja_content :=
                    slice text_section ja_start_in_section ja_end_in_section in
                  let abs_start := text_start + ja_start_in_section in
                  let abs_end := text_start + ja_end_in_section in
                  Some (abs_start, abs_end, ja_content)
              end
          end
      end
  end.

(** The replacement function of the name substitution. *)
Definition transform_name (s : Buffer) (m : rmatch) : Buffer :=
  let strings := findall quoted_pattern (group s m 8 9) in
  match strings with
  | [] => group0 s m
  | _ :: _ => group s m 0 8 ++ last strings [] ++ group s m 9 10
  end.

(** [re.sub(r'^en\s*=', 'ja =', en_content, count=1)]: the pattern can only
    match at the start. *)
Definition retag (en_content : Buffer) : Buffer :=
  match match_here en_tag_pattern en_content with
  | Some ls => str "ja =" ++ skipn (list_sum ls) en_content
  | None => en_content
  end.

Definition extract_en_section (block_content : Buffer) : option Buffer :=
  match search text_pattern block_content with
  | None => None
  | Some text_match =>
      let text_start := m_start text_match in
      let brace_pos := m_end text_match - 1 in
      match find_matching_brace block_content brace_pos with
      | None => None
      | Some text_end =>
          let text_section := slice block_content text_start text_end in
          match search en_pattern text_section with
          | None => None
          | Some en_match =>
              let en_start := m_start en_match in
              let brace_pos := m_end en_match - 1 in
              match find_matching_brace text_section brace_pos with
              | None => None
              | Some en_end =>
                  let en_content := slice text_section en_start en_end in
                  let en_content := sub name_pattern transform_name en_content in
                  Some (retag en_content)
              end
          end
      end
  end.
(** *** [process_file] *)

(** The three accumulators of [ASTProcessor]. *)
Record Processor : Type := {
  mismatched_files : list (string * nat * nat * list Z);
  failed_files : list (string * string);
  successful_files : list string
}.

(** What [read_text] gives: the decoded content, or an exception, here by the
    message the handler formats from it. *)
Inductive read_result : Type :=
| ReadOk (content : Buffer)
| ReadRaises (error_msg : string).

Definition blocks_dict (blocks : list ASTBlock) : Dict.dict Z ASTBlock :=
  fold_left (fun d b => Dict.set Z.eqb (block_id b) b d) blocks [].

Definition Replacements := Dict.dict nat (nat * Buffer).

(** Truth value of an optional string: [None] and the empty string are false. *)
Definition truthy (o : option Buffer) : option Buffer :=
  match o with
  | Some (_ :: _) => o
  | _ => None
  end.

(** The body of the loop over [to_blocks_dict.items()]. *)
Definition match_block (from_blocks_dict : Dict.dict Z ASTBlock)
    (acc : Replacements * list Z) (item : Z * ASTBlock)
    : Replacements * list Z :=
  let '(replacements, unmatched_to) := acc in
  let '(to_id, to_block) := item in
  let from_id := (to_id + 1)%Z in
  match Dict.get Z.eqb from_id from_blocks_dict with
  | Some from_block =>
      match truthy (extract_en_section (content from_block)) with
      | Some en_section =>
          match extract_ja_section (content to_block) with
          | Some (ja_start, ja_end, _) =>
              (Dict.set Nat.eqb (start to_block + ja_start)
                 (start to_block + ja_end, en_section) replacements,
               unmatched_to)
          | None => (replacements, unmatched_to ++ [to_id])
          end
      | None => (replacements, unmatched_to)
      end
  | None => (replacements, unmatched_to ++ [to_id])
  end.

(** The loop over [from_blocks_dict]. *)
Definition unmatched_from_of (to_blocks_dict from_blocks_dict : Dict.dict Z ASTBlock)
    : list Z :=
  filter (fun from_id => negb (Dict.mem Z.eqb (from_id - 1)%Z to_blocks_dict))
    (Dict.keys from_blocks_dict).

(** Lines 207-231: the two dictionaries, then [replacements], [unmatched_to]
    and [unmatched_from]. *)
Definition correlate (to_blocks from_blocks : list ASTBlock)
    : Replacements * list Z * list Z :=
  let to_blocks_dict := blocks_dict to_blocks in
  let from_blocks_dict := blocks_dict from_blocks in
  let '(replacements, unmatched_to) :=
    fold_left (match_block from_blocks_dict) to_blocks_dict ([], []) in
  (replacements, unmatched_to, unmatched_from_of to_blocks_dict from_blocks_dict).

(** Lines 248-253: the replacements applied from the highest start offset to
    the lowest. [None] stands for the [KeyError] of a failed lookup. *)
Definition apply_edits (to_content : Buffer) (replacements : Replacements)
    : option Buffer :=
  fold_left
    (fun acc start_pos =>
       match acc with
       | None => None
       | Some result_chars =>
           match Dict.get Nat.eqb start_pos replacements with
           | Some (end_pos, replacement) =>
               Some (slice_assign result_chars start_pos end_pos replacement)
           | None => None
           end
       end)
    (sorted_reverse (Dict.keys replacements)) (Some to_content).

Definition record_failure (self : Processor) (name error_msg : string)
    : Processor :=
  {| mismatched_files := mismatched_files self;
     failed_files := failed_files self ++ [(name, error_msg)];
     successful_files := successful_files self |}.

Definition record_mismatch (self : Processor)
    (entry : string * nat * nat * list Z) : Processor :=
  {| mismatched_files := mismatched_files self ++ [entry];
     failed_files := failed_files self;
     successful_files := successful_files self |}.

Definition record_success (self : Processor) (name : string) : Processor :=
  {| mismatched_files := mismatched_files self;
     failed_files := failed_files self;
     successful_files := successful_files self ++ [name] |}.

Definition is_nil {A : Type} (l : list A) : bool :=
  match l with [] => true | _ :: _ => false end.

(** The result of one call: the processor afterwards, the returned boolean,
    and the text written to [out_path], if any. *)
Definition Outcome : Type := Processor * bool * option Buffer.

Definition failure (self : Processor) (name error_msg : string) : Outcome :=
  (record_failure self name error_msg, false, None).

(** The text of the [ValueError] that [int] raises on a run of digits,
    [str(e)]. It belongs to the Python runtime. *)
Variable int_error : Buffer -> string.

(** Line 269: the name of the type of the exception, then the first 150
    characters of its text. *)
Definition format_exception (type_name text : string) : string :=
  (type_name ++ ": " ++ substring 0 150 text)%string.

(** [process_file]. [name] is [to_path.name]; the two reads and the final
    write are given by their results ([write_raises] is the formatted message
    when creating the directory or writing raises). A locator that raises
    is caught by the handler of line 268 like any other exception. Printing
    is left out. *)
Definition process_file (self : Processor) (name : string)
    (to_read from_read : read_result) (write_raises : option string)
    : Outcome :=
  match to_read with
  | ReadRaises error_msg => failure self name error_msg
  | ReadOk to_content =>
  match from_read with
  | ReadRaises error_msg => failure self name error_msg
  | ReadOk from_content =>
  match extract_blocks_to to_content with
  | IntRaises digits =>
      failure self name (format_exception "ValueError" (int_error digits))
  | Blocks to_blocks =>
  match extract_blocks_from from_content with
  | IntRaises digits =>
      failure self name (format_exception "ValueError" (int_error digits))
  | Blocks from_blocks =>
      if is_nil to_blocks then
        failure self name "No blocks found in TO file"
      else if is_nil from_blocks then
        failure self name "No blocks found in FROM file"
      else
        let '(replacements, unmatched_to, unmatched_from) :=
          correlate to_blocks from_blocks in
        let self :=
          if is_nil unmatched_to && is_nil unmatched_from then self
          else record_mismatch self
                 (name, length to_blocks, length from_blocks,
                  unmatched_to ++ unmatched_from) in
        if is_nil replacements then
          failure self name "No valid replacements found"
        else
          match apply_edits to_content replacements with
          | None => failure self name "KeyError"
          | Some result =>
              if negb (contains (str "astver") (firstn 200 result))
                 || negb (contains (str "ast = {") (firstn 300 result))
              then
                failure self name
                  "CRITICAL: Output structure corrupted (missing astver/ast)"
              else
                match write_raises with
                | Some error_msg => failure self name error_msg
                | None => (record_success self name, true, Some result)
                end
          end
  end
  end
  end
  end.

End Program.

(** ** Located blocks *)

(** What the scan comes to from position [pos] on. *)
Definition scan (decimal : char -> option Z) (int_max_str_digits : nat)
    (block_pattern : pattern) (gid : nat) (buffer : Buffer) (pos : nat)
    : located :=
  extract_blocks_loop decimal int_max_str_digits block_pattern gid buffer
    (length buffer) pos.

(** Blocks that lie in the buffer one after the other from [pos] on, each
    non-empty and holding its own span of the buffer. *)
Fixpoint laid_out (buffer : Buffer) (pos : nat) (blocks : list ASTBlock) : Prop :=
  match blocks with
  | [] => True
  | b :: blocks' =>
      (pos <= start b) /\ (start b < end_ b) /\ (end_ b <= length buffer) /\
      content b = slice buffer (start b) (end_ b) /\
      laid_out buffer (end_ b) blocks'
  end.

(** A header of the pattern stands at offset [p], with the piece lengths
    [ls] of its match; [brace_of] is then the offset of its brace. *)
Definition header_at (block_pattern : pattern) (buffer : Buffer) (p : nat)
    (ls : list nat) : Prop :=
  p < length buffer /\ match_here block_pattern (skipn p buffer) = Some ls.

Definition brace_of (p : nat) (ls : list nat) : nat := p + list_sum ls - 1.

(** The digits of the id of the header at [p]: group 1, atom [gid]. *)
Definition header_digits (gid : nat) (buffer : Buffer) (p : nat)
    (ls : list nat) : Buffer :=
  slice buffer (p + list_sum (firstn gid ls))
    (p + list_sum (firstn (S gid) ls)).

(** A located block comes from a header of the pattern at its start whose
    brace is matched up to its end; its id is read off group 1. *)
Definition located_header (decimal : char -> option Z)
    (int_max_str_digits : nat) (block_pattern : pattern)
    (gid : nat) (buffer : Buffer) (b : ASTBlock) : Prop :=
  exists ls,
    header_at block_pattern buffer (start b) ls /\
    find_matching_brace buffer (brace_of (start b) ls) = Some (end_ b) /\
    raw_header b = slice buffer (start b) (start b + list_sum ls) /\
    int decimal int_max_str_digits (header_digits gid buffer (start b) ls)
    = Some (block_id b).

(** No header of the buffer has an id of more digits than [int] converts. *)
Definition ids_within_limit (decimal : char -> option Z)
    (int_max_str_digits : nat) (block_pattern : pattern) (gid : nat)
    (buffer : Buffer) : Prop :=
  forall p ls,
    header_at block_pattern buffer p ls ->
    int decimal int_max_str_digits (header_digits gid buffer p ls) <> None.

(** The letters and the bracket that open a header are not decimal digits. *)
Definition digits_apart (decimal : char -> option Z) : Prop :=
  decimal 98%N = None /\ decimal 66%N = None /\ decimal 91%N = None.

(** A header whose brace is not matched gives no block. *)
Definition skips_broken_headers (block_pattern : pattern) (buffer : Buffer)
    (blocks : list ASTBlock) : Prop :=
  forall p ls,
    header_at block_pattern buffer p ls ->
    find_matching_brace buffer (brace_of p ls) = None ->
    forall b, In b blocks -> start b <> p.

(** When the header the scan meets at [pos] has an id that [int] converts
    and a brace that is not matched, the scan goes on just past the header. *)
Definition resumes_past_broken_headers (decimal : char -> option Z)
    (int_max_str_digits : nat) (block_pattern : pattern) (gid : nat)
    (buffer : Buffer) : Prop :=
  forall pos m,
    pos < length buffer ->
    search block_pattern (skipn pos buffer) = Some m ->
    int decimal int_max_str_digits (group (skipn pos buffer) m gid (S gid))
    <> None ->
    find_matching_brace buffer (pos + m_end m - 1) = None ->
    scan decimal int_max_str_digits block_pattern gid buffer pos
    = scan decimal int_max_str_digits block_pattern gid buffer
        (pos + m_end m).

(** The first header the scan meets whose id [int] does not convert ends
    the scan with the exception, whatever its brace. *)
Definition stops_at_long_id (decimal : char -> option Z)
    (int_max_str_digits : nat) (block_pattern : pattern) (gid : nat)
    (buffer : Buffer) : Prop :=
  forall pos m,
    pos < length buffer ->
    search block_pattern (skipn pos buffer) = Some m ->
    int decimal int_max_str_digits (group (skipn pos buffer) m gid (S gid))
    = None ->
    scan decimal int_max_str_digits block_pattern gid buffer pos
    = IntRaises (group (skipn pos buffer) m gid (S gid)).

(** Every header of the buffer whose brace is matched is located, with that
    extent, unless it lies inside a located block. *)
Definition finds_matched_headers (block_pattern : pattern) (buffer : Buffer)
    (blocks : list ASTBlock) : Prop :=
  forall p ls e,
    header_at block_pattern buffer p ls ->
    find_matching_brace buffer (brace_of p ls) = Some e ->
    (exists b, In b blocks /\ start b = p /\ end_ b = e) \/
    (exists b, In b blocks /\ start b < p < end_ b).

(** ** Subsections *)

(** The subsection search the two extractors share: the first [text = {...}]
    of the block content, then the first header of [inner_pattern] inside it;
    the result is the span of the inner construct, relative to the block
    content, and its text. *)
Definition find_subsection (inner_pattern : pattern) (block_content : Buffer)
    : option (nat * nat * Buffer) :=
  match search text_pattern block_content with
  | None => None
  | Some text_match =>
      match find_matching_brace block_content (m_end text_match - 1) with
      | None => None
      | Some text_end =>
          let text_section :=
            slice block_content (m_start text_match) text_end in
          match search inner_pattern text_section with
          | None => None
          | Some inner =>
              match find_matching_brace text_section (m_end inner - 1) with
              | None => None
              | Some inner_end =>
                  Some (m_start text_match + m_start inner,
                        m_start text_match + inner_end,
                        slice text_section (m_start inner) inner_end)
              end
          end
      end
  end.

(** The source tag with its equals sign: [en], in either case, optional
    whitespace, [=]. *)
Definition is_en_tag (tag : Buffer) : Prop :=
  exists c1 c2 ws,
    tag = c1 :: c2 :: ws ++ [chr "="] /\
    ci "e" c1 = true /\ ci "n" c2 = true /\ Forall (holds is_space) ws.

(** ** Direct reconstruction of an edited buffer *)

(** An edit is a start offset with its end offset and replacement, as the
    items of [replacements] are. *)
Definition Edit : Type := nat * (nat * Buffer).

(** The unedited segments and the replacements, concatenated left to right,
    for edits listed by increasing offset. *)
Fixpoint reconstruct_from (buffer : Buffer) (cursor : nat) (edits : list Edit)
    : Buffer :=
  match edits with
  | [] => skipn cursor buffer
  | (s, (e, r)) :: edits' =>
      slice buffer cursor s ++ r ++ reconstruct_from buffer e edits'
  end.

Definition reconstruct (buffer : Buffer) (edits : list Edit) : Buffer :=
  reconstruct_from buffer 0 edits.

(** Edits that lie in the buffer, one after the other, without overlap:
    [cursor <= s1 <= e1 <= s2 <= e2 <= ... <= len]. *)
Fixpoint in_order (len cursor : nat) (edits : list Edit) : Prop :=
  match edits with
  | [] => cursor <= len
  | (s, (e, _)) :: edits' => cursor <= s /\ s <= e /\ in_order len e edits'
  end.

(** The edits of a list applied one after the other, in the order of the
    list. *)
Definition apply_list (buffer : Buffer) (edits : list Edit) : Buffer :=
  fold_left (fun acc '(s, (e, r)) => slice_assign acc s e r) edits buffer.

(** ** Correlation, block by block *)

(** The edit a target block gives rise to: none unless the source block of the
    next id is there and both subsections are found. *)
Definition edit_of (from_blocks_dict : Dict.dict Z ASTBlock)
    (item : Z * ASTBlock) : list Edit :=
  match Dict.get Z.eqb (fst item + 1)%Z from_blocks_dict with
  | Some from_block =>
      match extract_en_section (content from_block),
            extract_ja_section (content (snd item)) with
      | Some en_section, Some (ja_start, ja_end, _) =>
          [(start (snd item) + ja_start, (start (snd item) + ja_end, en_section))]
      | _, _ => []
      end
  | None => []
  end.

(** Whether a target block is reported as unmatched: its source block is
    missing, or the source text was harvested and the target has no [ja]
    subsection. *)
Definition unmatched_of (from_blocks_dict : Dict.dict Z ASTBlock)
    (item : Z * ASTBlock) : list Z :=
  match Dict.get Z.eqb (fst item + 1)%Z from_blocks_dict with
  | Some from_block =>
      match extract_en_section (content from_block),
            extract_ja_section (content (snd item)) with
      | Some _, None => [fst item]
      | _, _ => []
      end
  | None => [fst item]
  end.

Definition set_edit (d : Replacements) (x : Edit) : Replacements :=
  Dict.set Nat.eqb (fst x) (snd x) d.

(** Edits sorted by increasing start offset. *)
Fixpoint insert_edit (x : Edit) (l : list Edit) : list Edit :=
  match l with
  | [] => [x]
  | y :: l' => if fst x <=? fst y then x :: l else y :: insert_edit x l'
  end.

Definition sort_edits (l : list Edit) : list Edit :=
  fold_right insert_edit [] l.

(** Where offset [i] of the buffer ends up in the reconstruction from
    [cursor] on, for an offset outside the replaced spans or at the start of
    one. *)
Fixpoint image (edits : list Edit) (cursor i : nat) : nat :=
  match edits with
  | [] => i - cursor
  | (s, (e, r)) :: edits' =>
      if i <=? s then i - cursor
      else (s - cursor) + length r + image edits' e i
  end.

(** [sub] occurs in [s] as a contiguous run of characters. *)
Definition occurs_in (sub s : Buffer) : Prop :=
  exists pre post, s = pre ++ sub ++ post.

(** ASCII digits only: the smallest table [decimal] can be. *)
Definition ascii_decimal (c : char) : option Z :=
  if ((48 <=? c) && (c <=? 57))%N then Some (Z.of_N c - 48)%Z else None.

(** The blocks of a locator that returned. *)
Definition blocks_of (r : located) : list ASTBlock :=
  match r with
  | Blocks blocks => blocks
  | IntRaises _ => []
  end.

(** The limit of an interpreter started without options, and a text for
    the exception. *)
Definition default_max_str_digits : nat := 4300.

Definition sample_int_error (digits : Buffer) : string :=
  "Exceeds the limit for integer string conversion".

(** ** Name fields *)

(** The field name, in any case. *)
Definition is_name_tag (tag : Buffer) : Prop :=
  exists c1 c2 c3 c4,
    tag = [c1; c2; c3; c4] /\
    ci "n" c1 = true /\ ci "a" c2 = true /\ ci "m" c3 = true /\
    ci "e" c4 = true.

(** The field up to and including its opening brace. *)
Definition name_header (tag ws1 ws2 : Buffer) : Buffer :=
  tag ++ ws1 ++ [chr "="] ++ ws2 ++ [lbrace].

(** What the transform leaves between the braces of a name field: the last
    quoted string alone, or the text as it was when it holds none. *)
Definition new_name_list (body : Buffer) : Buffer :=
  match findall quoted_pattern body with
  | [] => body
  | q :: qs => last (q :: qs) []
  end.

(** A name field stands at the head of [s]: the name in any case, optional
    whitespace, the equals sign, optional whitespace, an opening brace, and
    a closing brace somewhere after it. *)
Definition starts_name_field (s : Buffer) : Prop :=
  exists tag ws1 ws2 body post,
    s = name_header tag ws1 ws2 ++ body ++ rbrace :: post /\
    is_name_tag tag /\
    Forall (holds is_space) ws1 /\ Forall (holds is_space) ws2.

(** The Field Transform on the name fields of a text, read from left to
    right: a text in which no name field stands is kept; otherwise the text
    before the first name field is kept, the field keeps its header and its
    closing brace, which is the first closing brace after the header, with
    [new_name_list] of what stood between them, and the text after the field
    is treated in the same way. *)
Inductive names_rewritten : Buffer -> Buffer -> Prop :=
| names_kept (s : Buffer) :
    (forall j, ~ starts_name_field (skipn j s)) ->
    names_rewritten s s
| names_field (pre tag ws1 ws2 body post out : Buffer) :
    is_name_tag tag ->
    Forall (holds is_space) ws1 -> Forall (holds is_space) ws2 ->
    ~ In rbrace body ->
    (forall j, j < length pre ->
       ~ starts_name_field
           (skipn j (pre ++ name_header tag ws1 ws2 ++ body
                     ++ rbrace :: post))) ->
    names_rewritten post out ->
    names_rewritten
      (pre ++ name_header tag ws1 ws2 ++ body ++ rbrace :: post)
      (pre ++ name_header tag ws1 ws2 ++ new_name_list body
       ++ rbrace :: out).

(** The target tag with its equals sign and the construct it opens: [ja] in
    either case, optional whitespace, [=], optional whitespace, an opening
    brace, up to the closing brace the delimiter matcher pairs with it. *)
Definition is_ja_construct (x : Buffer) : Prop :=
  exists c1 c2 ws ws' body,
    x = c1 :: c2 :: ws ++ chr "=" :: ws' ++ lbrace :: body /\
    ci "j" c1 = true /\ ci "a" c2 = true /\
    Forall (holds is_space) ws /\ Forall (holds is_space) ws' /\
    find_matching_brace x (3 + length ws + length ws') = Some (length x).

(** The transformed [en] content with its tag rewritten: the name fields of
    the construct rewritten, and the source tag up to its equals sign
    replaced by [ja =]. *)
Definition transformed_en (en replacement : Buffer) : Prop :=
  exists tag body,
    is_en_tag tag /\
    names_rewritten en (tag ++ body) /\
    replacement = str "ja =" ++ body.

(** ** Sample inputs *)

Definition no_files : Processor :=
  {| mismatched_files := []; failed_files := []; successful_files := [] |}.

(** A quoted string literal: the text between two double quotes. *)
Definition quoted (s : Buffer) : Buffer := dquote :: s ++ [dquote].

(** A source header for the key [0001_<id>]. *)
Definition from_header (id : string) : Buffer :=
  str "[" ++ quoted (str "0001_" ++ str id) ++ str "] = {".

(** One target block with a [ja] subsection, after the two markers. *)
Definition sample_to : Buffer :=
  str "astver = 1 ast = { block_00000 = { text = { ja = { x } } } }".

(** Its source block, with a two-entry name list (the first entry is the two
    characters U+9065 U+6597). *)
Definition sample_from : Buffer :=
  from_header "00001" ++ str " text = { en = { name = { "
  ++ quoted [36965%N; 26007%N] ++ str ", " ++ quoted (str "Haruto")
  ++ str " } } } }".

Definition sample_result : Buffer :=
  str "astver = 1 ast = { block_00000 = { text = { ja = { name = {"
  ++ quoted (str "Haruto") ++ str "} } } } }".

(** Target block 0 has no [ja] subsection; the source block of target block 1
    has no [en] subsection. *)
Definition sample_to_gaps : Buffer :=
  str "block_0 = { x } block_1 = { text = { ja = { a } } }".

Definition sample_from_gaps : Buffer :=
  from_header "1" ++ str " text = { en = { hello } } }"
  ++ from_header "2" ++ str " text = { xx = { hello } } }".

(** A pair that correlates, without the markers. *)
Definition sample_to_unmarked : Buffer :=
  str "block_0 = { text = { ja = { x } } }".

Definition sample_from_unmarked : Buffer :=
  from_header "1" ++ str " text = { en = { y } } }".

Definition no_block : ASTBlock :=
  {| start := 0; end_ := 0; content := []; block_id := 0%Z; raw_header := [] |}.

Definition block_of (d : Dict.dict Z ASTBlock) (id : Z) : ASTBlock :=
  match Dict.get Z.eqb id d with
  | Some b => b
  | None => no_block
  end.

(** Three target blocks 0, 1, 2 and three source blocks 1, 2, 4, each with its
    subsection. *)
Definition to_block_text (id body : string) : Buffer :=
  str "block_" ++ str id ++ str " = { text = { ja = { " ++ str body
  ++ str " } } } ".

Definition from_block_text (id body : string) : Buffer :=
  from_header id ++ str " text = { en = { " ++ str body ++ str " } } } ".

Definition sample_target_012 : Buffer :=
  to_block_text "0" "a" ++ to_block_text "1" "b" ++ to_block_text "2" "c".

Definition sample_source_124 : Buffer :=
  from_block_text "1" "p" ++ from_block_text "2" "q" ++ from_block_text "4" "r".

(** Blocks 0, 1 and 2, and a header [block_9] whose brace is never closed. *)
Definition sample_broken : Buffer :=
  str "block_0 = { a } block_9 = { block_1 = { b } block_2 = { c }".

(** A header whose id has one digit more than the default limit and whose
    brace is never closed, then block 1. *)
Definition sample_long_id : Buffer :=
  str "block_" ++ repeat (chr "1") 4301 ++ str " = { block_1 = { b }".

(** The name fields of the examples. *)
Definition sample_name_pair : Buffer :=
  str "name = { " ++ quoted [36965%N; 26007%N] ++ str ", "
  ++ quoted (str "Haruto") ++ str " }".

Definition sample_name_single : Buffer :=
  str "name = { " ++ quoted (str "OnlyOne") ++ str " }".

(** ** The batch loop of [main] *)

(** What the loop of [main] meets for one target file: its name, whether the
    file of the same name exists in the source folder, and the results of
    the reads and of the write. *)
Record FileEnv : Type := {
  file_name : string;
  from_exists : bool;
  to_read : read_result;
  from_read : read_result;
  write_raises : option string
}.

(** The state of the loop: the processor, [success_count], and the files
    written so far. *)
Definition BatchState : Type := Processor * nat * list (string * Buffer).

(** One iteration of [for to_path in to_files] (lines 381-396). *)
Definition main_step (decimal : char -> option Z)
    (int_max_str_digits : nat) (int_error : Buffer -> string)
    (acc : BatchState) (f : FileEnv) : BatchState :=
  let '(processor, success_count, written) := acc in
  if negb (from_exists f) then
    (record_failure processor (file_name f) "No matching file in FROM folder",
     success_count, written)
  else
    match process_file decimal int_max_str_digits int_error processor
            (file_name f) (to_read f) (from_read f) (write_raises f) with
    | (processor', true, out) =>
        (processor', S success_count,
         written ++ match out with
                    | Some result => [(file_name f, result)]
                    | None => []
                    end)
    | (processor', false, _) => (processor', success_count, written)
    end.

(** The loop, from a fresh [ASTProcessor()] and [success_count = 0]. *)
Definition main_loop (decimal : char -> option Z)
    (int_max_str_digits : nat) (int_error : Buffer -> string)
    (to_files : list FileEnv) : BatchState :=
  fold_left (main_step decimal int_max_str_digits int_error) to_files
    (no_files, 0, []).

(** [sys.exit(0 if success_count > 0 else 1)]. *)
Definition exit_status (success_count : nat) : Z :=
  if 0 <? success_count then 0%Z else 1%Z.

(** [total_files] of [write_reports] (line 309). *)
Definition total_files (self : Processor) : nat :=
  length (successful_files self) + length (failed_files self).

(** ** The last block of an id *)

(** The block a duplicated id ends up with: the last one in the list. *)
Fixpoint find_last (id : Z) (blocks : list ASTBlock) : option ASTBlock :=
  match blocks with
  | [] => None
  | b :: blocks' =>
      match find_last id blocks' with
      | Some b' => Some b'
      | None => if (block_id b =? id)%Z then Some b else None
      end
  end.

(** The decimal table gives digit values. *)
Definition digit_values (decimal : char -> option Z) : Prop :=
  forall c v, decimal c = Some v -> (0 <= v <= 9)%Z.

(** Sums over a list of edits: the characters replaced, and the characters
    put in their place. *)
Definition replaced_length (edits : list Edit) : nat :=
  list_sum (map (fun x : Edit => fst (snd x) - fst x) edits).

Definition replacement_length (edits : list Edit) : nat :=
  list_sum (map (fun x : Edit => length (snd (snd x))) edits).

(** A source block of id 0 alone. *)
Definition sample_source_0 : Buffer := from_block_text "0" "z".


(** No header of the pattern in the buffer has its brace matched. *)
Definition no_matched_header (block_pattern : pattern) (buffer : Buffer)
    : Prop :=
  forall p ls,
    header_at block_pattern buffer p ls ->
    find_matching_brace buffer (brace_of p ls) = None.
(** ** Properties of the delimiter matcher *)

Section BraceFacts.

Variable text : Buffer.

Lemma loop_body_weight (i : nat) (d : Z) :
  loop_body text (i, d) = (i + 1, (d + weight text i)%Z).
Proof.
  unfold loop_body, weight, escaped.
  destruct ((0 <? i) && is_at text (i - 1) backslash).
  - f_equal; lia.
  - destruct (is_at text i lbrace); [reflexivity|].
    destruct (is_at text i rbrace); f_equal; lia.
Qed.

Lemma weight_range (k : nat) : (-1 <= weight text k <= 1)%Z.
Proof.
  unfold weight.
  destruct (escaped text k); [lia|].
  destruct (is_at text k lbrace); [lia|].
  destruct (is_at text k rbrace); lia.
Qed.

Lemma wsum_snoc (i n : nat) :
  wsum text i (S n) = (wsum text i n + weight text (i + n))%Z.
Proof.
  revert i; induction n as [|n IH]; intro i.
  - simpl. rewrite Nat.add_0_r. lia.
  - change (wsum text i (S (S n)))
      with (weight text i + wsum text (S i) (S n))%Z.
    rewrite IH.
    change (wsum text i (S n)) with (weight text i + wsum text (S i) n)%Z.
    replace (S i + n) with (i + S n) by lia. lia.
Qed.

(** What the loop computes: it stops at the first position where the running
    depth is no longer positive, or at the end of the buffer. *)
Lemma loop_spec (fuel i : nat) (d : Z) :
  length text - i <= fuel ->
  exists n,
    loop text fuel (i, d) = (i + n, (d + wsum text i n)%Z) /\
    (forall m, m < n -> (0 < d + wsum text i m)%Z /\ i + m < length text) /\
    (length text <= i + n \/ (d + wsum text i n <= 0)%Z).
Proof.
  revert i d; induction fuel as [|fuel IH]; intros i d Hfuel.
  - exists 0. simpl. rewrite Nat.add_0_r, Z.add_0_r.
    repeat split; try lia.
  - cbn [loop]. unfold loop_cond. cbn [fst snd].
    destruct (i <? length text) eqn:Hi; cbn [andb].
    2:{ apply Nat.ltb_ge in Hi. exists 0. simpl.
        rewrite Nat.add_0_r, Z.add_0_r. repeat split; try lia. }
    apply Nat.ltb_lt in Hi.
    destruct (0 <? d)%Z eqn:Hd.
    2:{ apply Z.ltb_ge in Hd. exists 0. simpl.
        rewrite Nat.add_0_r, Z.add_0_r. repeat split; try lia. }
    apply Z.ltb_lt in Hd.
    rewrite loop_body_weight.
    destruct (IH (i + 1) (d + weight text i)%Z) as (n & Hrun & Hpos & Hexit);
      [lia|].
    exists (S n). simpl wsum. replace (S i) with (i + 1) by lia.
    split; [|split].
    + rewrite Hrun. f_equal; lia.
    + intros [|m] Hm.
      * simpl. split; lia.
      * simpl wsum. replace (S i) with (i + 1) by lia.
        destruct (Hpos m ltac:(lia)) as [H1 H2]. split; lia.
    + destruct Hexit as [H|H]; [left|right]; lia.
Qed.

(** The loop has left its condition when the fuel is [length text]. *)
Lemma loop_exits (i : nat) (d : Z) :
  loop_cond text (loop text (length text) (i, d)) = false.
Proof.
  destruct (loop_spec (length text) i d ltac:(lia)) as (n & Hrun & _ & Hexit).
  rewrite Hrun. unfold loop_cond; simpl.
  destruct Hexit as [H|H].
  - apply andb_false_intro1. apply Nat.ltb_ge. lia.
  - apply andb_false_intro2. apply Z.ltb_ge. lia.
Qed.

Lemma weight_neg_rbrace (k : nat) :
  (weight text k < 0)%Z ->
  nth_error text k = Some rbrace /\ escaped text k = false.
Proof.
  unfold weight. destruct (escaped text k); [lia|].
  destruct (is_at text k lbrace); [lia|].
  destruct (is_at text k rbrace) eqn:Hr; [|lia].
  intros _. split; [|reflexivity].
  unfold is_at in Hr. destruct (nth_error text k); [|discriminate].
  apply N.eqb_eq in Hr. now subst.
Qed.

End BraceFacts.

Lemma is_at_true (text : Buffer) (i : nat) (c : char) :
  is_at text i c = true <-> nth_error text i = Some c.
Proof.
  unfold is_at. destruct (nth_error text i) as [x|].
  - rewrite N.eqb_eq. split; [now intros ->|now intros [= ->]].
  - split; discriminate.
Qed.

Lemma find_matching_brace_guard (text : Buffer) (open_index : nat) :
  (length text <=? open_index) || negb (is_at text open_index lbrace) = true
  <-> nth_error text open_index <> Some lbrace.
Proof.
  rewrite orb_true_iff, Nat.leb_le, negb_true_iff.
  split.
  - intros [H|H] E.
    + apply nth_error_None in H. congruence.
    + apply is_at_true in E. congruence.
  - intros H. right. destruct (is_at text open_index lbrace) eqn:E; [|reflexivity].
    apply is_at_true in E. contradiction.
Qed.

Lemma find_matching_brace_guard_false (text : Buffer) (open_index : nat) :
  (length text <=? open_index) || negb (is_at text open_index lbrace) = false ->
  nth_error text open_index = Some lbrace.
Proof.
  intros G. apply orb_false_iff in G. destruct G as [_ G].
  apply negb_false_iff in G. now apply is_at_true.
Qed.

(** The run of the loop from the opening brace, in terms of [depth_at]. *)
Lemma find_matching_brace_run (text : Buffer) (open_index : nat) :
  open_index < length text ->
  exists i d,
    loop text (length text) (open_index + 1, 1%Z) = (i, d) /\
    open_index < i <= length text /\
    d = depth_at text open_index i /\
    (0 <= d)%Z /\
    (forall j, open_index < j < i -> (0 < depth_at text open_index j)%Z) /\
    (d = 0%Z ->
       nth_error text (i - 1) = Some rbrace /\ escaped text (i - 1) = false) /\
    ((0 < d)%Z -> i = length text).
Proof.
  intros Hlt.
  destruct (loop_spec text (length text) (open_index + 1) 1%Z ltac:(lia))
    as (n & Hrun & Hpos & Hexit).
  exists (open_index + 1 + n), (1 + wsum text (open_index + 1) n)%Z.
  assert (Hn : open_index + 1 + n <= length text).
  { destruct n as [|n]; [lia|]. destruct (Hpos n ltac:(lia)). lia. }
  assert (Hd : (0 <= 1 + wsum text (open_index + 1) n)%Z).
  { destruct n as [|n]; [simpl; lia|].
    rewrite wsum_snoc. destruct (Hpos n ltac:(lia)) as [H _].
    pose proof (weight_range text (open_index + 1 + n)). lia. }
  split; [exact Hrun|]. split; [lia|]. split.
  { unfold depth_at. f_equal. f_equal. lia. }
  split; [exact Hd|]. split; [|split].
  - intros j Hj. unfold depth_at.
    apply (Hpos (j - (open_index + 1))). lia.
  - intros Hz. destruct n as [|n]; [simpl in Hz; lia|].
    rewrite wsum_snoc in Hz. destruct (Hpos n ltac:(lia)) as [H _].
    replace (open_index + 1 + S n - 1) with (open_index + 1 + n) by lia.
    apply weight_neg_rbrace. lia.
  - intros Hp. destruct Hexit; lia.
Qed.

(** A successful match lies strictly after the opening brace and inside the
    buffer. *)
Lemma find_matching_brace_bounds (text : Buffer) (open_index i : nat) :
  find_matching_brace text open_index = Some i ->
  open_index < i <= length text.
Proof.
  unfold find_matching_brace.
  destruct ((length text <=? open_index)
            || negb (is_at text open_index lbrace)) eqn:G; [discriminate|].
  assert (Hopen : nth_error text open_index = Some lbrace)
    by now apply find_matching_brace_guard_false.
  assert (Hlt : open_index < length text)
    by (apply nth_error_Some; congruence).
  destruct (find_matching_brace_run text open_index Hlt)
    as (i' & d & Hrun & Hi & _).
  rewrite Hrun. destruct (d =? 0)%Z; [|discriminate].
  now intros [= <-].
Qed.

(** C3. [find_matching_brace] is a total function that either fails or returns
    an offset [i] with [open_index < i <= length text], one past the unescaped
    closing brace that first brings the nesting depth to zero; it fails exactly
    when [text[open_index]] is not an opening brace or the depth stays positive
    up to the end of the buffer, which is the case of one extra unescaped
    opening brace. *)
Theorem find_matching_brace_in_range (text : Buffer) (open_index : nat) :
  (forall i, find_matching_brace text open_index = Some i ->
     open_index < i <= length text /\
     nth_error text open_index = Some lbrace /\
     nth_error text (i - 1) = Some rbrace /\
     escaped text (i - 1) = false /\
     depth_at text open_index i = 0%Z /\
     forall j, open_index < j < i -> (0 < depth_at text open_index j)%Z) /\
  (find_matching_brace text open_index = None <->
     nth_error text open_index <> Some lbrace \/
     forall j, open_index < j <= length text ->
       (0 < depth_at text open_index j)%Z) /\
  find_matching_brace (str "{a{b}") 0 = None /\
  find_matching_brace (str "{a{b}}") 0 = Some 6 /\
  find_matching_brace (str "a{b}") 0 = None.
Proof.
  split; [|split; [|repeat split; reflexivity]].
  - intros i. unfold find_matching_brace.
    destruct ((length text <=? open_index)
              || negb (is_at text open_index lbrace)) eqn:G; [discriminate|].
    assert (Hopen : nth_error text open_index = Some lbrace)
      by now apply find_matching_brace_guard_false.
    assert (Hlt : open_index < length text)
      by (apply nth_error_Some; congruence).
    destruct (find_matching_brace_run text open_index Hlt)
      as (i' & d & Hrun & Hi & Hd & _ & Hpos & Hz & _).
    rewrite Hrun.
    destruct (d =? 0)%Z eqn:E; [|discriminate].
    apply Z.eqb_eq in E. intros [= <-].
    destruct (Hz E). repeat split; try lia; try assumption; congruence.
  - unfold find_matching_brace.
    destruct ((length text <=? open_index)
              || negb (is_at text open_index lbrace)) eqn:G.
    + split; [|reflexivity]. intros _. left.
      now apply find_matching_brace_guard.
    + assert (Hopen : nth_error text open_index = Some lbrace)
        by now apply find_matching_brace_guard_false.
      assert (Hlt : open_index < length text)
        by (apply nth_error_Some; congruence).
      destruct (find_matching_brace_run text open_index Hlt)
        as (i' & d & Hrun & Hi & Hd & Hd0 & Hpos & Hz & Hend).
      rewrite Hrun.
      destruct (d =? 0)%Z eqn:E.
      * apply Z.eqb_eq in E. split; [discriminate|].
        intros [H|H]; [congruence|].
        specialize (H i' ltac:(lia)). lia.
      * apply Z.eqb_neq in E. split; [|reflexivity]. intros _. right.
        intros j Hj. specialize (Hend ltac:(lia)).
        destruct (Nat.eq_dec j i') as [->|Hne]; [lia|].
        apply Hpos. lia.
Qed.

(** *** Escapes *)

(** C4, as the code has it. The escape test looks one character back and
    nothing else: a character whose predecessor is a backslash is skipped,
    whatever stands before that backslash. So the brace of backslash-brace is
    not counted, and neither is the brace of backslash-backslash-brace; a
    brace whose predecessor is not a backslash is counted. *)
Theorem escape_single_lookback (text : Buffer) (i : nat) (depth : Z) :
  (0 < i -> nth_error text (i - 1) = Some backslash ->
     loop_body text (i, depth) = (i + 1, depth)) /\
  ((i = 0 \/ nth_error text (i - 1) <> Some backslash) ->
     (nth_error text i = Some lbrace ->
        loop_body text (i, depth) = (i + 1, (depth + 1)%Z)) /\
     (nth_error text i = Some rbrace ->
        loop_body text (i, depth) = (i + 1, (depth - 1)%Z)) /\
     (nth_error text i <> Some lbrace -> nth_error text i <> Some rbrace ->
        loop_body text (i, depth) = (i + 1, depth))) /\
  loop_body (str "\{") (1, depth) = (2, depth) /\
  loop_body (str "\\{") (2, depth) = (3, depth) /\
  find_matching_brace (str "{\{}") 0 = Some 4 /\
  find_matching_brace (str "{\\{}") 0 = Some 5.
Proof.
  split; [|split; [|repeat split; reflexivity]].
  - intros Hi Hb. unfold loop_body.
    apply is_at_true in Hb. rewrite Hb.
    apply Nat.ltb_lt in Hi. rewrite Hi. reflexivity.
  - intros Hne.
    assert (E : (0 <? i) && is_at text (i - 1) backslash = false).
    { destruct Hne as [->|Hne]; [reflexivity|].
      apply andb_false_intro2.
      destruct (is_at text (i - 1) backslash) eqn:E; [|reflexivity].
      apply is_at_true in E. contradiction. }
    unfold loop_body. rewrite E.
    split; [|split].
    + intros H. apply is_at_true in H. now rewrite H.
    + intros H. assert (Hl : is_at text i lbrace = false).
      { destruct (is_at text i lbrace) eqn:El; [|reflexivity].
        apply is_at_true in El. rewrite El in H. discriminate. }
      apply is_at_true in H. now rewrite Hl, H.
    + intros Hl Hr.
      destruct (is_at text i lbrace) eqn:El;
        [apply is_at_true in El; contradiction|].
      destruct (is_at text i rbrace) eqn:Er;
        [apply is_at_true in Er; contradiction|].
      reflexivity.
Qed.

Lemma escape_single_lookback_witness :
  loop_body (str "a\\{") (3, 1%Z) = (4, 1%Z).
Proof.
  apply (proj1 (escape_single_lookback (str "a\\{") 3 1%Z)).
  - lia.
  - reflexivity.
Defined.

(** The claim that the brace of backslash-backslash-brace is counted toward
    the depth fails: on the buffer [{\\{}], with the loop at the second
    opening brace and depth 1, the depth stays 1, and the closing brace that
    follows is taken as the match of the first opening brace. *)
Lemma double_backslash_brace_not_counted :
  nth_error (str "{\\{}") 1 = Some backslash /\
  nth_error (str "{\\{}") 2 = Some backslash /\
  nth_error (str "{\\{}") 3 = Some lbrace /\
  snd (loop_body (str "{\\{}") (3, 1%Z)) <> 2%Z /\
  find_matching_brace (str "{\\{}") 0 <> None.
Proof.
  repeat split; try reflexivity; vm_compute; discriminate.
Qed.

(** ** Lists *)

Lemma slice_length (l : Buffer) (a b : nat) :
  b <= length l -> length (slice l a b) = b - a.
Proof.
  intros H. unfold slice. rewrite length_firstn, length_skipn. lia.
Qed.

Lemma slice_slice (l : Buffer) (a b c d : nat) :
  a + d <= b -> slice (slice l a b) c d = slice l (a + c) (a + d).
Proof.
  intros H. unfold slice.
  rewrite skipn_firstn_comm, firstn_firstn, skipn_skipn.
  replace (Nat.min (d - c) (b - a - c)) with (a + d - (a + c)) by lia.
  now rewrite (Nat.add_comm c a).
Qed.

Lemma slice_skipn (l : Buffer) (p a b : nat) :
  slice (skipn p l) a b = slice l (p + a) (p + b).
Proof.
  unfold slice. rewrite skipn_skipn.
  replace (p + b - (p + a)) with (b - a) by lia.
  now rewrite (Nat.add_comm a p).
Qed.

Lemma slice_from_0 (l : Buffer) (b : nat) : slice l 0 b = firstn b l.
Proof. unfold slice. now rewrite Nat.sub_0_r. Qed.

(** ** The matcher *)

Section ReFacts.

Lemma greedy_sound (p : char -> bool) (k : Buffer -> option (list nat))
    (s : Buffer) (n : nat) (ls : list nat) :
  greedy p k s = Some (n, ls) ->
  n <= length s /\ Forall (holds p) (firstn n s) /\ k (skipn n s) = Some ls.
Proof.
  revert n; induction s as [|c s IH]; intros n; simpl.
  - unfold zero. destruct (k []) eqn:E; simpl; [|discriminate].
    intros [= <- <-]. simpl. auto.
  - destruct (p c) eqn:Hp.
    + destruct (greedy p k s) as [[n' ls']|] eqn:G.
      * intros [= <- <-]. destruct (IH n' eq_refl) as (H1 & H2 & H3).
        simpl. repeat split; [lia| |assumption].
        constructor; assumption.
      * unfold zero. destruct (k (c :: s)) eqn:E; simpl; [|discriminate].
        intros [= <- <-]. simpl. repeat split; [lia|constructor|assumption].
    + unfold zero. destruct (k (c :: s)) eqn:E; simpl; [|discriminate].
      intros [= <- <-]. simpl. repeat split; [lia|constructor|assumption].
Qed.

(** A run of [p] followed by a character outside [p] leaves the greedy
    repetition no choice once the continuation accepts. *)
Lemma greedy_all (p : char -> bool) (k : Buffer -> option (list nat))
    (ws tail : Buffer) (ls : list nat) :
  Forall (holds p) ws ->
  k tail = Some ls ->
  match tail with [] => True | c :: _ => p c = false end ->
  greedy p k (ws ++ tail) = Some (length ws, ls).
Proof.
  intros Hws Hk Htail. induction Hws as [|c ws Hc _ IH]; simpl.
  - destruct tail as [|c tail]; simpl.
    + now rewrite Hk.
    + now rewrite Htail, Hk.
  - unfold holds in Hc. now rewrite Hc, IH.
Qed.

Lemma lazy_sound (p : char -> bool) (k : Buffer -> option (list nat))
    (s : Buffer) (n : nat) (ls : list nat) :
  lazy p k s = Some (n, ls) ->
  n <= length s /\ Forall (holds p) (firstn n s) /\ k (skipn n s) = Some ls /\
  forall j, j < n -> k (skipn j s) = None.
Proof.
  revert n; induction s as [|c s IH]; intros n; simpl.
  - destruct (k []) eqn:E; [|discriminate].
    intros [= <- <-]. simpl. repeat split; auto. intros j Hj; lia.
  - destruct (k (c :: s)) eqn:E.
    + intros [= <- <-]. simpl. repeat split; auto; [lia|]. intros j Hj; lia.
    + destruct (p c) eqn:Hp; [|discriminate].
      destruct (lazy p k s) as [[n' ls']|] eqn:G; simpl; [|discriminate].
      intros [= <- <-]. destruct (IH n' eq_refl) as (H1 & H2 & H3 & H4).
      simpl. repeat split; [lia|constructor; assumption|assumption|].
      intros [|j] Hj; simpl; [assumption|]. apply H4. lia.
Qed.

(** The lazy repetition stops at the first place the continuation accepts. *)
Lemma lazy_first (p : char -> bool) (k : Buffer -> option (list nat))
    (body tail : Buffer) (ls : list nat) :
  Forall (holds p) body ->
  (forall j, j < length body -> k (skipn j (body ++ tail)) = None) ->
  k tail = Some ls ->
  lazy p k (body ++ tail) = Some (length body, ls).
Proof.
  revert tail. induction body as [|c body IH]; intros tail Hp Hnone Hk.
  - simpl. destruct tail; simpl; now rewrite Hk.
  - inversion Hp as [|? ? Hc Hp']; subst.
    pose proof (Hnone 0 ltac:(simpl; lia)) as H0. simpl in H0.
    simpl. rewrite H0.
    unfold holds in Hc. rewrite Hc.
    rewrite (IH tail Hp'); [reflexivity| |assumption].
    intros j Hj. apply (Hnone (S j)). simpl. lia.
Qed.

Lemma seq_here_sound (ps : list (char -> bool)) (s s' : Buffer) :
  seq_here ps s = Some s' ->
  length ps <= length s /\ s' = skipn (length ps) s.
Proof.
  revert s; induction ps as [|p ps IH]; intros s; simpl.
  - intros [= <-]. split; [lia|reflexivity].
  - destruct s as [|c s]; [discriminate|].
    destruct (p c); [|discriminate].
    intros H. destruct (IH s H). simpl. split; [lia|assumption].
Qed.

Lemma star_alt_sound (alts : list (list (char -> bool)))
    (k : Buffer -> option (list nat)) (fuel : nat) (s : Buffer)
    (n : nat) (ls : list nat) :
  star_alt alts k fuel s = Some (n, ls) ->
  n <= length s /\ k (skipn n s) = Some ls.
Proof.
  revert s n; induction fuel as [|fuel IH]; intros s n.
  - simpl. unfold zero. destruct (k s) eqn:E; simpl; [|discriminate].
    intros [= <- <-]. simpl. split; [lia|assumption].
  - cbn [star_alt]. revert n. generalize alts at 2.
    intros rest; induction rest as [|a rest IHr]; intros n.
    + unfold zero. destruct (k s) eqn:E; simpl; [|discriminate].
      intros [= <- <-]. simpl. split; [lia|assumption].
    + destruct (seq_here a s) as [s'|] eqn:Ea; [|exact (IHr n)].
      destruct (star_alt alts k fuel s') as [[n' ls']|] eqn:G;
        [|exact (IHr n)].
      intros [= <- <-]. destruct (seq_here_sound _ _ _ Ea) as [Hlen ->].
      destruct (IH _ _ G) as [H1 H2].
      rewrite length_skipn in H1. rewrite skipn_skipn in H2.
      split; [lia|]. now rewrite (Nat.add_comm (length a) n').
Qed.

(** Peeling the first atom off a successful match. *)
Lemma match_here_One (p : char -> bool) (pat : pattern) (s : Buffer)
    (ls : list nat) :
  match_here (One p :: pat) s = Some ls ->
  exists c s' ls',
    s = c :: s' /\ p c = true /\ match_here pat s' = Some ls' /\ ls = 1 :: ls'.
Proof.
  simpl. destruct s as [|c s']; [discriminate|].
  destruct (p c) eqn:Hp; [|discriminate].
  destruct (match_here pat s') as [ls'|] eqn:E; simpl; [|discriminate].
  intros [= <-]. now exists c, s', ls'.
Qed.

Lemma match_here_Star (p : char -> bool) (pat : pattern) (s : Buffer)
    (ls : list nat) :
  match_here (Star p :: pat) s = Some ls ->
  exists n ls',
    ls = n :: ls' /\ n <= length s /\ Forall (holds p) (firstn n s) /\
    match_here pat (skipn n s) = Some ls'.
Proof.
  simpl. destruct (greedy p (match_here pat) s) as [[n ls']|] eqn:G;
    simpl; [|discriminate].
  intros [= <-]. destruct (greedy_sound _ _ _ _ _ G) as (H1 & H2 & H3).
  now exists n, ls'.
Qed.

(** A successful match stays inside its input and has one length per atom. *)
Lemma match_here_bound (pat : pattern) (s : Buffer) (ls : list nat) :
  match_here pat s = Some ls ->
  list_sum ls <= length s /\ length ls = length pat.
Proof.
  revert s ls; induction pat as [|a pat IH]; intros s ls.
  - simpl. intros [= <-]. simpl. split; [lia|reflexivity].
  - destruct a as [p|p|p|p|alts].
    + intros H. apply match_here_One in H.
      destruct H as (c & s' & ls' & -> & _ & H & ->).
      destruct (IH _ _ H). simpl. split; lia.
    + intros H. apply match_here_Star in H.
      destruct H as (n & ls' & -> & Hn & _ & H).
      destruct (IH _ _ H) as [H1 H2]. rewrite length_skipn in H1.
      simpl. split; lia.
    + simpl. destruct s as [|c s']; [discriminate|].
      destruct (p c); [|discriminate].
      destruct (greedy p (match_here pat) s') as [[n ls']|] eqn:G;
        simpl; [|discriminate].
      intros [= <-]. destruct (greedy_sound _ _ _ _ _ G) as (Hn & _ & H).
      destruct (IH _ _ H) as [H1 H2]. rewrite length_skipn in H1.
      simpl. split; lia.
    + simpl. destruct (lazy p (match_here pat) s) as [[n ls']|] eqn:G;
        simpl; [|discriminate].
      intros [= <-]. destruct (lazy_sound _ _ _ _ _ G) as (Hn & _ & H & _).
      destruct (IH _ _ H) as [H1 H2]. rewrite length_skipn in H1.
      simpl. split; lia.
    + simpl.
      destruct (star_alt alts (match_here pat) (length s) s) as [[n ls']|] eqn:G;
        simpl; [|discriminate].
      intros [= <-]. destruct (star_alt_sound _ _ _ _ _ _ G) as (Hn & H).
      destruct (IH _ _ H) as [H1 H2]. rewrite length_skipn in H1.
      simpl. split; lia.
Qed.

Lemma match_here_nonempty (pat : pattern) (s : Buffer) (ls : list nat) :
  starts_with_One pat -> match_here pat s = Some ls -> 1 <= list_sum ls.
Proof.
  destruct pat as [|[p| | | |] pat]; simpl starts_with_One; try contradiction.
  intros _ H. apply match_here_One in H.
  destruct H as (c & s' & ls' & _ & _ & _ & ->). simpl. lia.
Qed.

(** [re.search] returns the leftmost position where the pattern matches. *)
Lemma search_from_spec (pat : pattern) (s : Buffer) (off : nat) (m : rmatch) :
  search_from pat s off = Some m ->
  exists k,
    m_start m = off + k /\ k <= length s /\
    match_here pat (skipn k s) = Some (m_lens m) /\
    forall j, j < k -> match_here pat (skipn j s) = None.
Proof.
  revert off; induction s as [|c s IH]; intros off; simpl.
  - destruct (match_here pat []) as [ls|] eqn:E; [|discriminate].
    intros [= <-]. exists 0. simpl.
    split; [lia|]. split; [lia|]. split; [assumption|].
    intros j Hj; lia.
  - destruct (match_here pat (c :: s)) as [ls|] eqn:E.
    + intros [= <-]. exists 0. simpl.
      split; [lia|]. split; [lia|]. split; [assumption|].
      intros j Hj; lia.
    + intros H. destruct (IH _ H) as (k & H1 & H2 & H3 & H4).
      exists (S k). simpl.
      split; [lia|]. split; [lia|]. split; [assumption|].
      intros [|j] Hj; simpl; [assumption|]. apply H4. lia.
Qed.

Lemma search_from_None (pat : pattern) (s : Buffer) (off : nat) :
  search_from pat s off = None ->
  forall j, match_here pat (skipn j s) = None.
Proof.
  revert off; induction s as [|c s IH]; intros off; simpl.
  - destruct (match_here pat []) eqn:E; [discriminate|].
    intros _ j. now rewrite skipn_nil.
  - destruct (match_here pat (c :: s)) eqn:E; [discriminate|].
    intros H [|j]; simpl; [assumption|]. now apply (IH (S off)).
Qed.

Lemma search_spec (pat : pattern) (s : Buffer) (m : rmatch) :
  search pat s = Some m ->
  m_end m <= length s /\
  match_here pat (skipn (m_start m) s) = Some (m_lens m) /\
  forall j, j < m_start m -> match_here pat (skipn j s) = None.
Proof.
  intros H. destruct (search_from_spec _ _ _ _ H) as (k & H1 & H2 & H3 & H4).
  simpl in H1. subst k.
  destruct (match_here_bound _ _ _ H3) as [Hb _].
  rewrite length_skipn in Hb. unfold m_end, m_len.
  repeat split; [lia|assumption|assumption].
Qed.

Lemma search_nonempty (pat : pattern) (s : Buffer) (m : rmatch) :
  starts_with_One pat -> search pat s = Some m -> 1 <= m_len m.
Proof.
  intros Hp H. destruct (search_spec _ _ _ H) as (_ & Hm & _).
  exact (match_here_nonempty _ _ _ Hp Hm).
Qed.

(** Conversely, a position where the pattern matches makes the search
    succeed, at that position or before. *)
Lemma search_from_complete (pat : pattern) (s : Buffer) (off j : nat)
    (ls : list nat) :
  match_here pat (skipn j s) = Some ls ->
  exists m, search_from pat s off = Some m /\ m_start m <= off + j.
Proof.
  intros H. destruct (search_from pat s off) as [m|] eqn:E.
  - exists m. split; [reflexivity|].
    destruct (search_from_spec _ _ _ _ E) as (k & H1 & _ & _ & H4).
    destruct (Nat.le_gt_cases k j) as [Hle|Hgt]; [lia|].
    rewrite (H4 j Hgt) in H. discriminate.
  - rewrite (search_from_None _ _ _ E j) in H. discriminate.
Qed.

End ReFacts.

(** ** The block locators *)

Section LocatorFacts.

Variable decimal : char -> option Z.
Variable max_digits : nat.
Variable pat : pattern.
Variable gid : nat.
Variable buf : Buffer.
Hypothesis Hpat : starts_with_One pat.

Lemma header_found (pos : nat) (m : rmatch) :
  search pat (skipn pos buf) = Some m ->
  1 <= m_len m /\ pos + m_end m <= length buf + (pos - length buf) /\
  match_here pat (skipn (pos + m_start m) buf) = Some (m_lens m).
Proof.
  intros H. destruct (search_spec _ _ _ H) as (Hend & Hm & _).
  rewrite length_skipn in Hend. rewrite skipn_skipn in Hm.
  rewrite (Nat.add_comm (m_start m) pos) in Hm.
  split; [exact (search_nonempty _ _ _ Hpat H)|]. split; [lia|assumption].
Qed.

Lemma append_block_Blocks (b : ASTBlock) (rest : located)
    (bs : list ASTBlock) :
  append_block b rest = Blocks bs ->
  exists bs', rest = Blocks bs' /\ bs = b :: bs'.
Proof.
  destruct rest as [bs'|digits]; cbn [append_block]; [|discriminate].
  intros [= <-]. now exists bs'.
Qed.

Lemma append_block_IntRaises (b : ASTBlock) (rest : located)
    (digits : Buffer) :
  append_block b rest = IntRaises digits -> rest = IntRaises digits.
Proof.
  destruct rest as [bs'|digits']; cbn [append_block]; [discriminate|].
  now intros [= <-].
Qed.

(** The digits of a header found from [pos] are the digits of the header
    that stands there. *)
Lemma group_header_digits (pos : nat) (m : rmatch) :
  group (skipn pos buf) m gid (S gid)
  = header_digits gid buf (pos + m_start m) (m_lens m).
Proof.
  unfold group, span, header_digits. cbn [fst snd]. rewrite slice_skipn.
  f_equal; lia.
Qed.

(** Any fuel that covers the rest of the buffer gives the same result. *)
Lemma extract_blocks_loop_fuel (f1 f2 pos : nat) :
  length buf - pos <= f1 -> length buf - pos <= f2 ->
  extract_blocks_loop decimal max_digits pat gid buf f1 pos
  = extract_blocks_loop decimal max_digits pat gid buf f2 pos.
Proof.
  revert f2 pos; induction f1 as [|f1 IH]; intros [|f2] pos H1 H2;
    cbn [extract_blocks_loop]; try reflexivity.
  - assert (E : (pos <? length buf) = false) by (apply Nat.ltb_ge; lia).
    now rewrite E.
  - assert (E : (pos <? length buf) = false) by (apply Nat.ltb_ge; lia).
    now rewrite E.
  - destruct (pos <? length buf) eqn:Hpos; [|reflexivity].
    apply Nat.ltb_lt in Hpos.
    destruct (search pat (skipn pos buf)) as [m|] eqn:Hs; [|reflexivity].
    destruct (header_found pos m Hs) as (Hlen & Hend & _).
    destruct (int decimal max_digits (group (skipn pos buf) m gid (S gid)))
      as [id|]; [|reflexivity].
    unfold m_end in *.
    destruct (find_matching_brace buf (pos + (m_start m + m_len m) - 1))
      as [e|] eqn:Hb.
    + apply find_matching_brace_bounds in Hb.
      f_equal. apply IH; lia.
    + apply IH; lia.
Qed.

(** One iteration of the scan. *)
Lemma scan_step (pos : nat) :
  scan decimal max_digits pat gid buf pos =
  if pos <? length buf then
    match search pat (skipn pos buf) with
    | None => Blocks []
    | Some m =>
        match int decimal max_digits (group (skipn pos buf) m gid (S gid)) with
        | None => IntRaises (group (skipn pos buf) m gid (S gid))
        | Some id =>
            match find_matching_brace buf (pos + m_end m - 1) with
            | None => scan decimal max_digits pat gid buf (pos + m_end m)
            | Some end_pos =>
                append_block
                  {| start := pos + m_start m;
                     end_ := end_pos;
                     content := slice buf (pos + m_start m) end_pos;
                     block_id := id;
                     raw_header := group0 (skipn pos buf) m |}
                  (scan decimal max_digits pat gid buf end_pos)
            end
        end
    end
  else Blocks [].
Proof.
  unfold scan at 1. remember (length buf) as fuel eqn:Hlen.
  destruct fuel as [|n].
  - reflexivity.
  - cbn [extract_blocks_loop]. rewrite Hlen.
    destruct (pos <? length buf) eqn:Hpos; [|reflexivity].
    apply Nat.ltb_lt in Hpos.
    destruct (search pat (skipn pos buf)) as [m|] eqn:Hs; [|reflexivity].
    destruct (header_found pos m Hs) as (Hl & Hend & _).
    destruct (int decimal max_digits (group (skipn pos buf) m gid (S gid)))
      as [id|]; [|reflexivity].
    unfold m_end in *.
    destruct (find_matching_brace buf (pos + (m_start m + m_len m) - 1))
      as [e|] eqn:Hb.
    + apply find_matching_brace_bounds in Hb.
      f_equal. unfold scan. apply extract_blocks_loop_fuel; lia.
    + unfold scan. apply extract_blocks_loop_fuel; lia.
Qed.

Lemma laid_out_weaken (pos pos' : nat) (bs : list ASTBlock) :
  pos <= pos' -> laid_out buf pos' bs -> laid_out buf pos bs.
Proof.
  destruct bs as [|b bs]; simpl; [trivial|].
  intros H (H1 & H2). split; [lia|assumption].
Qed.

Lemma extract_blocks_loop_laid_out (fuel pos : nat) (bs : list ASTBlock) :
  extract_blocks_loop decimal max_digits pat gid buf fuel pos = Blocks bs ->
  laid_out buf pos bs.
Proof.
  revert pos bs; induction fuel as [|fuel IH]; intros pos bs;
    cbn [extract_blocks_loop]; [now intros [= <-]|].
  destruct (pos <? length buf) eqn:Hpos; [|now intros [= <-]].
  apply Nat.ltb_lt in Hpos.
  destruct (search pat (skipn pos buf)) as [m|] eqn:Hs; [|now intros [= <-]].
  destruct (header_found pos m Hs) as (Hl & Hend & _).
  destruct (int decimal max_digits (group (skipn pos buf) m gid (S gid)))
    as [id|]; [|discriminate].
  unfold m_end in *.
  destruct (find_matching_brace buf (pos + (m_start m + m_len m) - 1))
    as [e|] eqn:Hb.
  - intros H. apply append_block_Blocks in H. destruct H as (bs' & H & ->).
    apply find_matching_brace_bounds in Hb. cbn [laid_out start end_ content].
    split; [lia|]. split; [lia|]. split; [lia|]. split; [reflexivity|].
    now apply IH.
  - intros H.
    apply laid_out_weaken with (pos' := pos + (m_start m + m_len m));
      [lia|now apply IH].
Qed.

Lemma laid_out_after (pos : nat) (bs : list ASTBlock) :
  laid_out buf pos bs -> Forall (fun b => pos <= start b) bs.
Proof.
  revert pos; induction bs as [|b bs IH]; intros pos; simpl; [constructor|].
  intros (H1 & H2 & H3 & H4 & H5). constructor; [assumption|].
  specialize (IH _ H5). eapply Forall_impl; [|exact IH].
  simpl. intros; lia.
Qed.

(** Laid-out blocks are pairwise disjoint, in the order of the list. *)
Lemma laid_out_sorted (pos : nat) (bs : list ASTBlock) :
  laid_out buf pos bs ->
  StronglySorted (fun b1 b2 => end_ b1 <= start b2) bs.
Proof.
  revert pos; induction bs as [|b bs IH]; intros pos; simpl; [constructor|].
  intros (H1 & H2 & H3 & H4 & H5). constructor; [exact (IH _ H5)|].
  exact (laid_out_after _ _ H5).
Qed.

Lemma laid_out_each (pos : nat) (bs : list ASTBlock) :
  laid_out buf pos bs ->
  Forall (fun b => start b < end_ b /\ end_ b <= length buf /\
                   content b = slice buf (start b) (end_ b)) bs.
Proof.
  revert pos; induction bs as [|b bs IH]; intros pos; simpl; [constructor|].
  intros (H1 & H2 & H3 & H4 & H5). constructor; [auto|exact (IH _ H5)].
Qed.

Lemma extract_blocks_loop_headers (fuel pos : nat) (bs : list ASTBlock) :
  extract_blocks_loop decimal max_digits pat gid buf fuel pos = Blocks bs ->
  Forall (located_header decimal max_digits pat gid buf) bs.
Proof.
  revert pos bs; induction fuel as [|fuel IH]; intros pos bs;
    cbn [extract_blocks_loop]; [intros [= <-]; constructor|].
  destruct (pos <? length buf) eqn:Hpos; [|intros [= <-]; constructor].
  apply Nat.ltb_lt in Hpos.
  destruct (search pat (skipn pos buf)) as [m|] eqn:Hs;
    [|intros [= <-]; constructor].
  destruct (header_found pos m Hs) as (Hl & Hend & Hm).
  destruct (int decimal max_digits (group (skipn pos buf) m gid (S gid)))
    as [id|] eqn:Hid; [|discriminate].
  destruct (find_matching_brace buf (pos + m_end m - 1)) as [e|] eqn:Hb;
    [|apply IH].
  intros H. apply append_block_Blocks in H. destruct H as (bs' & H & ->).
  constructor; [|exact (IH _ _ H)].
  exists (m_lens m). unfold header_at, brace_of. cbn [start end_ raw_header block_id].
  unfold m_end, m_len in *.
  pose proof (find_matching_brace_bounds _ _ _ Hb) as Hbb.
  split; [split; [lia|assumption]|].
  split; [rewrite <- Hb; f_equal; lia|].
  split.
  - unfold group0, m_end, m_len. rewrite slice_skipn. f_equal; lia.
  - now rewrite <- group_header_digits.
Qed.

(** Every header of the buffer at or after the scan position whose brace is
    matched is located, unless it lies inside a located block or inside the
    text of a header whose own brace is not matched. *)
Lemma extract_blocks_loop_covers (fuel pos p e : nat) (ls : list nat) :
  length buf - pos <= fuel -> pos <= p ->
  header_at pat buf p ls ->
  find_matching_brace buf (brace_of p ls) = Some e ->
  forall bs,
  extract_blocks_loop decimal max_digits pat gid buf fuel pos = Blocks bs ->
  (exists b, In b bs /\ start b = p /\ end_ b = e) \/
  (exists b, In b bs /\ start b < p < end_ b) \/
  (exists q ls', pos <= q < p /\ p < q + list_sum ls' /\
     header_at pat buf q ls' /\
     find_matching_brace buf (brace_of q ls') = None).
Proof.
  intros Hfuel Hpos [Hp Hm] Hb.
  revert pos Hfuel Hpos; induction fuel as [|fuel IH];
    intros pos Hfuel Hpos bs; [lia|].
  cbn [extract_blocks_loop].
  assert (E : (pos <? length buf) = true) by (apply Nat.ltb_lt; lia).
  rewrite E.
  assert (Hm' : match_here pat (skipn (p - pos) (skipn pos buf)) = Some ls).
  { rewrite skipn_skipn. replace (p - pos + pos) with p by lia. exact Hm. }
  destruct (search_from_complete pat (skipn pos buf) 0 (p - pos) ls Hm')
    as (m & Hs & Hle).
  change (search_from pat (skipn pos buf) 0) with (search pat (skipn pos buf))
    in Hs.
  rewrite Hs.
  destruct (header_found pos m Hs) as (Hl & Hend & Hq).
  destruct (int decimal max_digits (group (skipn pos buf) m gid (S gid)))
    as [id|]; [|discriminate].
  unfold m_end in *.
  destruct (Nat.eq_dec (pos + m_start m) p) as [Heq|Hne].
  - rewrite Heq in Hq. assert (m_lens m = ls) by congruence.
    assert (Hbr : pos + (m_start m + m_len m) - 1 = brace_of p ls).
    { unfold brace_of, m_len. subst ls. lia. }
    rewrite Hbr, Hb. intros Hrec.
    apply append_block_Blocks in Hrec. destruct Hrec as (bs' & _ & ->).
    left. eexists. split; [left; reflexivity|].
    cbn [start end_]. split; [assumption|reflexivity].
  - destruct (find_matching_brace buf (pos + (m_start m + m_len m) - 1))
      as [eq|] eqn:Hbq.
    + pose proof (find_matching_brace_bounds _ _ _ Hbq) as Hbb.
      intros Hrec. apply append_block_Blocks in Hrec.
      destruct Hrec as (bs' & Hrec & ->).
      destruct (Nat.lt_ge_cases p eq) as [Hin|Hout].
      * right; left. eexists. split; [left; reflexivity|].
        cbn [start end_]. lia.
      * destruct (IH eq ltac:(lia) Hout bs' Hrec)
          as [(b & Hb1 & Hb2)|[(b & Hb1 & Hb2)|H']].
        -- left. exists b. split; [right; assumption|assumption].
        -- right; left. exists b. split; [right; assumption|assumption].
        -- right; right. destruct H' as (q & ls' & H1 & H2).
           exists q, ls'. split; [lia|assumption].
    + intros Hrec.
      destruct (Nat.lt_ge_cases p (pos + (m_start m + m_len m))) as [Hin|Hout].
      * right; right. exists (pos + m_start m), (m_lens m).
        split; [lia|]. split; [unfold m_len in Hin; lia|].
        split; [split; [lia|assumption]|].
        rewrite <- Hbq. f_equal. unfold brace_of, m_len. lia.
      * destruct (IH (pos + (m_start m + m_len m)) ltac:(lia) Hout bs Hrec)
          as [H'|[H'|H']]; [left; assumption|right; left; assumption|].
        right; right. destruct H' as (q & ls' & H1 & H2).
        exists q, ls'. split; [lia|assumption].
Qed.

(** The scan returns blocks when [int] converts the id of every header, and
    only a header of the buffer can make it raise. *)
Lemma extract_blocks_loop_returns (fuel pos : nat) :
  ids_within_limit decimal max_digits pat gid buf ->
  exists bs,
    extract_blocks_loop decimal max_digits pat gid buf fuel pos = Blocks bs.
Proof.
  intros Hids. revert pos; induction fuel as [|fuel IH]; intros pos;
    cbn [extract_blocks_loop]; [now exists []|].
  destruct (pos <? length buf) eqn:Hpos; [|now exists []].
  apply Nat.ltb_lt in Hpos.
  destruct (search pat (skipn pos buf)) as [m|] eqn:Hs; [|now exists []].
  destruct (header_found pos m Hs) as (Hl & Hend & Hm).
  assert (Hh : header_at pat buf (pos + m_start m) (m_lens m)).
  { split; [unfold m_end in Hend; lia|assumption]. }
  rewrite group_header_digits.
  destruct (int decimal max_digits
              (header_digits gid buf (pos + m_start m) (m_lens m)))
    as [id|] eqn:Hid; [|now contradiction (Hids _ _ Hh)].
  destruct (find_matching_brace buf (pos + m_end m - 1)) as [e|];
    [|apply IH].
  destruct (IH e) as (bs & ->). eexists. reflexivity.
Qed.

Lemma extract_blocks_loop_raises (fuel pos : nat) (digits : Buffer) :
  extract_blocks_loop decimal max_digits pat gid buf fuel pos
  = IntRaises digits ->
  exists p ls,
    pos <= p /\ header_at pat buf p ls /\
    digits = header_digits gid buf p ls /\
    int decimal max_digits digits = None.
Proof.
  revert pos; induction fuel as [|fuel IH]; intros pos;
    cbn [extract_blocks_loop]; [discriminate|].
  destruct (pos <? length buf) eqn:Hpos; [|discriminate].
  apply Nat.ltb_lt in Hpos.
  destruct (search pat (skipn pos buf)) as [m|] eqn:Hs; [|discriminate].
  destruct (header_found pos m Hs) as (Hl & Hend & Hm).
  destruct (int decimal max_digits (group (skipn pos buf) m gid (S gid)))
    as [id|] eqn:Hid.
  - destruct (find_matching_brace buf (pos + m_end m - 1)) as [e|] eqn:Hb.
    + intros H. apply append_block_IntRaises in H.
      apply find_matching_brace_bounds in Hb.
      destruct (IH _ H) as (p & ls & Hp & Hrest).
      exists p, ls. split; [unfold m_end in *; lia|exact Hrest].
    + intros H. destruct (IH _ H) as (p & ls & Hp & Hrest).
      exists p, ls. split; [lia|exact Hrest].
  - intros [= <-]. exists (pos + m_start m), (m_lens m).
    split; [lia|]. split; [split; [unfold m_end in Hend; lia|assumption]|].
    split; [apply group_header_digits|exact Hid].
Qed.

End LocatorFacts.

(** ** The subsection extractors *)

Lemma extract_ja_section_find (block_content : Buffer) :
  extract_ja_section block_content = find_subsection ja_pattern block_content.
Proof. reflexivity. Qed.

Lemma extract_en_section_find (block_content : Buffer) :
  extract_en_section block_content =
  option_map (fun '(_, _, en_content) =>
                retag (sub name_pattern transform_name en_content))
    (find_subsection en_pattern block_content).
Proof.
  unfold extract_en_section, find_subsection.
  destruct (search text_pattern block_content) as [tm|]; [|reflexivity].
  destruct (find_matching_brace block_content (m_end tm - 1)) as [te|];
    [|reflexivity].
  cbv zeta.
  destruct (search en_pattern (slice block_content (m_start tm) te)) as [em|];
    [|reflexivity].
  destruct (find_matching_brace (slice block_content (m_start tm) te)
              (m_end em - 1)); reflexivity.
Qed.

(** A header found by [re.search] and the end of its brace. *)
Lemma located_span (pat : pattern) (text : Buffer) (m : rmatch) (e : nat) :
  starts_with_One pat ->
  search pat text = Some m ->
  find_matching_brace text (m_end m - 1) = Some e ->
  m_start m < e /\ m_end m <= e /\ e <= length text.
Proof.
  intros Hp Hs Hb.
  pose proof (search_nonempty _ _ _ Hp Hs) as Hl.
  apply find_matching_brace_bounds in Hb. unfold m_end in *. lia.
Qed.

(** The span of a subsection is non-empty, lies in the block content, and the
    text returned is the text of the span; it is cut from a text where the
    header searched for matches at its very start, and it holds that header
    whole. *)
Lemma find_subsection_spec (inner : pattern) (c : Buffer) (a b : nat)
    (x : Buffer) :
  starts_with_One inner ->
  find_subsection inner c = Some (a, b, x) ->
  a < b /\ b <= length c /\ x = slice c a b /\
  exists s' ls,
    match_here inner s' = Some ls /\ list_sum ls <= b - a /\
    x = firstn (b - a) s'.
Proof.
  intros Hin. unfold find_subsection.
  destruct (search text_pattern c) as [tm|] eqn:Ht; [|discriminate].
  destruct (find_matching_brace c (m_end tm - 1)) as [te|] eqn:Hte;
    [|discriminate].
  cbv zeta.
  destruct (search inner (slice c (m_start tm) te)) as [im|] eqn:Hi;
    [|discriminate].
  destruct (find_matching_brace (slice c (m_start tm) te) (m_end im - 1))
    as [ie|] eqn:Hie; [|discriminate].
  intros [= <- <- <-].
  destruct (located_span text_pattern c tm te I Ht Hte) as (T1 & T2 & T3).
  destruct (located_span inner _ im ie Hin Hi Hie) as (I1 & I2 & I3).
  rewrite slice_length in I3 by assumption.
  split; [lia|]. split; [lia|]. split; [apply slice_slice; lia|].
  destruct (search_spec _ _ _ Hi) as (_ & Hm & _).
  exists (skipn (m_start im) (slice c (m_start tm) te)), (m_lens im).
  split; [assumption|]. unfold m_end, m_len in I2.
  split; [lia|]. unfold slice at 1. f_equal. lia.
Qed.

Lemma extract_ja_section_spec (c : Buffer) (a b : nat) (x : Buffer) :
  extract_ja_section c = Some (a, b, x) ->
  a < b /\ b <= length c /\ x = slice c a b.
Proof.
  rewrite extract_ja_section_find. intros H.
  destruct (find_subsection_spec ja_pattern c a b x I H) as (H1 & H2 & H3 & _).
  auto.
Qed.

(** *** Character classes of the tags *)

Lemma ci_cases (a : ascii) (c : char) :
  ci a c = true ->
  c = chr a \/ c = (chr a - 32)%N \/
  (chr a = 105%N /\ (c = 304%N \/ c = 305%N)) \/
  (chr a = 115%N /\ c = 383%N) \/ (chr a = 107%N /\ c = 8490%N).
Proof.
  unfold ci. cbv zeta.
  rewrite !orb_true_iff, !andb_true_iff, !orb_true_iff, !N.eqb_eq. tauto.
Qed.

Lemma ci_e_cases (c : char) : ci "e" c = true -> c = 101%N \/ c = 69%N.
Proof.
  intros H. apply ci_cases in H. change (chr "e") with 101%N in H.
  destruct H as [H|[H|[[H _]|[[H _]|[H _]]]]]; try discriminate; auto.
Qed.

Lemma ci_n_cases (c : char) : ci "n" c = true -> c = 110%N \/ c = 78%N.
Proof.
  intros H. apply ci_cases in H. change (chr "n") with 110%N in H.
  destruct H as [H|[H|[[H _]|[[H _]|[H _]]]]]; try discriminate; auto.
Qed.

Lemma ci_a_cases (c : char) : ci "a" c = true -> c = 97%N \/ c = 65%N.
Proof.
  intros H. apply ci_cases in H. change (chr "a") with 97%N in H.
  destruct H as [H|[H|[[H _]|[[H _]|[H _]]]]]; try discriminate; auto.
Qed.

Lemma ci_e_not_n (c : char) : ci "e" c = true -> ci "n" c = false.
Proof. intros H. destruct (ci_e_cases c H); subst; reflexivity. Qed.

Lemma space_not_n (c : char) : is_space c = true -> ci "n" c = false.
Proof.
  intros H. destruct (ci "n" c) eqn:E; [|reflexivity].
  destruct (ci_n_cases c E); subst; discriminate.
Qed.

Lemma space_not_a (c : char) : is_space c = true -> ci "a" c = false.
Proof.
  intros H. destruct (ci "a" c) eqn:E; [|reflexivity].
  destruct (ci_a_cases c E); subst; discriminate.
Qed.

Lemma match_here_One_fails (p : char -> bool) (pat : pattern) (c : char)
    (s : Buffer) :
  p c = false -> match_here (One p :: pat) (c :: s) = None.
Proof. intros H. simpl. now rewrite H. Qed.

(** *** The tag of the harvested subsection *)

(** Where the header [en\s*=\s*\{] matches, the text starts with the tag. *)
Lemma en_header_shape (s : Buffer) (ls : list nat) :
  match_here en_pattern s = Some ls ->
  exists c1 c2 ws rest,
    s = c1 :: c2 :: ws ++ chr "=" :: rest /\
    ci "e" c1 = true /\ ci "n" c2 = true /\ Forall (holds is_space) ws /\
    3 + length ws <= list_sum ls.
Proof.
  unfold en_pattern, header_tail. cbn [app]. intros H.
  apply match_here_One in H. destruct H as (c1 & s1 & l1 & -> & H1 & H & ->).
  apply match_here_One in H. destruct H as (c2 & s2 & l2 & -> & H2 & H & ->).
  apply match_here_Star in H. destruct H as (n & l3 & -> & Hn & Hws & H).
  apply match_here_One in H. destruct H as (c3 & s3 & l4 & Hs3 & H3 & _ & ->).
  apply N.eqb_eq in H3. subst c3.
  exists c1, c2, (firstn n s2), s3.
  rewrite <- Hs3, firstn_skipn, length_firstn.
  repeat split; try assumption. simpl. lia.
Qed.

Lemma en_tag_cut (c1 c2 : char) (ws rest : Buffer) (L : nat) :
  3 + length ws <= L ->
  firstn L (c1 :: c2 :: ws ++ chr "=" :: rest)
  = c1 :: c2 :: ws ++ chr "=" :: firstn (L - 3 - length ws) rest.
Proof.
  intros H. destruct L as [|[|L]]; [lia|lia|]. cbn [firstn]. do 2 f_equal.
  rewrite firstn_app, firstn_all2 by lia. f_equal.
  destruct (L - length ws) as [|k] eqn:E; [lia|]. cbn [firstn]. f_equal.
  f_equal. lia.
Qed.

Lemma tag_tail_head (ws tail : Buffer) (i : nat) :
  Forall (holds is_space) ws -> i <= length ws ->
  exists h t,
    skipn i (ws ++ chr "=" :: tail) = h :: t /\
    (is_space h = true \/ h = chr "=").
Proof.
  intros Hws. revert i. induction Hws as [|w ws Hw _ IH]; intros i Hi.
  - simpl in Hi. assert (i = 0) by lia. subst. simpl. eauto.
  - destruct i as [|i]; simpl.
    + exists w, (ws ++ chr "=" :: tail). split; [reflexivity|now left].
    + apply IH. simpl in Hi. lia.
Qed.

(** The name pattern cannot match inside the tag. *)
Lemma no_name_in_tag (c1 c2 : char) (ws tail : Buffer) (j : nat) :
  ci "e" c1 = true -> ci "n" c2 = true -> Forall (holds is_space) ws ->
  j < 3 + length ws ->
  match_here name_pattern (skipn j (c1 :: c2 :: ws ++ chr "=" :: tail)) = None.
Proof.
  intros H1 H2 Hws Hj. unfold name_pattern. cbn [app].
  destruct j as [|[|j]].
  - cbn [skipn]. apply match_here_One_fails. now apply ci_e_not_n.
  - cbn [skipn].
    destruct (tag_tail_head ws tail 0 Hws ltac:(lia)) as (h & t & Hs & Hh).
    cbn [skipn] in Hs. rewrite Hs. cbn [match_here]. rewrite H2.
    assert (Ha : ci "a" h = false)
      by (destruct Hh as [Hh| ->]; [now apply space_not_a|reflexivity]).
    now rewrite Ha.
  - cbn [skipn].
    destruct (tag_tail_head ws tail j Hws ltac:(lia)) as (h & t & Hs & Hh).
    rewrite Hs. apply match_here_One_fails.
    destruct Hh as [Hh| ->]; [now apply space_not_n|reflexivity].
Qed.

(** [re.sub] copies the text before the first place where the pattern can
    match. *)
Lemma sub_keeps_prefix (pat : pattern) (repl : Buffer -> rmatch -> Buffer)
    (s : Buffer) (k : nat) :
  (forall j, j < k -> match_here pat (skipn j s) = None) ->
  exists tail, sub pat repl s = firstn k s ++ tail.
Proof.
  intros Hnone. unfold sub. destruct (length s) as [|fuel]; cbn [sub_loop].
  - exists (skipn k s). now rewrite firstn_skipn.
  - destruct (search pat s) as [m|] eqn:Hs.
    + destruct (search_spec _ _ _ Hs) as (_ & Hm & _).
      assert (Hk : k <= m_start m).
      { destruct (Nat.le_gt_cases k (m_start m)) as [|Hlt]; [assumption|].
        rewrite (Hnone _ Hlt) in Hm. discriminate. }
      eexists. rewrite <- (firstn_skipn k (firstn (m_start m) s)).
      rewrite firstn_firstn, Nat.min_l by assumption.
      rewrite <- app_assoc. reflexivity.
    + exists (skipn k s). now rewrite firstn_skipn.
Qed.

Lemma retag_tag (c1 c2 : char) (ws tail : Buffer) :
  ci "e" c1 = true -> ci "n" c2 = true -> Forall (holds is_space) ws ->
  retag (c1 :: c2 :: ws ++ chr "=" :: tail) = str "ja =" ++ tail.
Proof.
  intros H1 H2 Hws. unfold retag, en_tag_pattern.
  cbn [match_here]. rewrite H1, H2.
  rewrite (greedy_all is_space _ ws (chr "=" :: tail) [1] Hws);
    [|reflexivity|reflexivity].
  cbn [glue option_map]. f_equal.
  change (list_sum [1; 1; length ws; 1]) with (S (S (length ws + 1))).
  cbn [skipn]. rewrite skipn_app.
  rewrite skipn_all2 by lia.
  replace (length ws + 1 - length ws) with 1 by lia. reflexivity.
Qed.

(** What [extract_en_section] returns: the [en = {...}] construct of the text
    section with its name fields transformed, and with its tag, up to the
    equals sign, replaced by [ja =]. *)
Lemma extract_en_section_spec (c r : Buffer) :
  extract_en_section c = Some r ->
  exists a b tag body,
    find_subsection en_pattern c = Some (a, b, slice c a b) /\
    a < b /\ b <= length c /\
    is_en_tag tag /\
    sub name_pattern transform_name (slice c a b) = tag ++ body /\
    r = str "ja =" ++ body.
Proof.
  rewrite extract_en_section_find.
  destruct (find_subsection en_pattern c) as [[[a b] x]|] eqn:Hf;
    [|discriminate].
  cbn [option_map]. intros [= <-].
  destruct (find_subsection_spec en_pattern c a b x I Hf)
    as (H1 & H2 & H3 & s' & ls & Hm & Hls & Hx).
  destruct (en_header_shape s' ls Hm) as (c1 & c2 & ws & rest & -> & E1 & E2 & Hws & Hlen).
  rewrite en_tag_cut in Hx by lia.
  destruct (sub_keeps_prefix name_pattern transform_name x (3 + length ws))
    as (tail & Htail).
  { intros j Hj. rewrite Hx. now apply no_name_in_tag. }
  assert (Hpre : firstn (3 + length ws) x = c1 :: c2 :: ws ++ [chr "="]).
  { rewrite Hx. change (3 + length ws) with (S (S (S (length ws)))).
    rewrite !firstn_cons. do 2 f_equal.
    rewrite firstn_app, firstn_all2 by lia.
    replace (S (length ws) - length ws) with 1 by lia. reflexivity. }
  rewrite Hpre in Htail.
  exists a, b, (c1 :: c2 :: ws ++ [chr "="]), tail.
  rewrite <- H3.
  split; [reflexivity|]. split; [assumption|]. split; [assumption|].
  split; [now exists c1, c2, ws|]. split; [assumption|].
  rewrite Htail. cbn [app]. rewrite <- app_assoc. cbn [app].
  now apply retag_tag.
Qed.

Lemma extract_en_section_truthy (c r : Buffer) :
  extract_en_section c = Some r -> truthy (Some r) = Some r.
Proof.
  intros H. destruct (extract_en_section_spec c r H)
    as (_ & _ & _ & body & _ & _ & _ & _ & _ & ->).
  reflexivity.
Qed.

(** ** Dictionaries *)

Section DictFacts.

Variables K V : Type.
Variable eqb : K -> K -> bool.
Hypothesis eqb_spec : forall x y, eqb x y = true <-> x = y.

Lemma eqb_refl (x : K) : eqb x x = true.
Proof. now apply eqb_spec. Qed.

Lemma eqb_neq (x y : K) : x <> y -> eqb x y = false.
Proof.
  intros H. destruct (eqb x y) eqn:E; [|reflexivity].
  apply eqb_spec in E. contradiction.
Qed.

Lemma get_In (k : K) (v : V) (d : Dict.dict K V) :
  Dict.get eqb k d = Some v -> In (k, v) d.
Proof.
  induction d as [|[k' v'] d IH]; simpl; [discriminate|].
  destruct (eqb k k') eqn:E.
  - apply eqb_spec in E. intros [= ->]. left. now subst.
  - intros H. right. now apply IH.
Qed.

Lemma get_None (k : K) (d : Dict.dict K V) :
  Dict.get eqb k d = None <-> ~ In k (Dict.keys d).
Proof.
  induction d as [|[k' v'] d IH]; simpl; [tauto|].
  destruct (eqb k k') eqn:E.
  - apply eqb_spec in E. subst. split; [discriminate|].
    intros H. exfalso. apply H. now left.
  - rewrite IH. split.
    + intros H [H'|H']; [|contradiction].
      subst. rewrite eqb_refl in E. discriminate.
    + intros H H'. apply H. now right.
Qed.

Lemma In_get (k : K) (v : V) (d : Dict.dict K V) :
  NoDup (Dict.keys d) -> In (k, v) d -> Dict.get eqb k d = Some v.
Proof.
  induction d as [|[k' v'] d IH]; simpl; [contradiction|].
  intros Hnd [H|H].
  - injection H as -> ->. now rewrite eqb_refl.
  - inversion Hnd as [|? ? Hnin Hnd']; subst.
    destruct (eqb k k') eqn:E.
    + apply eqb_spec in E. subst. exfalso. apply Hnin.
      unfold Dict.keys. change k' with (fst (k', v)). now apply in_map.
    + now apply IH.
Qed.

Lemma get_set (k k' : K) (v : V) (d : Dict.dict K V) :
  Dict.get eqb k' (Dict.set eqb k v d)
  = if eqb k' k then Some v else Dict.get eqb k' d.
Proof.
  induction d as [|[k0 v0] d IH]; simpl; [reflexivity|].
  destruct (eqb k k0) eqn:E; simpl.
  - apply eqb_spec in E. subst. now destruct (eqb k' k0).
  - rewrite IH. destruct (eqb k' k0) eqn:E0; [|reflexivity].
    apply eqb_spec in E0. subst.
    rewrite eqb_neq; [reflexivity|]. intros ->. rewrite eqb_refl in E.
    discriminate.
Qed.

Lemma set_fresh (k : K) (v : V) (d : Dict.dict K V) :
  ~ In k (Dict.keys d) -> Dict.set eqb k v d = d ++ [(k, v)].
Proof.
  induction d as [|[k0 v0] d IH]; simpl; [reflexivity|].
  intros H. rewrite eqb_neq by (intros ->; apply H; now left).
  f_equal. apply IH. intros H'. apply H. now right.
Qed.

Lemma keys_set_In (k x : K) (v : V) (d : Dict.dict K V) :
  In x (Dict.keys (Dict.set eqb k v d)) <-> x = k \/ In x (Dict.keys d).
Proof.
  induction d as [|[k0 v0] d IH]; simpl; [intuition|].
  destruct (eqb k k0) eqn:E; simpl.
  - apply eqb_spec in E. subst. intuition.
  - rewrite IH. intuition.
Qed.

Lemma NoDup_set (k : K) (v : V) (d : Dict.dict K V) :
  NoDup (Dict.keys d) -> NoDup (Dict.keys (Dict.set eqb k v d)).
Proof.
  induction d as [|[k0 v0] d IH]; simpl.
  - intros _. constructor; [tauto|constructor].
  - intros Hnd. inversion Hnd as [|? ? Hnin Hnd']; subst.
    destruct (eqb k k0) eqn:E; simpl.
    + constructor; assumption.
    + constructor; [|now apply IH].
      rewrite keys_set_In. intros [->|H]; [|contradiction].
      rewrite eqb_refl in E. discriminate.
Qed.

Lemma set_In (k : K) (v : V) (d : Dict.dict K V) (x : K * V) :
  In x (Dict.set eqb k v d) -> x = (k, v) \/ In x d.
Proof.
  induction d as [|[k0 v0] d IH]; simpl; [intuition|].
  destruct (eqb k k0) eqn:E; simpl.
  - apply eqb_spec in E. subst. intuition.
  - intuition.
Qed.

End DictFacts.

Lemma Z_eqb_spec (x y : Z) : Z.eqb x y = true <-> x = y.
Proof. apply Z.eqb_eq. Qed.

Lemma Nat_eqb_spec (x y : nat) : Nat.eqb x y = true <-> x = y.
Proof. apply Nat.eqb_eq. Qed.

(** ** Sorting the keys *)

Lemma insert_desc_perm (k : nat) (l : list nat) :
  Permutation (insert_desc k l) (k :: l).
Proof.
  induction l as [|x l IH]; simpl; [reflexivity|].
  destruct (x <=? k); [reflexivity|].
  rewrite IH. apply perm_swap.
Qed.

Lemma sorted_reverse_perm (l : list nat) : Permutation (sorted_reverse l) l.
Proof.
  induction l as [|k l IH]; simpl; [reflexivity|].
  rewrite insert_desc_perm. now constructor.
Qed.

Lemma insert_desc_sorted (k : nat) (l : list nat) :
  StronglySorted ge l -> StronglySorted ge (insert_desc k l).
Proof.
  induction l as [|x l IH]; simpl; intros Hs.
  - repeat constructor.
  - inversion Hs as [|? ? Hs' Hx]; subst.
    destruct (x <=? k) eqn:E.
    + apply Nat.leb_le in E. constructor; [assumption|].
      constructor; [lia|]. eapply Forall_impl; [|exact Hx].
      simpl. intros; lia.
    + apply Nat.leb_gt in E. constructor; [now apply IH|].
      rewrite (Forall_forall). intros y Hy.
      apply (Permutation_in _ (insert_desc_perm k l)) in Hy.
      destruct Hy as [<-|Hy]; [lia|].
      rewrite Forall_forall in Hx. now apply Hx.
Qed.

Lemma sorted_reverse_sorted (l : list nat) :
  StronglySorted ge (sorted_reverse l).
Proof.
  induction l as [|k l IH]; simpl; [constructor|].
  now apply insert_desc_sorted.
Qed.

(** A list sorted downwards and a list sorted strictly downwards with the
    same elements are the same list. *)
Lemma sorted_desc_unique (l1 l2 : list nat) :
  StronglySorted ge l1 -> StronglySorted gt l2 -> Permutation l1 l2 ->
  l1 = l2.
Proof.
  revert l2; induction l1 as [|a l1 IH]; intros l2 H1 H2 Hp.
  - apply Permutation_nil in Hp. now subst.
  - destruct l2 as [|b l2];
      [apply Permutation_sym, Permutation_nil in Hp; discriminate|].
    inversion H1 as [|? ? H1' Ha]; subst.
    inversion H2 as [|? ? H2' Hb]; subst.
    rewrite Forall_forall in Ha, Hb.
    assert (a = b).
    { assert (Hab : In a (b :: l2))
        by (apply (Permutation_in _ Hp); now left).
      assert (Hba : In b (a :: l1))
        by (apply (Permutation_in _ (Permutation_sym Hp)); now left).
      destruct Hab as [->|Hab]; [reflexivity|].
      destruct Hba as [->|Hba]; [reflexivity|].
      specialize (Ha _ Hba). specialize (Hb _ Hab). lia. }
    subst b. f_equal. apply IH; try assumption.
    now apply Permutation_cons_inv in Hp.
Qed.

(** ** Applying the edits *)

Lemma firstn_plus (l : Buffer) (a b : nat) :
  firstn (a + b) l = firstn a l ++ firstn b (skipn a l).
Proof.
  revert l; induction a as [|a IH]; intros l; simpl; [reflexivity|].
  destruct l as [|x l]; simpl.
  - now rewrite firstn_nil.
  - now rewrite IH.
Qed.

Lemma firstn_slice (l : Buffer) (a b : nat) :
  a <= b -> firstn a l ++ slice l a b = firstn b l.
Proof.
  intros H. unfold slice. rewrite <- firstn_plus. f_equal. lia.
Qed.

Lemma slice_assign_in_order (buffer x r : Buffer) (s e : nat) :
  s <= e -> e <= length buffer ->
  slice_assign (firstn e buffer ++ x) s e r = firstn s buffer ++ r ++ x.
Proof.
  intros Hse He. unfold slice_assign.
  rewrite Nat.max_r by assumption.
  rewrite firstn_app, skipn_app, firstn_firstn, length_firstn.
  rewrite !Nat.min_l by lia.
  replace (s - e) with 0 by lia. replace (e - e) with 0 by lia.
  rewrite skipn_all2 by (rewrite length_firstn; lia).
  cbn [firstn skipn app]. now rewrite app_nil_r.
Qed.

Lemma in_order_le (len cursor : nat) (edits : list Edit) :
  in_order len cursor edits -> cursor <= len.
Proof.
  revert cursor; induction edits as [|[s [e r]] edits IH]; intros cursor;
    simpl; [trivial|].
  intros (H1 & H2 & H3). specialize (IH _ H3). lia.
Qed.

Lemma in_order_lower (len cursor : nat) (edits : list Edit) :
  in_order len cursor edits -> Forall (fun x => cursor <= fst x) edits.
Proof.
  revert cursor; induction edits as [|[s [e r]] edits IH]; intros cursor;
    simpl; [constructor|].
  intros (H1 & H2 & H3). constructor; [assumption|].
  eapply Forall_impl; [|exact (IH _ H3)]. simpl. intros; lia.
Qed.

Lemma apply_list_snoc (buffer : Buffer) (edits : list Edit) (s e : nat)
    (r : Buffer) :
  apply_list buffer (edits ++ [(s, (e, r))])
  = slice_assign (apply_list buffer edits) s e r.
Proof. unfold apply_list. now rewrite fold_left_app. Qed.

(** Applied from the last to the first, edits in order give the direct
    reconstruction: each edit finds the text before its end untouched. *)
Lemma apply_list_rev (buffer : Buffer) (cursor : nat) (edits : list Edit) :
  in_order (length buffer) cursor edits ->
  apply_list buffer (rev edits)
  = firstn cursor buffer ++ reconstruct_from buffer cursor edits.
Proof.
  revert cursor; induction edits as [|[s [e r]] edits IH]; intros cursor.
  - intros _. simpl. now rewrite firstn_skipn.
  - simpl. intros (H1 & H2 & H3).
    pose proof (in_order_le _ _ _ H3) as He.
    rewrite apply_list_snoc, (IH e H3).
    rewrite slice_assign_in_order by assumption.
    rewrite <- (firstn_slice buffer cursor s H1), <- app_assoc. reflexivity.
Qed.

(** The loop over the sorted keys, when every key is found. *)
Lemma apply_keys (replacements : Replacements) (edits : list Edit)
    (buffer : Buffer) :
  (forall x, In x edits ->
     Dict.get Nat.eqb (fst x) replacements = Some (snd x)) ->
  fold_left
    (fun acc start_pos =>
       match acc with
       | None => None
       | Some result_chars =>
           match Dict.get Nat.eqb start_pos replacements with
           | Some (end_pos, replacement) =>
               Some (slice_assign result_chars start_pos end_pos replacement)
           | None => None
           end
       end)
    (map fst edits) (Some buffer)
  = Some (apply_list buffer edits).
Proof.
  revert buffer; induction edits as [|[s [e r]] edits IH]; intros buffer Hget.
  - reflexivity.
  - pose proof (Hget (s, (e, r)) ltac:(now left)) as Hs. cbn [fst snd] in Hs.
    cbn [map fold_left fst]. rewrite Hs.
    unfold apply_list. cbn [fold_left].
    apply IH. intros x Hx. apply Hget. now right.
Qed.

Lemma in_order_strict (len cursor : nat) (edits : list Edit) :
  in_order len cursor edits -> NoDup (map fst edits) ->
  StronglySorted gt (rev (map fst edits)).
Proof.
  revert cursor; induction edits as [|[s [e r]] edits IH]; intros cursor;
    simpl; [constructor|].
  intros (H1 & H2 & H3) Hnd. inversion Hnd as [|? ? Hnin Hnd']; subst.
  specialize (IH _ H3 Hnd').
  pose proof (in_order_lower _ _ _ H3) as Hlow.
  assert (Hlt : Forall (fun k => s < k) (map fst edits)).
  { rewrite Forall_forall in *. intros k Hk.
    apply in_map_iff in Hk. destruct Hk as (x & <- & Hx).
    specialize (Hlow _ Hx).
    assert (fst x <> s) by (intros <-; apply Hnin; now apply in_map).
    lia. }
  clear - IH Hlt. rewrite Forall_forall in Hlt.
  assert (Hlt' : forall k, In k (rev (map fst edits)) -> s < k)
    by (intros k Hk; apply Hlt; now apply in_rev).
  induction (rev (map fst edits)) as [|k l IHl]; simpl.
  - repeat constructor.
  - inversion IH as [|? ? Hs Hk]; subst. constructor.
    + apply IHl; [assumption|]. intros; apply Hlt'. now right.
    + apply Forall_app. split; [assumption|].
      constructor; [|constructor]. apply Hlt'. now left.
Qed.

(** The replacements of a dictionary whose edits are in order. *)
Lemma apply_edits_in_order (buffer : Buffer) (replacements : Replacements)
    (edits : list Edit) :
  NoDup (Dict.keys replacements) ->
  Permutation edits replacements ->
  in_order (length buffer) 0 edits ->
  apply_edits buffer replacements = Some (reconstruct buffer edits).
Proof.
  intros Hnd Hperm Hord.
  assert (Hkeys : Permutation (map fst edits) (Dict.keys replacements))
    by now apply Permutation_map.
  assert (Hnd' : NoDup (map fst edits))
    by (apply (Permutation_NoDup (Permutation_sym Hkeys)); assumption).
  assert (Hsort : sorted_reverse (Dict.keys replacements)
                  = map fst (rev edits)).
  { rewrite map_rev. apply sorted_desc_unique.
    - apply sorted_reverse_sorted.
    - exact (in_order_strict _ _ _ Hord Hnd').
    - rewrite sorted_reverse_perm, <- Hkeys. apply Permutation_rev. }
  unfold apply_edits. rewrite Hsort, apply_keys.
  - rewrite (apply_list_rev buffer 0 edits Hord). reflexivity.
  - intros [s [e r]] Hx. cbn [fst snd].
    apply (In_get _ _ Nat.eqb Nat_eqb_spec); [assumption|].
    apply (Permutation_in _ Hperm). now apply in_rev.
Qed.

(** C1. Applying the replacements from the highest start offset down gives
    the direct reconstruction of the buffer, whatever the lengths of the
    replacements; so it does for a 30-character buffer with [10,15) replaced
    by 10 characters and [20,22) by one, in whichever order the two edits
    were recorded: the result has 34 characters and holds both replacements
    whole. *)
Theorem apply_edits_reconstruct :
  (forall (buffer : Buffer) (replacements : Replacements) (edits : list Edit),
     NoDup (Dict.keys replacements) ->
     Permutation edits replacements ->
     in_order (length buffer) 0 edits ->
     apply_edits buffer replacements = Some (reconstruct buffer edits)) /\
  (forall (buffer r1 r2 : Buffer),
     length buffer = 30 -> length r1 = 10 -> length r2 = 1 ->
     let result :=
       firstn 10 buffer ++ r1 ++ slice buffer 15 20 ++ r2 ++ skipn 22 buffer in
     apply_edits buffer [(10, (15, r1)); (20, (22, r2))] = Some result /\
     apply_edits buffer [(20, (22, r2)); (10, (15, r1))] = Some result /\
     length result = 34 /\
     slice result 10 20 = r1 /\
     slice result 25 26 = r2).
Proof.
  split; [exact apply_edits_in_order|].
  intros buffer r1 r2 Hb H1 H2 result.
  assert (Hord : in_order (length buffer) 0 [(10, (15, r1)); (20, (22, r2))])
    by (simpl; lia).
  assert (Hrec : reconstruct buffer [(10, (15, r1)); (20, (22, r2))] = result).
  { unfold reconstruct, result. cbn [reconstruct_from].
    now rewrite slice_from_0. }
  assert (Hnd : NoDup [10; 20])
    by (constructor; [simpl; lia|constructor; [simpl; tauto|constructor]]).
  assert (Hnd' : NoDup [20; 10])
    by (constructor; [simpl; lia|constructor; [simpl; tauto|constructor]]).
  split; [|split; [|split; [|split]]].
  - rewrite <- Hrec. apply apply_edits_in_order; [exact Hnd|reflexivity|exact Hord].
  - rewrite <- Hrec. apply apply_edits_in_order; [exact Hnd'|apply perm_swap|exact Hord].
  - unfold result, slice. rewrite !length_app, !length_firstn, !length_skipn.
    lia.
  - unfold result, slice at 1.
    rewrite skipn_app, length_firstn, Nat.min_l by lia.
    rewrite skipn_all2 by (rewrite length_firstn; lia).
    replace (10 - 10) with 0 by lia. cbn [skipn app].
    rewrite firstn_app, firstn_all2 by lia.
    replace (20 - 10 - length r1) with 0 by lia. cbn [firstn].
    now rewrite app_nil_r.
  - unfold result.
    assert (E : firstn 10 buffer ++ r1 ++ slice buffer 15 20 ++ r2 ++ skipn 22 buffer
                = (firstn 10 buffer ++ r1 ++ slice buffer 15 20) ++ r2 ++ skipn 22 buffer)
      by (rewrite <- !app_assoc; reflexivity).
    rewrite E. unfold slice at 1.
    assert (L : length (firstn 10 buffer ++ r1 ++ slice buffer 15 20) = 25).
    { rewrite !length_app, length_firstn, slice_length by lia. lia. }
    rewrite skipn_app, L, skipn_all2 by lia.
    replace (25 - 25) with 0 by lia. cbn [skipn app].
    rewrite firstn_app, firstn_all2 by lia.
    replace (26 - 25 - length r2) with 0 by lia. cbn [firstn].
    now rewrite app_nil_r.
Qed.

Lemma apply_edits_reconstruct_witness :
  apply_edits (str "0123456789abcdefghijklmnopqrst")
    [(10, (15, str "XXXXXXXXXX")); (20, (22, str "Y"))]
  = Some (str "0123456789XXXXXXXXXXfghijYmnopqrst").
Proof.
  apply (proj1 apply_edits_reconstruct
           (str "0123456789abcdefghijklmnopqrst")
           [(10, (15, str "XXXXXXXXXX")); (20, (22, str "Y"))]
           [(10, (15, str "XXXXXXXXXX")); (20, (22, str "Y"))]).
  - constructor; [simpl; lia|constructor; [simpl; tauto|constructor]].
  - reflexivity.
  - simpl. lia.
Defined.

(** ** Correlation *)

Section CorrelateFacts.

Variable from_dict : Dict.dict Z ASTBlock.

Lemma match_block_step (replacements : Replacements) (unmatched_to : list Z)
    (item : Z * ASTBlock) :
  match_block from_dict (replacements, unmatched_to) item
  = (fold_left set_edit (edit_of from_dict item) replacements,
     unmatched_to ++ unmatched_of from_dict item).
Proof.
  destruct item as [to_id to_block].
  unfold match_block, edit_of, unmatched_of. cbn [fst snd].
  destruct (Dict.get Z.eqb (to_id + 1)%Z from_dict) as [fb|]; [|reflexivity].
  destruct (extract_en_section (content fb)) as [en|] eqn:Hen.
  - rewrite (extract_en_section_truthy _ _ Hen).
    destruct (extract_ja_section (content to_block)) as [[[a b] ja]|];
      [|reflexivity].
    cbn [fold_left]. now rewrite app_nil_r.
  - cbn [truthy fold_left]. now rewrite app_nil_r.
Qed.

Lemma match_block_fold (items : list (Z * ASTBlock))
    (replacements : Replacements) (unmatched_to : list Z) :
  fold_left (match_block from_dict) items (replacements, unmatched_to)
  = (fold_left set_edit (flat_map (edit_of from_dict) items) replacements,
     unmatched_to ++ flat_map (unmatched_of from_dict) items).
Proof.
  revert replacements unmatched_to;
    induction items as [|item items IH]; intros replacements unmatched_to.
  - simpl. now rewrite app_nil_r.
  - cbn [fold_left flat_map]. rewrite match_block_step, IH.
    now rewrite fold_left_app, app_assoc.
Qed.

End CorrelateFacts.

(** Edits with distinct keys, none in the dictionary yet, are appended to it
    in their order. *)
Lemma set_edit_fresh (edits : list Edit) (d : Replacements) :
  NoDup (map fst edits) ->
  (forall x, In x edits -> ~ In (fst x) (Dict.keys d)) ->
  fold_left set_edit edits d = d ++ edits.
Proof.
  revert d; induction edits as [|x edits IH]; intros d Hnd Hfresh.
  - simpl. now rewrite app_nil_r.
  - destruct x as [k v]. cbn [fold_left]. unfold set_edit at 2. cbn [fst snd].
    rewrite (set_fresh _ _ Nat.eqb Nat_eqb_spec)
      by (apply (Hfresh (k, v)); now left).
    inversion Hnd as [|? ? Hnin Hnd']; subst.
    rewrite IH; [now rewrite <- app_assoc|assumption|].
    intros y Hy. unfold Dict.keys. rewrite map_app, in_app_iff.
    intros [H|[H|[]]].
    + apply (Hfresh y); [now right|assumption].
    + cbn [fst] in H. apply Hnin. rewrite H. now apply in_map.
Qed.

(** *** The dictionary of the blocks *)

Lemma blocks_dict_from (blocks : list ASTBlock) (d0 : Dict.dict Z ASTBlock) :
  let d := fold_left (fun d b => Dict.set Z.eqb (block_id b) b d) blocks d0 in
  (NoDup (Dict.keys d0) -> NoDup (Dict.keys d)) /\
  (forall x, In x d -> In x d0 \/ (In (snd x) blocks /\ block_id (snd x) = fst x)) /\
  (forall k, In k (Dict.keys d) <->
             In k (Dict.keys d0) \/ In k (map block_id blocks)).
Proof.
  revert d0; induction blocks as [|b blocks IH]; intros d0; cbn [fold_left].
  - cbv zeta. split; [auto|]. split; [auto|]. intros k. simpl. tauto.
  - destruct (IH (Dict.set Z.eqb (block_id b) b d0)) as (I1 & I2 & I3).
    cbv zeta. split; [|split].
    + intros H. apply I1. now apply (NoDup_set _ _ Z.eqb Z_eqb_spec).
    + intros x Hx. destruct (I2 x Hx) as [H|[H1 H2]].
      * apply (set_In _ _ Z.eqb Z_eqb_spec) in H.
        destruct H as [->|H]; [|now left].
        right. cbn [fst snd]. split; [now left|reflexivity].
      * right. split; [now right|assumption].
    + intros k. rewrite I3, (keys_set_In _ _ Z.eqb Z_eqb_spec). simpl.
      intuition.
Qed.

Lemma blocks_dict_NoDup (blocks : list ASTBlock) :
  NoDup (Dict.keys (blocks_dict blocks)).
Proof. apply (blocks_dict_from blocks []). constructor. Qed.

Lemma blocks_dict_In (blocks : list ASTBlock) (x : Z * ASTBlock) :
  In x (blocks_dict blocks) -> In (snd x) blocks /\ block_id (snd x) = fst x.
Proof.
  intros H. destruct (proj1 (proj2 (blocks_dict_from blocks [])) x H) as [[]|H'].
  exact H'.
Qed.

Lemma blocks_dict_keys (blocks : list ASTBlock) (k : Z) :
  In k (Dict.keys (blocks_dict blocks)) <-> In k (map block_id blocks).
Proof.
  rewrite (proj2 (proj2 (blocks_dict_from blocks [])) k). simpl. tauto.
Qed.

Lemma blocks_dict_get (blocks : list ASTBlock) (k : Z) (b : ASTBlock) :
  Dict.get Z.eqb k (blocks_dict blocks) = Some b ->
  In b blocks /\ block_id b = k.
Proof.
  intros H. apply (get_In _ _ Z.eqb Z_eqb_spec) in H.
  exact (blocks_dict_In blocks (k, b) H).
Qed.

(** ** The edits of located blocks *)

Lemma StronglySorted_pairwise (A : Type) (R : A -> A -> Prop) (l : list A) :
  StronglySorted R l ->
  forall x y, In x l -> In y l -> x = y \/ R x y \/ R y x.
Proof.
  induction 1 as [|a l Hs IH Ha]; intros x y Hx Hy; [destruct Hx|].
  rewrite Forall_forall in Ha.
  destruct Hx as [<-|Hx], Hy as [<-|Hy]; auto.
Qed.

Lemma insert_edit_perm (x : Edit) (l : list Edit) :
  Permutation (insert_edit x l) (x :: l).
Proof.
  induction l as [|y l IH]; simpl; [reflexivity|].
  destruct (fst x <=? fst y); [reflexivity|].
  rewrite IH. apply perm_swap.
Qed.

Lemma sort_edits_perm (l : list Edit) : Permutation (sort_edits l) l.
Proof.
  induction l as [|x l IH]; simpl; [reflexivity|].
  rewrite insert_edit_perm. now constructor.
Qed.

Lemma insert_edit_sorted (x : Edit) (l : list Edit) :
  StronglySorted (fun a b => fst a <= fst b) l ->
  StronglySorted (fun a b => fst a <= fst b) (insert_edit x l).
Proof.
  induction l as [|y l IH]; simpl; intros Hs.
  - repeat constructor.
  - inversion Hs as [|? ? Hs' Hy]; subst.
    destruct (fst x <=? fst y) eqn:E.
    + apply Nat.leb_le in E. constructor; [assumption|].
      constructor; [assumption|]. eapply Forall_impl; [|exact Hy].
      simpl. intros; lia.
    + apply Nat.leb_gt in E. constructor; [now apply IH|].
      rewrite Forall_forall. intros z Hz.
      apply (Permutation_in _ (insert_edit_perm x l)) in Hz.
      destruct Hz as [<-|Hz]; [lia|].
      rewrite Forall_forall in Hy. now apply Hy.
Qed.

Lemma sort_edits_sorted (l : list Edit) :
  StronglySorted (fun a b => fst a <= fst b) (sort_edits l).
Proof.
  induction l as [|x l IH]; simpl; [constructor|].
  now apply insert_edit_sorted.
Qed.

(** Sorted, pairwise disjoint, non-empty spans inside the buffer are in
    order. *)
Lemma sorted_disjoint_in_order (len : nat) (edits : list Edit) (cursor : nat) :
  StronglySorted (fun a b => fst a <= fst b) edits ->
  NoDup edits ->
  (forall x, In x edits -> fst x < fst (snd x) /\ fst (snd x) <= len) ->
  (forall x y, In x edits -> In y edits ->
     x = y \/ fst (snd x) <= fst y \/ fst (snd y) <= fst x) ->
  cursor <= len ->
  (forall x, In x edits -> cursor <= fst x) ->
  in_order len cursor edits.
Proof.
  intros Hs; revert cursor; induction Hs as [|[s [e r]] edits Hs IH Hx];
    intros cursor Hnd Hin Hdis Hc Hlow; simpl; [assumption|].
  inversion Hnd as [|? ? Hnin Hnd']; subst.
  destruct (Hin (s, (e, r)) ltac:(now left)) as [H1 H2]. cbn [fst snd] in *.
  specialize (Hlow (s, (e, r)) ltac:(now left)) as Hs0. cbn [fst] in Hs0.
  split; [assumption|]. split; [lia|].
  rewrite Forall_forall in Hx.
  apply IH; try assumption.
  - intros x Hxin. apply Hin. now right.
  - intros x y Hxin Hyin. apply Hdis; now right.
  - intros y Hy.
    destruct (Hdis (s, (e, r)) y ltac:(now left) ltac:(now right))
      as [<-|[H|H]]; [contradiction|assumption|].
    cbn [fst snd] in H. specialize (Hx y Hy). cbn [fst] in Hx.
    destruct (Hin y ltac:(now right)). lia.
Qed.

Section LocatedEdits.

Variable buf : Buffer.
Variable to_blocks : list ASTBlock.
Variable from_dict : Dict.dict Z ASTBlock.

Hypothesis Hsorted :
  StronglySorted (fun b1 b2 => end_ b1 <= start b2) to_blocks.
Hypothesis Hblocks :
  Forall (fun b => start b < end_ b /\ end_ b <= length buf /\
                   content b = slice buf (start b) (end_ b)) to_blocks.

Local Abbreviation items := (blocks_dict to_blocks).
Local Abbreviation E := (flat_map (edit_of from_dict) items).

(** An edit lies inside the block it comes from. *)
Lemma edit_of_within (item : Z * ASTBlock) (x : Edit) :
  In item items -> In x (edit_of from_dict item) ->
  start (snd item) <= fst x /\ fst x < fst (snd x) /\
  fst (snd x) <= end_ (snd item).
Proof.
  intros Hitem. destruct (blocks_dict_In _ _ Hitem) as [Hb _].
  rewrite Forall_forall in Hblocks.
  destruct (Hblocks _ Hb) as (B1 & B2 & B3).
  unfold edit_of.
  destruct (Dict.get Z.eqb (fst item + 1)%Z from_dict) as [fb|]; [|intros []].
  destruct (extract_en_section (content fb)) as [en|]; [|intros []].
  destruct (extract_ja_section (content (snd item))) as [[[a b] ja]|] eqn:Hja;
    [|intros []].
  intros [<-|[]]. cbn [fst snd].
  destruct (extract_ja_section_spec _ _ _ _ Hja) as (J1 & J2 & _).
  rewrite B3, slice_length in J2 by assumption. lia.
Qed.

Lemma edit_of_single (item : Z * ASTBlock) (x y : Edit) :
  In x (edit_of from_dict item) -> In y (edit_of from_dict item) -> x = y.
Proof.
  unfold edit_of.
  destruct (Dict.get Z.eqb (fst item + 1)%Z from_dict) as [fb|]; [|intros []].
  destruct (extract_en_section (content fb)) as [en|]; [|intros []].
  destruct (extract_ja_section (content (snd item))) as [[[a b] ja]|];
    [|intros []].
  now intros [<-|[]] [<-|[]].
Qed.

Lemma items_disjoint (i1 i2 : Z * ASTBlock) :
  In i1 items -> In i2 items ->
  i1 = i2 \/ end_ (snd i1) <= start (snd i2) \/ end_ (snd i2) <= start (snd i1).
Proof.
  intros H1 H2.
  destruct (blocks_dict_In _ _ H1) as [B1 K1].
  destruct (blocks_dict_In _ _ H2) as [B2 K2].
  destruct (StronglySorted_pairwise _ _ _ Hsorted _ _ B1 B2) as [Heq|H];
    [|now right].
  left. destruct i1 as [k1 b1], i2 as [k2 b2]. cbn [fst snd] in *.
  subst. reflexivity.
Qed.

Lemma located_edits_disjoint (x y : Edit) :
  In x E -> In y E ->
  x = y \/ fst (snd x) <= fst y \/ fst (snd y) <= fst x.
Proof.
  intros Hx Hy. apply in_flat_map in Hx, Hy.
  destruct Hx as (i1 & I1 & Hx), Hy as (i2 & I2 & Hy).
  destruct (edit_of_within _ _ I1 Hx) as (X1 & X2 & X3).
  destruct (edit_of_within _ _ I2 Hy) as (Y1 & Y2 & Y3).
  destruct (items_disjoint _ _ I1 I2) as [<-|[H|H]].
  - left. exact (edit_of_single _ _ _ Hx Hy).
  - right; left. lia.
  - right; right. lia.
Qed.

Lemma located_edits_bounds (x : Edit) :
  In x E -> fst x < fst (snd x) /\ fst (snd x) <= length buf.
Proof.
  intros Hx. apply in_flat_map in Hx. destruct Hx as (i & Hi & Hx).
  destruct (edit_of_within _ _ Hi Hx) as (X1 & X2 & X3).
  destruct (blocks_dict_In _ _ Hi) as [Hb _].
  rewrite Forall_forall in Hblocks. destruct (Hblocks _ Hb) as (_ & B2 & _).
  lia.
Qed.

Lemma located_edits_keys_inj (x y : Edit) :
  In x E -> In y E -> fst x = fst y -> x = y.
Proof.
  intros Hx Hy Heq.
  destruct (located_edits_bounds _ Hx) as [X1 X2].
  destruct (located_edits_bounds _ Hy) as [Y1 Y2].
  destruct (located_edits_disjoint _ _ Hx Hy) as [H|[H|H]];
    [assumption|lia|lia].
Qed.

Lemma located_edits_NoDup_sub (l : list (Z * ASTBlock)) :
  (forall i, In i l -> In i items) -> NoDup l ->
  NoDup (map fst (flat_map (edit_of from_dict) l)).
Proof.
  induction l as [|i l IH]; intros Hitems Hnd; simpl; [constructor|].
  inversion Hnd as [|? ? Hnin Hnd']; subst.
  rewrite map_app. apply NoDup_app.
  - unfold edit_of.
    destruct (Dict.get Z.eqb (fst i + 1)%Z from_dict) as [fb|];
      [|constructor].
    destruct (extract_en_section (content fb)) as [en|]; [|constructor].
    destruct (extract_ja_section (content (snd i))) as [[[a b] ja]|];
      [|constructor].
    simpl. constructor; [tauto|constructor].
  - apply IH; [|assumption]. intros j Hj. apply Hitems. now right.
  - intros k Hk1 Hk2.
    apply in_map_iff in Hk1, Hk2.
    destruct Hk1 as (x & <- & Hx), Hk2 as (y & Hxy & Hy).
    apply in_flat_map in Hy. destruct Hy as (j & Hj & Hy).
    assert (Hi : In i items) by (apply Hitems; now left).
    assert (Hj' : In j items) by (apply Hitems; now right).
    assert (Hxy' : x = y).
    { apply located_edits_keys_inj; [| |now symmetry].
      - apply in_flat_map. exists i. split; assumption.
      - apply in_flat_map. exists j. split; assumption. }
    subst y.
    destruct (edit_of_within _ _ Hi Hx) as (X1 & X2 & X3).
    destruct (edit_of_within _ _ Hj' Hy) as (Y1 & Y2 & Y3).
    destruct (items_disjoint _ _ Hi Hj') as [<-|[H|H]];
      [contradiction|lia|lia].
Qed.

Lemma located_edits_NoDup_keys : NoDup (map fst E).
Proof.
  apply located_edits_NoDup_sub; [auto|].
  apply (NoDup_map_inv fst). apply blocks_dict_NoDup.
Qed.

(** The replacements computed for located blocks are the edits of the
    target blocks, in the order of the dictionary. *)
Lemma located_replacements : fold_left set_edit E [] = E.
Proof.
  rewrite set_edit_fresh; [reflexivity|exact located_edits_NoDup_keys|].
  intros x _ [].
Qed.

Lemma located_edits_in_order :
  in_order (length buf) 0 (sort_edits E).
Proof.
  pose proof (sort_edits_perm E) as Hp.
  apply sorted_disjoint_in_order.
  - apply sort_edits_sorted.
  - apply (Permutation_NoDup (Permutation_sym Hp)).
    apply (NoDup_map_inv fst). exact located_edits_NoDup_keys.
  - intros x Hx. apply located_edits_bounds.
    now apply (Permutation_in _ Hp).
  - intros x y Hx Hy.
    apply located_edits_disjoint; now apply (Permutation_in _ Hp).
  - lia.
  - intros; lia.
Qed.

End LocatedEdits.

(** ** Reading the reconstruction position by position *)

Lemma slice_app_skip (A B : Buffer) (j k : nat) :
  slice (A ++ B) (length A + j) (length A + k) = slice B j k.
Proof.
  unfold slice. rewrite skipn_app, skipn_all2 by lia.
  replace (length A + j - length A) with j by lia.
  replace (length A + k - (length A + j)) with (k - j) by lia.
  reflexivity.
Qed.

Lemma nth_error_slice (l : Buffer) (a b i : nat) :
  a + i < b -> nth_error (slice l a b) i = nth_error l (a + i).
Proof.
  intros H. unfold slice. rewrite nth_error_firstn, nth_error_skipn.
  assert (E : (i <? b - a) = true) by (apply Nat.ltb_lt; lia).
  now rewrite E.
Qed.

(** A character outside every replaced span is found again, unchanged, at
    its image. *)
Lemma reconstruct_outside (buf : Buffer) (edits : list Edit) (cursor i : nat) :
  in_order (length buf) cursor edits ->
  (forall x, In x edits -> fst x < fst (snd x)) ->
  cursor <= i ->
  (forall x, In x edits -> i < fst x \/ fst (snd x) <= i) ->
  nth_error (reconstruct_from buf cursor edits) (image edits cursor i)
  = nth_error buf i.
Proof.
  revert cursor; induction edits as [|[s [e r]] edits IH];
    intros cursor Hord Hne Hi Hout.
  - simpl. rewrite nth_error_skipn. f_equal. lia.
  - simpl in Hord. destruct Hord as (H1 & H2 & H3).
    pose proof (in_order_le _ _ _ H3) as He.
    pose proof (Hne (s, (e, r)) ltac:(now left)) as Hse.
    cbn [reconstruct_from image].
    destruct (Hout (s, (e, r)) ltac:(now left)) as [Hlt|Hge]; cbn [fst snd] in *.
    + assert (E : (i <=? s) = true) by (apply Nat.leb_le; lia). rewrite E.
      rewrite nth_error_app1 by (rewrite slice_length; lia).
      rewrite nth_error_slice by lia. f_equal. lia.
    + assert (E : (i <=? s) = false) by (apply Nat.leb_gt; lia). rewrite E.
      rewrite nth_error_app2 by (rewrite slice_length; lia).
      rewrite slice_length by lia.
      rewrite nth_error_app2 by lia.
      replace (s - cursor + length r + image edits e i - (s - cursor) - length r)
        with (image edits e i) by lia.
      apply IH; [assumption| |assumption|].
      * intros x Hx. apply Hne. now right.
      * intros x Hx. apply Hout. now right.
Qed.

(** Each replacement stands whole at the image of the start of its span. *)
Lemma reconstruct_span (buf : Buffer) (edits : list Edit) (cursor : nat)
    (s e : nat) (r : Buffer) :
  in_order (length buf) cursor edits ->
  (forall x, In x edits -> fst x < fst (snd x)) ->
  In (s, (e, r)) edits ->
  slice (reconstruct_from buf cursor edits)
    (image edits cursor s) (image edits cursor s + length r) = r.
Proof.
  revert cursor; induction edits as [|[s0 [e0 r0]] edits IH];
    intros cursor Hord Hne Hin; [destruct Hin|].
  simpl in Hord. destruct Hord as (H1 & H2 & H3).
  pose proof (in_order_le _ _ _ H3) as He.
  cbn [reconstruct_from image].
  assert (Hlen : length (slice buf cursor s0) = s0 - cursor)
    by (apply slice_length; lia).
  destruct (Nat.leb_spec s s0) as [Hle|Hgt].
  - assert (s = s0 /\ r = r0) as [-> ->].
    { destruct Hin as [[= -> -> ->]|Hin]; [auto|].
      pose proof (in_order_lower _ _ _ H3) as Hlow.
      rewrite Forall_forall in Hlow. specialize (Hlow _ Hin).
      specialize (Hne (s0, (e0, r0)) ltac:(now left)).
      cbn [fst snd] in *. lia. }
    rewrite <- Hlen.
    replace (length (slice buf cursor s0))
      with (length (slice buf cursor s0) + 0) at 1 by lia.
    rewrite slice_app_skip. unfold slice. cbn [skipn].
    rewrite Nat.sub_0_r, firstn_app, firstn_all, Nat.sub_diag.
    cbn [firstn]. now rewrite app_nil_r.
  - destruct Hin as [[= -> -> ->]|Hin]; [lia|].
    rewrite <- Hlen, <- !Nat.add_assoc, slice_app_skip, slice_app_skip.
    apply IH; [assumption| |assumption].
    intros x Hx. apply Hne. now right.
Qed.

(** ** [process_file] *)

Section ProcessFacts.

Variable decimal : char -> option Z.
Variable max_digits : nat.
Variable int_error : Buffer -> string.

Lemma extract_blocks_to_laid_out (buf : Buffer) (blocks : list ASTBlock) :
  extract_blocks_to decimal max_digits buf = Blocks blocks ->
  laid_out buf 0 blocks.
Proof. apply extract_blocks_loop_laid_out. exact I. Qed.

Lemma extract_blocks_from_laid_out (buf : Buffer) (blocks : list ASTBlock) :
  extract_blocks_from decimal max_digits buf = Blocks blocks ->
  laid_out buf 0 blocks.
Proof. apply extract_blocks_loop_laid_out. exact I. Qed.

(** What [correlate] computes on the blocks located in a target buffer. *)
Lemma correlate_located (to_content : Buffer)
    (to_blocks from_blocks : list ASTBlock) :
  extract_blocks_to decimal max_digits to_content = Blocks to_blocks ->
  let to_dict := blocks_dict to_blocks in
  let from_dict := blocks_dict from_blocks in
  correlate to_blocks from_blocks
  = (flat_map (edit_of from_dict) to_dict,
     flat_map (unmatched_of from_dict) to_dict,
     unmatched_from_of to_dict from_dict).
Proof.
  intros Hto. cbv zeta. unfold correlate. rewrite match_block_fold.
  rewrite (located_replacements to_content).
  - reflexivity.
  - exact (laid_out_sorted _ _ _ (extract_blocks_to_laid_out _ _ Hto)).
  - exact (laid_out_each _ _ _ (extract_blocks_to_laid_out _ _ Hto)).
Qed.

(** A call that returns [True] went through every step. *)
Lemma process_file_success (self : Processor) (name : string)
    (to_read from_read : read_result) (write_raises : option string)
    (self' : Processor) (out : option Buffer) :
  process_file decimal max_digits int_error self name to_read from_read
    write_raises
  = (self', true, out) ->
  exists to_content from_content to_blocks from_blocks
         replacements unmatched_to unmatched_from result,
    to_read = ReadOk to_content /\ from_read = ReadOk from_content /\
    extract_blocks_to decimal max_digits to_content = Blocks to_blocks /\
    extract_blocks_from decimal max_digits from_content = Blocks from_blocks /\
    correlate to_blocks from_blocks
    = (replacements, unmatched_to, unmatched_from) /\
    replacements <> [] /\
    apply_edits to_content replacements = Some result /\
    contains (str "astver") (firstn 200 result) = true /\
    contains (str "ast = {") (firstn 300 result) = true /\
    write_raises = None /\ out = Some result.
Proof.
  unfold process_file, failure.
  destruct to_read as [to_content|]; [|discriminate].
  destruct from_read as [from_content|]; [|discriminate].
  destruct (extract_blocks_to decimal max_digits to_content)
    as [to_blocks|] eqn:Hto; [|discriminate].
  destruct (extract_blocks_from decimal max_digits from_content)
    as [from_blocks|] eqn:Hfrom; [|discriminate].
  destruct (is_nil to_blocks); [discriminate|].
  destruct (is_nil from_blocks); [discriminate|].
  destruct (correlate _ _) as [[reps um] uf] eqn:Hc.
  destruct (is_nil reps) eqn:Hn; [discriminate|].
  destruct (apply_edits to_content reps) as [result|] eqn:Ha; [|discriminate].
  destruct (contains (str "astver") (firstn 200 result)) eqn:C1;
    [|discriminate].
  destruct (contains (str "ast = {") (firstn 300 result)) eqn:C2;
    [|discriminate].
  cbn [negb orb].
  destruct write_raises; [discriminate|].
  intros [= <- <-].
  exists to_content, from_content, to_blocks, from_blocks, reps, um, uf, result.
  split; [reflexivity|]. split; [reflexivity|].
  split; [exact Hto|]. split; [exact Hfrom|]. split; [exact Hc|].
  split; [intros ->; discriminate|]. split; [exact Ha|].
  split; [exact C1|]. split; [exact C2|]. split; reflexivity.
Qed.

End ProcessFacts.

(** ** Substring test *)

Lemma is_prefix_spec (p s : Buffer) :
  is_prefix p s = true <-> exists post, s = p ++ post.
Proof.
  revert s; induction p as [|x p IH]; intros s; simpl.
  - split; [intros _; now exists s|reflexivity].
  - destruct s as [|y s].
    + split; [discriminate|]. intros [post H]. discriminate.
    + rewrite andb_true_iff, N.eqb_eq, IH. split.
      * intros [-> [post ->]]. now exists post.
      * intros [post [= -> ->]]. split; [reflexivity|now exists post].
Qed.

Lemma contains_spec (sub s : Buffer) :
  contains sub s = true <-> occurs_in sub s.
Proof.
  unfold occurs_in. induction s as [|y s IH]; simpl.
  - rewrite orb_false_r, is_prefix_spec. split.
    + intros [post H]. now exists [], post.
    + intros [pre [post H]]. destruct pre; [now exists post|discriminate].
  - rewrite orb_true_iff, is_prefix_spec, IH. split.
    + intros [[post H]|[pre [post H]]].
      * now exists [], post.
      * exists (y :: pre), post. simpl. now rewrite H.
    + intros [pre [post H]]. destruct pre as [|z pre].
      * left. now exists post.
      * right. injection H as _ H. now exists pre, post.
Qed.

Lemma contains_false (sub s : Buffer) :
  contains sub s = false <-> ~ occurs_in sub s.
Proof.
  rewrite <- contains_spec. destruct (contains sub s); split; auto;
    try discriminate. intros H. now contradiction H.
Qed.

(** ** The edits of a processed file *)

Section ProcessClaims.

Variable decimal : char -> option Z.
Variable max_digits : nat.
Variable int_error : Buffer -> string.

Lemma edit_of_In (from_dict : Dict.dict Z ASTBlock) (t : Z) (tb : ASTBlock)
    (s e : nat) (r : Buffer) :
  In (s, (e, r)) (edit_of from_dict (t, tb)) <->
  exists fb a b ja,
    Dict.get Z.eqb (t + 1)%Z from_dict = Some fb /\
    extract_ja_section (content tb) = Some (a, b, ja) /\
    extract_en_section (content fb) = Some r /\
    s = start tb + a /\ e = start tb + b.
Proof.
  unfold edit_of. cbn [fst snd].
  destruct (Dict.get Z.eqb (t + 1)%Z from_dict) as [fb|].
  2:{ split; [intros []|]. intros (? & ? & ? & ? & H & _). discriminate. }
  destruct (extract_en_section (content fb)) as [en|] eqn:Hen.
  2:{ split; [intros []|].
      intros (fb' & ? & ? & ? & [= <-] & _ & H & _). congruence. }
  destruct (extract_ja_section (content tb)) as [[[a b] ja]|] eqn:Hja.
  2:{ split; [intros []|].
      intros (? & ? & ? & ? & _ & H & _). discriminate. }
  split.
  - intros [[= <- <- <-]|[]]. now exists fb, a, b, ja.
  - intros (fb' & a' & b' & ja' & [= <-] & [= <- <- <-] & H & -> & ->).
    left. congruence.
Qed.

(** C8. When the replacements computed for a file pair are empty, the call
    records one failure for the file, returns [False] and writes nothing; the
    message is the one of the missing replacements whenever both files had
    blocks, that is, whenever the replacements were computed at all. *)
Theorem no_replacements_rejected (self : Processor) (name : string)
    (to_content from_content : Buffer) (write_raises : option string)
    (to_blocks from_blocks : list ASTBlock)
    (unmatched_to unmatched_from : list Z) :
  extract_blocks_to decimal max_digits to_content = Blocks to_blocks ->
  extract_blocks_from decimal max_digits from_content = Blocks from_blocks ->
  correlate to_blocks from_blocks = ([], unmatched_to, unmatched_from) ->
  exists self' error_msg,
    process_file decimal max_digits int_error self name (ReadOk to_content)
      (ReadOk from_content) write_raises
    = (self', false, None) /\
    failed_files self' = failed_files self ++ [(name, error_msg)] /\
    successful_files self' = successful_files self /\
    (to_blocks <> [] -> from_blocks <> [] ->
     error_msg = "No valid replacements found"%string).
Proof.
  intros Hto Hfrom Hc. unfold process_file. rewrite Hto, Hfrom.
  destruct to_blocks as [|tb tbs].
  { cbn [is_nil]. do 2 eexists. split; [reflexivity|].
    split; [reflexivity|]. split; [reflexivity|]. intros H. now contradiction H. }
  destruct from_blocks as [|fb fbs].
  { cbn [is_nil]. do 2 eexists. split; [reflexivity|].
    split; [reflexivity|]. split; [reflexivity|].
    intros _ H. now contradiction H. }
  cbn [is_nil]. rewrite Hc. cbn [is_nil].
  destruct (is_nil unmatched_to && is_nil unmatched_from);
    do 2 eexists; (split; [reflexivity|]); repeat split; reflexivity.
Qed.

(** C9. When every step up to the edits went through but the first 200
    characters of the result do not hold [astver], or the first 300 do not
    hold [ast = {], the call records the corruption failure, returns [False]
    and writes nothing. *)
Theorem integrity_check_rejects (self : Processor) (name : string)
    (to_content from_content : Buffer) (write_raises : option string)
    (to_blocks from_blocks : list ASTBlock)
    (replacements : Replacements) (unmatched_to unmatched_from : list Z)
    (result : Buffer) :
  extract_blocks_to decimal max_digits to_content = Blocks to_blocks ->
  extract_blocks_from decimal max_digits from_content = Blocks from_blocks ->
  to_blocks <> [] ->
  from_blocks <> [] ->
  correlate to_blocks from_blocks
  = (replacements, unmatched_to, unmatched_from) ->
  replacements <> [] ->
  apply_edits to_content replacements = Some result ->
  ~ occurs_in (str "astver") (firstn 200 result) \/
  ~ occurs_in (str "ast = {") (firstn 300 result) ->
  exists self',
    process_file decimal max_digits int_error self name (ReadOk to_content)
      (ReadOk from_content) write_raises
    = (self', false, None) /\
    failed_files self'
    = failed_files self
      ++ [(name,
           "CRITICAL: Output structure corrupted (missing astver/ast)"%string)] /\
    successful_files self' = successful_files self.
Proof.
  intros Hto Hfrom Ht Hf Hc Hne Ha Hbad. unfold process_file.
  rewrite Hto, Hfrom.
  destruct to_blocks as [|tb tbs]; [now contradiction Ht|].
  destruct from_blocks as [|fb fbs]; [now contradiction Hf|].
  cbn [is_nil]. rewrite Hc.
  destruct replacements as [|x reps]; [now contradiction Hne|].
  cbn [is_nil]. rewrite Ha.
  assert (E : negb (contains (str "astver") (firstn 200 result))
              || negb (contains (str "ast = {") (firstn 300 result)) = true).
  { apply orb_true_iff.
    destruct Hbad as [H|H]; [left|right]; apply negb_true_iff;
      now apply contains_false. }
  rewrite E.
  destruct (is_nil unmatched_to && is_nil unmatched_from);
    eexists; (split; [reflexivity|]); split; reflexivity.
Qed.

End ProcessClaims.

(** C10. A target block whose source block exists but yields no [en]
    subsection leaves both accumulators of the loop as they are: no edit is
    made for it and its id is not among the unmatched target ids. If the
    source text is harvested and the target block has no [ja] subsection,
    the id of the target block is appended to the unmatched target ids. *)
Theorem unharvested_pair_is_skipped (to_blocks from_blocks : list ASTBlock)
    (t : Z) (tb fb : ASTBlock)
    (replacements : Replacements) (unmatched_to unmatched_from : list Z) :
  Dict.get Z.eqb t (blocks_dict to_blocks) = Some tb ->
  Dict.get Z.eqb (t + 1)%Z (blocks_dict from_blocks) = Some fb ->
  correlate to_blocks from_blocks
  = (replacements, unmatched_to, unmatched_from) ->
  (extract_en_section (content fb) = None ->
     (forall acc, match_block (blocks_dict from_blocks) acc (t, tb) = acc) /\
     ~ In t unmatched_to /\
     (forall x, In x replacements ->
        exists item,
          In item (blocks_dict to_blocks) /\ item <> (t, tb) /\
          In x (edit_of (blocks_dict from_blocks) item))) /\
  (extract_en_section (content fb) <> None ->
   extract_ja_section (content tb) = None ->
     (forall reps um,
        match_block (blocks_dict from_blocks) (reps, um) (t, tb)
        = (reps, um ++ [t])) /\
     In t unmatched_to).
Proof.
  intros Ht Hf Hc. unfold correlate in Hc. rewrite match_block_fold in Hc.
  injection Hc as Hreps Hum _. cbn [app] in Hum.
  assert (Hitem : In (t, tb) (blocks_dict to_blocks))
    by now apply (get_In _ _ Z.eqb Z_eqb_spec).
  assert (Hum_in : In t unmatched_to <->
                   In t (unmatched_of (blocks_dict from_blocks) (t, tb))).
  { rewrite <- Hum, in_flat_map. split.
    - intros ([t' tb'] & Hi & Hin).
      assert (t' = t).
      { revert Hin. unfold unmatched_of. cbn [fst snd].
        destruct (Dict.get Z.eqb (t' + 1)%Z (blocks_dict from_blocks))
          as [fb'|]; [|now intros [<-|[]]].
        destruct (extract_en_section (content fb')); [|intros []].
        destruct (extract_ja_section (content tb')); [intros []|].
        now intros [<-|[]]. }
      subst t'.
      assert (Some tb' = Some tb) as [= ->]; [|assumption].
      rewrite <- Ht. symmetry.
      apply (In_get _ _ Z.eqb Z_eqb_spec); [apply blocks_dict_NoDup|assumption].
    - intros H. now exists (t, tb). }
  split.
  - intros Hen. split; [|split].
    + intros [reps um]. rewrite match_block_step.
      unfold edit_of, unmatched_of. cbn [fst snd]. rewrite Hf, Hen.
      cbn [fold_left]. now rewrite app_nil_r.
    + rewrite Hum_in. unfold unmatched_of. cbn [fst snd].
      rewrite Hf, Hen. intros [].
    + intros x Hx. rewrite <- Hreps in Hx.
      assert (Hsub : forall es d, In x (fold_left set_edit es d) ->
                                  In x d \/ In x es).
      { clear. induction es as [|y es IH]; intros d; cbn [fold_left];
          [now left|].
        intros H. destruct (IH _ H) as [H'|H']; [|right; now right].
        apply (set_In _ _ Nat.eqb Nat_eqb_spec) in H'.
        destruct H' as [->|H']; [|now left].
        right; left. now destruct y. }
      destruct (Hsub _ _ Hx) as [[]|Hin].
      apply in_flat_map in Hin. destruct Hin as (item & Hi & Hin).
      exists item. split; [assumption|]. split; [|assumption].
      intros ->. revert Hin. unfold edit_of. cbn [fst snd].
      rewrite Hf, Hen. intros [].
  - intros Hen Hja.
    destruct (extract_en_section (content fb)) as [en|] eqn:Een;
      [|now contradiction Hen].
    split.
    + intros reps um. rewrite match_block_step.
      unfold edit_of, unmatched_of. cbn [fst snd]. rewrite Hf, Een, Hja.
      reflexivity.
    + rewrite Hum_in. unfold unmatched_of. cbn [fst snd].
      rewrite Hf, Een, Hja. now left.
Qed.
(** ** The claims on sample inputs *)

Lemma no_replacements_rejected_witness :
  exists self' error_msg,
    process_file ascii_decimal default_max_str_digits sample_int_error
      no_files "demo.ast" (ReadOk sample_to_gaps) (ReadOk sample_from_gaps)
      None
    = (self', false, None) /\
    failed_files self' = failed_files no_files ++ [("demo.ast"%string, error_msg)] /\
    successful_files self' = successful_files no_files /\
    (blocks_of (extract_blocks_to ascii_decimal default_max_str_digits
                  sample_to_gaps) <> [] ->
     blocks_of (extract_blocks_from ascii_decimal default_max_str_digits
                  sample_from_gaps) <> [] ->
     error_msg = "No valid replacements found"%string).
Proof.
  apply (no_replacements_rejected ascii_decimal default_max_str_digits
           sample_int_error no_files "demo.ast"
           sample_to_gaps sample_from_gaps None
           (blocks_of (extract_blocks_to ascii_decimal default_max_str_digits
                         sample_to_gaps))
           (blocks_of (extract_blocks_from ascii_decimal
                         default_max_str_digits sample_from_gaps))
           [0%Z] []).
  - vm_compute. reflexivity.
  - vm_compute. reflexivity.
  - vm_compute. reflexivity.
Defined.

Lemma integrity_check_rejects_witness :
  exists self',
    process_file ascii_decimal default_max_str_digits sample_int_error
      no_files "demo.ast" (ReadOk sample_to_unmarked)
      (ReadOk sample_from_unmarked) None
    = (self', false, None) /\
    failed_files self'
    = failed_files no_files
      ++ [("demo.ast"%string,
           "CRITICAL: Output structure corrupted (missing astver/ast)"%string)] /\
    successful_files self' = successful_files no_files.
Proof.
  apply (integrity_check_rejects ascii_decimal default_max_str_digits
           sample_int_error no_files "demo.ast"
           sample_to_unmarked sample_from_unmarked None
           (blocks_of (extract_blocks_to ascii_decimal default_max_str_digits
                         sample_to_unmarked))
           (blocks_of (extract_blocks_from ascii_decimal
                         default_max_str_digits sample_from_unmarked))
           [(21, (31, str "ja = { y }"))] [] []
           (str "block_0 = { text = { ja = { y } } }")).
  - vm_compute. reflexivity.
  - vm_compute. reflexivity.
  - vm_compute. discriminate.
  - vm_compute. discriminate.
  - vm_compute. reflexivity.
  - discriminate.
  - vm_compute. reflexivity.
  - left. apply contains_false. vm_compute. reflexivity.
Defined.

Lemma unharvested_pair_is_skipped_witness :
  ~ In 1%Z [0%Z] /\ In 0%Z [0%Z].
Proof.
  pose (to_blocks :=
          blocks_of (extract_blocks_to ascii_decimal default_max_str_digits
                       sample_to_gaps)).
  pose (from_blocks :=
          blocks_of (extract_blocks_from ascii_decimal default_max_str_digits
                       sample_from_gaps)).
  split.
  - apply (proj1 (unharvested_pair_is_skipped to_blocks from_blocks 1%Z
                    (block_of (blocks_dict to_blocks) 1%Z)
                    (block_of (blocks_dict from_blocks) 2%Z)
                    [] [0%Z] []
                    ltac:(vm_compute; reflexivity)
                    ltac:(vm_compute; reflexivity)
                    ltac:(vm_compute; reflexivity))).
    vm_compute. reflexivity.
  - apply (proj2 (unharvested_pair_is_skipped to_blocks from_blocks 0%Z
                    (block_of (blocks_dict to_blocks) 0%Z)
                    (block_of (blocks_dict from_blocks) 1%Z)
                    [] [0%Z] []
                    ltac:(vm_compute; reflexivity)
                    ltac:(vm_compute; reflexivity)
                    ltac:(vm_compute; reflexivity))).
    + vm_compute. discriminate.
    + vm_compute. reflexivity.
Defined.

(** ** Correlation on given sets of ids *)

Lemma NoDup_singleton (A : Type) (l : list A) (a : A) :
  NoDup l -> (forall z, In z l <-> z = a) -> l = [a].
Proof.
  intros Hnd Hin. apply Permutation_length_1_inv.
  apply NoDup_Permutation; [repeat constructor; now intros []|assumption|].
  intros z. rewrite Hin. simpl. intuition.
Qed.

Lemma get_of_key (d : Dict.dict Z ASTBlock) (k : Z) :
  In k (Dict.keys d) -> exists b, Dict.get Z.eqb k d = Some b.
Proof.
  intros H. destruct (Dict.get Z.eqb k d) as [b|] eqn:E; [now exists b|].
  apply (get_None _ _ Z.eqb Z_eqb_spec) in E. contradiction.
Qed.

Lemma mem_keys (d : Dict.dict Z ASTBlock) (k : Z) :
  Dict.mem Z.eqb k d = true <-> In k (Dict.keys d).
Proof.
  unfold Dict.mem. destruct (Dict.get Z.eqb k d) as [b|] eqn:E.
  - split; [|reflexivity]. intros _.
    destruct (in_dec Z.eq_dec k (Dict.keys d)) as [H|H]; [assumption|].
    apply (get_None _ _ Z.eqb Z_eqb_spec) in H. congruence.
  - apply (get_None _ _ Z.eqb Z_eqb_spec) in E. split; [discriminate|].
    intros H. contradiction.
Qed.

Lemma unmatched_of_cases (fd : Dict.dict Z ASTBlock) (item : Z * ASTBlock) :
  unmatched_of fd item = [] \/ unmatched_of fd item = [fst item].
Proof.
  unfold unmatched_of.
  destruct (Dict.get Z.eqb (fst item + 1)%Z fd) as [fb|]; [|now right].
  destruct (extract_en_section (content fb)); [|now left].
  destruct (extract_ja_section (content (snd item))); [now left|now right].
Qed.

Lemma unmatched_NoDup (fd d : Dict.dict Z ASTBlock) :
  NoDup (Dict.keys d) -> NoDup (flat_map (unmatched_of fd) d).
Proof.
  induction d as [|item d IH]; simpl; intros Hnd; [constructor|].
  inversion Hnd as [|? ? Hnin Hnd']; subst.
  destruct (unmatched_of_cases fd item) as [-> | ->]; simpl; [now apply IH|].
  constructor; [|now apply IH].
  intros H. apply in_flat_map in H. destruct H as (j & Hj & H).
  destruct (unmatched_of_cases fd j) as [E|E]; rewrite E in H; [destruct H|].
  destruct H as [H|[]]. apply Hnin. rewrite <- H. now apply in_map.
Qed.

Section CorrelationExample.

Variables to_blocks from_blocks : list ASTBlock.

Local Abbreviation to_dict := (blocks_dict to_blocks).
Local Abbreviation from_dict := (blocks_dict from_blocks).

Hypothesis Hto : forall z, In z (map block_id to_blocks) <-> In z [0; 1; 2]%Z.
Hypothesis Hfrom :
  forall z, In z (map block_id from_blocks) <-> In z [1; 2; 4]%Z.
Hypothesis Hja :
  forall b, In b to_blocks -> extract_ja_section (content b) <> None.
Hypothesis Hen :
  forall b, In b from_blocks -> extract_en_section (content b) <> None.

Lemma example_to_keys (z : Z) :
  In z (Dict.keys to_dict) <-> (z = 0 \/ z = 1 \/ z = 2)%Z.
Proof. rewrite blocks_dict_keys, Hto. simpl. intuition. Qed.

Lemma example_from_keys (z : Z) :
  In z (Dict.keys from_dict) <-> (z = 1 \/ z = 2 \/ z = 4)%Z.
Proof. rewrite blocks_dict_keys, Hfrom. simpl. intuition. Qed.

Lemma example_item (k : Z) (b : ASTBlock) :
  In (k, b) to_dict ->
  In b to_blocks /\ Dict.get Z.eqb k to_dict = Some b /\
  (k = 0 \/ k = 1 \/ k = 2)%Z.
Proof.
  intros H. split; [exact (proj1 (blocks_dict_In _ _ H))|]. split.
  - apply (In_get _ _ Z.eqb Z_eqb_spec); [apply blocks_dict_NoDup|exact H].
  - apply example_to_keys. change k with (fst (k, b)). now apply in_map.
Qed.

Lemma example_unmatched_of (k : Z) (b : ASTBlock) :
  In (k, b) to_dict ->
  unmatched_of from_dict (k, b) = if (k =? 2)%Z then [k] else [].
Proof.
  intros H. destruct (example_item _ _ H) as (Hb & _ & Hk).
  unfold unmatched_of. cbn [fst snd].
  destruct (Dict.get Z.eqb (k + 1)%Z from_dict) as [fb|] eqn:E.
  - destruct (blocks_dict_get _ _ _ E) as [Hfb Hid].
    assert (Hkey : In (k + 1)%Z (Dict.keys from_dict)).
    { apply (get_In _ _ Z.eqb Z_eqb_spec) in E.
      change (k + 1)%Z with (fst ((k + 1)%Z, fb)). now apply in_map. }
    apply example_from_keys in Hkey.
    assert (Hk2 : (k =? 2)%Z = false) by (apply Z.eqb_neq; lia).
    rewrite Hk2.
    destruct (extract_en_section (content fb)) eqn:E1; [|reflexivity].
    destruct (extract_ja_section (content b)) eqn:E2; [reflexivity|].
    now contradiction (Hja b Hb).
  - apply (get_None _ _ Z.eqb Z_eqb_spec) in E.
    rewrite example_from_keys in E.
    assert (Hk2 : (k =? 2)%Z = true) by (apply Z.eqb_eq; lia).
    now rewrite Hk2.
Qed.

Lemma example_unmatched_to : flat_map (unmatched_of from_dict) to_dict = [2%Z].
Proof.
  apply NoDup_singleton.
  - apply unmatched_NoDup, blocks_dict_NoDup.
  - intros z. rewrite in_flat_map. split.
    + intros ([k b] & Hi & Hz). rewrite (example_unmatched_of _ _ Hi) in Hz.
      destruct (Z.eqb_spec k 2) as [->|]; [|destruct Hz].
      now destruct Hz as [<-|[]].
    + intros ->.
      destruct (get_of_key to_dict 2%Z) as [b Hb];
        [apply example_to_keys; auto|].
      apply (get_In _ _ Z.eqb Z_eqb_spec) in Hb.
      exists (2%Z, b). split; [assumption|].
      rewrite (example_unmatched_of _ _ Hb). now left.
Qed.

Lemma example_unmatched_from : unmatched_from_of to_dict from_dict = [4%Z].
Proof.
  apply NoDup_singleton.
  - apply NoDup_filter, blocks_dict_NoDup.
  - intros z. unfold unmatched_from_of.
    rewrite filter_In, example_from_keys, negb_true_iff.
    split.
    + intros [Hz Hm].
      assert (~ In (z - 1)%Z (Dict.keys to_dict)).
      { intros H. apply mem_keys in H. congruence. }
      rewrite example_to_keys in H. lia.
    + intros ->. split; [auto|].
      destruct (Dict.mem Z.eqb (4 - 1)%Z to_dict) eqn:E; [|reflexivity].
      apply mem_keys, example_to_keys in E. lia.
Qed.

End CorrelationExample.

(** C5. With target blocks of ids exactly 0, 1, 2 and source blocks of ids
    exactly 1, 2, 4, every block holding its subsection, the correlation
    pairs target 0 with source 1 and target 1 with source 2: the
    replacements are the two edits of these pairs and no other; the only
    unmatched target id is 2 and the only unmatched source id is 4. *)
Theorem correlation_by_offset (decimal : char -> option Z)
    (max_digits : nat) (target source : Buffer)
    (to_blocks from_blocks : list ASTBlock) :
  extract_blocks_to decimal max_digits target = Blocks to_blocks ->
  extract_blocks_from decimal max_digits source = Blocks from_blocks ->
  (forall z, In z (map block_id to_blocks) <-> In z [0; 1; 2]%Z) ->
  (forall z, In z (map block_id from_blocks) <-> In z [1; 2; 4]%Z) ->
  (forall b, In b to_blocks -> extract_ja_section (content b) <> None) ->
  (forall b, In b from_blocks -> extract_en_section (content b) <> None) ->
  exists t0 t1 f1 f2 a0 b0 j0 a1 b1 j1 en1 en2 replacements,
    Dict.get Z.eqb 0%Z (blocks_dict to_blocks) = Some t0 /\
    Dict.get Z.eqb 1%Z (blocks_dict to_blocks) = Some t1 /\
    Dict.get Z.eqb 1%Z (blocks_dict from_blocks) = Some f1 /\
    Dict.get Z.eqb 2%Z (blocks_dict from_blocks) = Some f2 /\
    extract_ja_section (content t0) = Some (a0, b0, j0) /\
    extract_ja_section (content t1) = Some (a1, b1, j1) /\
    extract_en_section (content f1) = Some en1 /\
    extract_en_section (content f2) = Some en2 /\
    correlate to_blocks from_blocks = (replacements, [2%Z], [4%Z]) /\
    Permutation replacements
      [(start t0 + a0, (start t0 + b0, en1));
       (start t1 + a1, (start t1 + b1, en2))].
Proof.
  intros Hlocated_to Hlocated_from Hto Hfrom Hja Hen.
  set (td := blocks_dict to_blocks). set (fd := blocks_dict from_blocks).
  pose proof (example_to_keys to_blocks Hto) as Ktd.
  pose proof (example_from_keys from_blocks Hfrom) as Kfd.
  fold td in Ktd. fold fd in Kfd.
  destruct (get_of_key td 0%Z) as [t0 G0]; [apply Ktd; auto|].
  destruct (get_of_key td 1%Z) as [t1 G1]; [apply Ktd; auto|].
  destruct (get_of_key fd 1%Z) as [f1 F1]; [apply Kfd; auto|].
  destruct (get_of_key fd 2%Z) as [f2 F2]; [apply Kfd; auto|].
  destruct (blocks_dict_get _ _ _ G0) as [T0 _].
  destruct (blocks_dict_get _ _ _ G1) as [T1 _].
  destruct (blocks_dict_get _ _ _ F1) as [S1 _].
  destruct (blocks_dict_get _ _ _ F2) as [S2 _].
  destruct (extract_ja_section (content t0)) as [[[a0 b0] j0]|] eqn:J0;
    [|now contradiction (Hja t0 T0)].
  destruct (extract_ja_section (content t1)) as [[[a1 b1] j1]|] eqn:J1;
    [|now contradiction (Hja t1 T1)].
  destruct (extract_en_section (content f1)) as [en1|] eqn:E1;
    [|now contradiction (Hen f1 S1)].
  destruct (extract_en_section (content f2)) as [en2|] eqn:E2;
    [|now contradiction (Hen f2 S2)].
  exists t0, t1, f1, f2, a0, b0, j0, a1, b1, j1, en1, en2,
    (flat_map (edit_of fd) td).
  split; [exact G0|]. split; [exact G1|].
  split; [exact F1|]. split; [exact F2|].
  split; [exact J0|]. split; [exact J1|].
  split; [exact E1|]. split; [exact E2|].
  pose proof (laid_out_sorted _ _ _
                (extract_blocks_to_laid_out decimal max_digits target
                   to_blocks Hlocated_to)) as Hsorted.
  pose proof (laid_out_each _ _ _
                (extract_blocks_to_laid_out decimal max_digits target
                   to_blocks Hlocated_to)) as Hblocks.
  assert (I0 : In (0%Z, t0) td) by now apply (get_In _ _ Z.eqb Z_eqb_spec).
  assert (I1 : In (1%Z, t1) td) by now apply (get_In _ _ Z.eqb Z_eqb_spec).
  assert (X0 : In (start t0 + a0, (start t0 + b0, en1)) (edit_of fd (0%Z, t0)))
    by (apply edit_of_In; now exists f1, a0, b0, j0).
  assert (X1 : In (start t1 + a1, (start t1 + b1, en2)) (edit_of fd (1%Z, t1)))
    by (apply edit_of_In; now exists f2, a1, b1, j1).
  split.
  - unfold td, fd.
    rewrite (correlate_located decimal max_digits target to_blocks
               from_blocks Hlocated_to).
    rewrite (example_unmatched_to to_blocks from_blocks Hto Hfrom Hja).
    rewrite (example_unmatched_from to_blocks from_blocks Hto Hfrom).
    reflexivity.
  - apply NoDup_Permutation.
    + apply (NoDup_map_inv fst).
      exact (located_edits_NoDup_keys target to_blocks fd Hsorted Hblocks).
    + constructor; [|repeat constructor; now intros []].
      intros [H|[]].
      destruct (edit_of_within target to_blocks fd Hblocks _ _ I0 X0)
        as (P1 & P2 & P3).
      destruct (edit_of_within target to_blocks fd Hblocks _ _ I1 X1)
        as (Q1 & Q2 & Q3).
      injection H as Hs He _. cbn [fst snd] in *.
      destruct (items_disjoint to_blocks Hsorted _ _ I0 I1) as [D|[D|D]];
        [discriminate|cbn [snd] in D; lia|cbn [snd] in D; lia].
    + intros [s [e r]]. rewrite in_flat_map. split.
      * intros ([k b] & Hi & Hx).
        destruct (example_item to_blocks Hto _ _ Hi) as (_ & Gk & Hk).
        fold td in Gk.
        apply edit_of_In in Hx.
        destruct Hx as (fb & a & b' & ja & Gf & Hj & He & -> & ->).
        destruct Hk as [-> | [-> | ->]].
        -- left. cbn in Gf. congruence.
        -- right; left. cbn in Gf. congruence.
        -- cbn in Gf. apply (get_In _ _ Z.eqb Z_eqb_spec) in Gf.
           assert (H3 : In 3%Z (Dict.keys fd))
             by (change 3%Z with (fst (3%Z, fb)); now apply in_map).
           apply Kfd in H3. lia.
      * intros [<-|[<-|[]]].
        -- now exists (0%Z, t0).
        -- now exists (1%Z, t1).
Qed.

Lemma correlation_by_offset_witness :
  let to_blocks :=
    blocks_of (extract_blocks_to ascii_decimal default_max_str_digits
                 sample_target_012) in
  let from_blocks :=
    blocks_of (extract_blocks_from ascii_decimal default_max_str_digits
                 sample_source_124) in
  exists t0 t1 f1 f2 a0 b0 j0 a1 b1 j1 en1 en2 replacements,
    Dict.get Z.eqb 0%Z (blocks_dict to_blocks) = Some t0 /\
    Dict.get Z.eqb 1%Z (blocks_dict to_blocks) = Some t1 /\
    Dict.get Z.eqb 1%Z (blocks_dict from_blocks) = Some f1 /\
    Dict.get Z.eqb 2%Z (blocks_dict from_blocks) = Some f2 /\
    extract_ja_section (content t0) = Some (a0, b0, j0) /\
    extract_ja_section (content t1) = Some (a1, b1, j1) /\
    extract_en_section (content f1) = Some en1 /\
    extract_en_section (content f2) = Some en2 /\
    correlate to_blocks from_blocks = (replacements, [2%Z], [4%Z]) /\
    Permutation replacements
      [(start t0 + a0, (start t0 + b0, en1));
       (start t1 + a1, (start t1 + b1, en2))].
Proof.
  intros to_blocks from_blocks.
  apply (correlation_by_offset ascii_decimal default_max_str_digits
           sample_target_012 sample_source_124 to_blocks from_blocks).
  - vm_compute. reflexivity.
  - vm_compute. reflexivity.
  - intros z.
    replace (map block_id to_blocks)
      with [0; 1; 2]%Z by (vm_compute; reflexivity).
    reflexivity.
  - intros z.
    replace (map block_id from_blocks)
      with [1; 2; 4]%Z by (vm_compute; reflexivity).
    reflexivity.
  - intros b Hb. vm_compute in Hb.
    destruct Hb as [<-|[<-|[<-|[]]]]; vm_compute; discriminate.
  - intros b Hb. vm_compute in Hb.
    destruct Hb as [<-|[<-|[<-|[]]]]; vm_compute; discriminate.
Defined.

(** ** Headers do not overlap *)

(** Every character of a match satisfies one of the classes of the pattern. *)
Lemma match_classes (pat : pattern) (s : Buffer) (ls : list nat) (j : nat) :
  simple pat -> match_here pat s = Some ls -> j < list_sum ls ->
  exists c p, nth_error s j = Some c /\ In p (classes pat) /\ p c = true.
Proof.
  revert s ls j; induction pat as [|a pat IH]; intros s ls j Hsimple Hm Hj.
  - simpl in Hm. injection Hm as <-. simpl in Hj. lia.
  - assert (Hrun : forall p n ls',
      a = One p \/ a = Star p \/ a = Plus p \/ a = Lazy p ->
      simple pat ->
      Forall (holds p) (firstn n s) -> n <= length s ->
      match_here pat (skipn n s) = Some ls' -> j < n + list_sum ls' ->
      exists c q, nth_error s j = Some c /\ In q (classes (a :: pat))
                  /\ q c = true).
    { intros p n ls' Ha Hs Hall Hn Hrest Hjn.
      assert (Hcl : classes (a :: pat) = p :: classes pat)
        by (destruct Ha as [->|[->|[->| ->]]]; reflexivity).
      rewrite Hcl.
      destruct (Nat.lt_ge_cases j n) as [Hlt|Hge].
      - destruct (nth_error s j) as [c|] eqn:E.
        + exists c, p. split; [reflexivity|]. split; [now left|].
          rewrite Forall_forall in Hall. apply Hall.
          apply nth_error_In with (n := j).
          rewrite nth_error_firstn.
          apply Nat.ltb_lt in Hlt. now rewrite Hlt.
        + apply nth_error_None in E. lia.
      - destruct (IH (skipn n s) ls' (j - n) Hs Hrest ltac:(lia))
          as (c & q & H1 & H2 & H3).
        exists c, q. rewrite nth_error_skipn in H1.
        replace (n + (j - n)) with j in H1 by lia.
        split; [assumption|]. split; [now right|assumption]. }
    destruct a as [p|p|p|p|alts]; [| | | |destruct Hsimple].
    + apply match_here_One in Hm.
      destruct Hm as (c & s' & ls' & -> & Hp & Hm & ->).
      apply (Hrun p 1 ls'); auto.
      * cbn [firstn]. constructor; [exact Hp|constructor].
      * simpl. lia.
    + apply match_here_Star in Hm.
      destruct Hm as (n & ls' & -> & Hn & Hall & Hm).
      apply (Hrun p n ls'); auto.
    + simpl in Hm. destruct s as [|c s']; [discriminate|].
      destruct (p c) eqn:Hp; [|discriminate].
      destruct (greedy p (match_here pat) s') as [[n ls']|] eqn:G;
        simpl in Hm; [|discriminate].
      injection Hm as <-. destruct (greedy_sound _ _ _ _ _ G) as (Hn & Hall & Hm).
      apply (Hrun p (S n) ls'); auto.
      * cbn [firstn]. constructor; assumption.
      * simpl. lia.
    + simpl in Hm.
      destruct (lazy p (match_here pat) s) as [[n ls']|] eqn:G;
        simpl in Hm; [|discriminate].
      injection Hm as <-. destruct (lazy_sound _ _ _ _ _ G) as (Hn & Hall & Hm & _).
      apply (Hrun p n ls'); auto.
Qed.

(** When no class after the first atom admits a character of the first
    atom, no match of the pattern begins inside another one. *)
Lemma no_match_inside (p0 : char -> bool) (pat : pattern) (s : Buffer)
    (ls : list nat) (j : nat) :
  simple pat ->
  (forall q c, In q (classes pat) -> p0 c = true -> q c = false) ->
  match_here (One p0 :: pat) s = Some ls ->
  0 < j < list_sum ls ->
  match_here (One p0 :: pat) (skipn j s) = None.
Proof.
  intros Hsimple Hex Hm Hj.
  apply match_here_One in Hm. destruct Hm as (c & s' & ls' & -> & _ & Hm & ->).
  destruct j as [|j]; [lia|]. cbn [skipn].
  destruct (match_classes pat s' ls' j Hsimple Hm ltac:(simpl in Hj; lia))
    as (cj & q & Hnth & Hq & Hqc).
  destruct (skipn j s') as [|x t] eqn:E.
  - reflexivity.
  - assert (x = cj).
    { pose proof (nth_error_skipn j s' 0) as H. rewrite E in H.
      rewrite Nat.add_0_r in H. simpl in H. congruence. }
    subst x. apply match_here_One_fails.
    destruct (p0 cj) eqn:E0; [|reflexivity].
    rewrite (Hex q cj Hq E0) in Hqc. discriminate.
Qed.

Lemma ci_b_cases (c : char) : ci "b" c = true -> c = 98%N \/ c = 66%N.
Proof.
  intros H. apply ci_cases in H. change (chr "b") with 98%N in H.
  destruct H as [H|[H|[[H _]|[[H _]|[H _]]]]]; try discriminate; auto.
Qed.

Section HeadersApart.

Variable decimal : char -> option Z.
Hypothesis Hdigits : digits_apart decimal.

Lemma to_header_apart (s : Buffer) (ls : list nat) (j : nat) :
  match_here (block_pattern_to decimal) s = Some ls ->
  0 < j < list_sum ls ->
  match_here (block_pattern_to decimal) (skipn j s) = None.
Proof.
  unfold block_pattern_to, header_tail. cbn [app].
  apply no_match_inside; [exact I|].
  destruct Hdigits as (D1 & D2 & _).
  intros q c Hq Hc. apply ci_b_cases in Hc.
  cbn [classes In] in Hq.
  destruct Hc; subst c;
    repeat (destruct Hq as [<-|Hq]; [try reflexivity|]);
    try contradiction; unfold is_digit; now rewrite ?D1, ?D2.
Qed.

Lemma from_header_apart (s : Buffer) (ls : list nat) (j : nat) :
  match_here (block_pattern_from decimal) s = Some ls ->
  0 < j < list_sum ls ->
  match_here (block_pattern_from decimal) (skipn j s) = None.
Proof.
  unfold block_pattern_from, header_tail. cbn [app].
  apply no_match_inside; [exact I|].
  destruct Hdigits as (_ & _ & D3).
  intros q c Hq Hc. apply N.eqb_eq in Hc.
  change (chr "[") with 91%N in Hc. subst c.
  cbn [classes In] in Hq.
  repeat (destruct Hq as [<-|Hq]; [try reflexivity|]);
    try contradiction; unfold is_digit; now rewrite ?D3.
Qed.

End HeadersApart.

(** ** What the locators find *)

Lemma int_None (decimal : char -> option Z) (max_digits : nat)
    (digits : Buffer) :
  int decimal max_digits digits = None
  <-> 0 < max_digits /\ max_digits < length digits.
Proof.
  unfold int.
  destruct (0 <? max_digits) eqn:E1; destruct (max_digits <? length digits) eqn:E2;
    cbn [andb]; rewrite ?Nat.ltb_lt, ?Nat.ltb_ge in *;
    (split; [try discriminate; intros _; lia|]); try reflexivity;
    intros [H1 H2]; lia.
Qed.

Section LocatorClaims.

Variable decimal : char -> option Z.
Variable max_digits : nat.
Variable pat : pattern.
Variable gid : nat.
Variable buf : Buffer.
Hypothesis Hpat : starts_with_One pat.

Lemma laid_out_ordered (pos : nat) (bs : list ASTBlock) :
  laid_out buf pos bs ->
  StronglySorted (fun b1 b2 => start b1 < start b2 /\ end_ b1 <= start b2) bs.
Proof.
  revert pos; induction bs as [|b bs IH]; intros pos; simpl; [constructor|].
  intros (H1 & H2 & H3 & H4 & H5). constructor; [exact (IH _ H5)|].
  eapply Forall_impl; [|exact (laid_out_after _ _ _ H5)].
  simpl. intros; lia.
Qed.

Lemma scan_ordered (bs : list ASTBlock) :
  scan decimal max_digits pat gid buf 0 = Blocks bs ->
  StronglySorted
    (fun b1 b2 => start b1 < start b2 /\ end_ b1 <= start b2) bs.
Proof.
  intros H. apply (laid_out_ordered 0).
  exact (extract_blocks_loop_laid_out decimal max_digits pat gid buf Hpat
           (length buf) 0 bs H).
Qed.

Lemma scan_skips_broken_headers (bs : list ASTBlock) :
  scan decimal max_digits pat gid buf 0 = Blocks bs ->
  skips_broken_headers pat buf bs.
Proof.
  intros H p ls [Hp Hm] Hnone b Hb Heq.
  pose proof (extract_blocks_loop_headers decimal max_digits pat gid buf Hpat
                (length buf) 0 bs H) as Hh.
  rewrite Forall_forall in Hh.
  destruct (Hh b Hb) as (ls' & [_ Hm'] & Hsome & _).
  rewrite Heq in Hm', Hsome. congruence.
Qed.

Lemma scan_resumes :
  resumes_past_broken_headers decimal max_digits pat gid buf.
Proof.
  intros pos m Hpos Hs Hid Hnone.
  rewrite (scan_step decimal max_digits pat gid buf Hpat pos).
  apply Nat.ltb_lt in Hpos. rewrite Hpos, Hs.
  destruct (int decimal max_digits (group (skipn pos buf) m gid (S gid)));
    [|now contradiction Hid].
  now rewrite Hnone.
Qed.

Lemma scan_stops : stops_at_long_id decimal max_digits pat gid buf.
Proof.
  intros pos m Hpos Hs Hid.
  rewrite (scan_step decimal max_digits pat gid buf Hpat pos).
  apply Nat.ltb_lt in Hpos. now rewrite Hpos, Hs, Hid.
Qed.

Lemma scan_returns :
  ids_within_limit decimal max_digits pat gid buf ->
  exists bs, scan decimal max_digits pat gid buf 0 = Blocks bs.
Proof.
  exact (extract_blocks_loop_returns decimal max_digits pat gid buf Hpat
           (length buf) 0).
Qed.

Lemma scan_raises (digits : Buffer) :
  scan decimal max_digits pat gid buf 0 = IntRaises digits ->
  exists p ls,
    header_at pat buf p ls /\ digits = header_digits gid buf p ls /\
    0 < max_digits /\ max_digits < length digits.
Proof.
  intros H.
  destruct (extract_blocks_loop_raises decimal max_digits pat gid buf Hpat
              (length buf) 0 digits H) as (p & ls & _ & Hh & Hd & Hint).
  apply int_None in Hint. now exists p, ls.
Qed.

Hypothesis Hapart :
  forall s ls j,
    match_here pat s = Some ls -> 0 < j < list_sum ls ->
    match_here pat (skipn j s) = None.

Lemma scan_finds_matched_headers (bs : list ASTBlock) :
  scan decimal max_digits pat gid buf 0 = Blocks bs ->
  finds_matched_headers pat buf bs.
Proof.
  intros H p ls e Hh Hb.
  destruct (extract_blocks_loop_covers decimal max_digits pat gid buf Hpat
              (length buf) 0 p e ls ltac:(lia) ltac:(lia) Hh Hb bs H)
    as [H'|[H'|(q & ls' & Hq & Hin & [_ Hm'] & _)]];
    [now left|now right|].
  exfalso. destruct Hh as [_ Hm].
  pose proof (Hapart _ _ (p - q) Hm' ltac:(lia)) as Hnone.
  rewrite skipn_skipn in Hnone.
  replace (p - q + q) with p in Hnone by lia. congruence.
Qed.

End LocatorClaims.

(** C7, as the code has it. The id of a header is converted before its
    brace is looked at, and [int] raises on a run of more digits than the
    limit of the runtime: the locator then raises and returns no block at
    all, whatever follows. When no header of the buffer has such an id the
    locator returns; and whenever it returns, the blocks lie in the buffer
    one after the other, each non-empty and ending before the next begins,
    so they are pairwise disjoint and strictly ordered by start; a header
    whose brace is not matched gives no block; every header whose brace is
    matched is located, unless it lies inside a located block. The scan
    goes on just past a header whose id is converted and whose brace is not
    matched. So, with blocks 0, 1, 2 and an unclosed header [block_9] after
    block 0, the blocks found are 0, 1 and 2. *)
Theorem blocks_ordered_and_scan_resumes (decimal : char -> option Z)
    (max_digits : nat) (buffer : Buffer) :
  (forall digits,
     int decimal max_digits digits = None
     <-> 0 < max_digits /\ max_digits < length digits) /\
  ((ids_within_limit decimal max_digits (block_pattern_to decimal) 6 buffer ->
    exists blocks, extract_blocks_to decimal max_digits buffer = Blocks blocks) /\
   (forall blocks,
      extract_blocks_to decimal max_digits buffer = Blocks blocks ->
      laid_out buffer 0 blocks /\
      StronglySorted
        (fun b1 b2 => start b1 < start b2 /\ end_ b1 <= start b2) blocks /\
      skips_broken_headers (block_pattern_to decimal) buffer blocks /\
      (digits_apart decimal ->
       finds_matched_headers (block_pattern_to decimal) buffer blocks)) /\
   resumes_past_broken_headers decimal max_digits (block_pattern_to decimal)
     6 buffer /\
   stops_at_long_id decimal max_digits (block_pattern_to decimal) 6 buffer /\
   (forall digits,
      extract_blocks_to decimal max_digits buffer = IntRaises digits ->
      exists p ls,
        header_at (block_pattern_to decimal) buffer p ls /\
        digits = header_digits 6 buffer p ls /\
        0 < max_digits /\ max_digits < length digits)) /\
  ((ids_within_limit decimal max_digits (block_pattern_from decimal) 4
      buffer ->
    exists blocks,
      extract_blocks_from decimal max_digits buffer = Blocks blocks) /\
   (forall blocks,
      extract_blocks_from decimal max_digits buffer = Blocks blocks ->
      laid_out buffer 0 blocks /\
      StronglySorted
        (fun b1 b2 => start b1 < start b2 /\ end_ b1 <= start b2) blocks /\
      skips_broken_headers (block_pattern_from decimal) buffer blocks /\
      (digits_apart decimal ->
       finds_matched_headers (block_pattern_from decimal) buffer blocks)) /\
   resumes_past_broken_headers decimal max_digits
     (block_pattern_from decimal) 4 buffer /\
   stops_at_long_id decimal max_digits (block_pattern_from decimal) 4
     buffer /\
   (forall digits,
      extract_blocks_from decimal max_digits buffer = IntRaises digits ->
      exists p ls,
        header_at (block_pattern_from decimal) buffer p ls /\
        digits = header_digits 4 buffer p ls /\
        0 < max_digits /\ max_digits < length digits)) /\
  extract_blocks_to ascii_decimal default_max_str_digits sample_broken
  = Blocks
      (blocks_of
         (extract_blocks_to ascii_decimal default_max_str_digits
            sample_broken)) /\
  map (fun b => (start b, end_ b, block_id b))
    (blocks_of
       (extract_blocks_to ascii_decimal default_max_str_digits sample_broken))
  = [(0, 15, 0%Z); (28, 43, 1%Z); (44, 59, 2%Z)].
Proof.
  split; [apply int_None|].
  split; [|split; [|split; reflexivity]].
  - split; [exact (scan_returns decimal max_digits (block_pattern_to decimal)
                     6 buffer I)|].
    split; [|split; [|split]].
    + intros blocks H.
      split; [exact (extract_blocks_to_laid_out decimal max_digits buffer
                       blocks H)|].
      split; [exact (scan_ordered decimal max_digits
                       (block_pattern_to decimal) 6 buffer I blocks H)|].
      split; [exact (scan_skips_broken_headers decimal max_digits
                       (block_pattern_to decimal) 6 buffer I blocks H)|].
      intros Hd.
      exact (scan_finds_matched_headers decimal max_digits
               (block_pattern_to decimal) 6 buffer I
               (to_header_apart decimal Hd) blocks H).
    + exact (scan_resumes decimal max_digits (block_pattern_to decimal) 6
               buffer I).
    + exact (scan_stops decimal max_digits (block_pattern_to decimal) 6
               buffer I).
    + exact (scan_raises decimal max_digits (block_pattern_to decimal) 6
               buffer I).
  - split; [exact (scan_returns decimal max_digits
                     (block_pattern_from decimal) 4 buffer I)|].
    split; [|split; [|split]].
    + intros blocks H.
      split; [exact (extract_blocks_from_laid_out decimal max_digits buffer
                       blocks H)|].
      split; [exact (scan_ordered decimal max_digits
                       (block_pattern_from decimal) 4 buffer I blocks H)|].
      split; [exact (scan_skips_broken_headers decimal max_digits
                       (block_pattern_from decimal) 4 buffer I blocks H)|].
      intros Hd.
      exact (scan_finds_matched_headers decimal max_digits
               (block_pattern_from decimal) 4 buffer I
               (from_header_apart decimal Hd) blocks H).
    + exact (scan_resumes decimal max_digits (block_pattern_from decimal) 4
               buffer I).
    + exact (scan_stops decimal max_digits (block_pattern_from decimal) 4
               buffer I).
    + exact (scan_raises decimal max_digits (block_pattern_from decimal) 4
               buffer I).
Qed.

Lemma blocks_ordered_and_scan_resumes_witness :
  finds_matched_headers (block_pattern_to ascii_decimal) sample_broken
    (blocks_of
       (extract_blocks_to ascii_decimal default_max_str_digits
          sample_broken)).
Proof.
  refine (proj2 (proj2 (proj2
            (proj1 (proj2 (proj1 (proj2
               (blocks_ordered_and_scan_resumes ascii_decimal
                  default_max_str_digits sample_broken)))) _ _))) _).
  - vm_compute. reflexivity.
  - repeat split; reflexivity.
Defined.

(** The claim as it was written fails on a header whose id has 4301 digits
    under the default limit of 4300: its brace is not matched, a well-formed
    block follows it, and the locator raises instead of going on to that
    block, so it returns no sequence of blocks. *)
Lemma long_id_stops_the_scan :
  header_at (block_pattern_to ascii_decimal) sample_long_id 0
    [1; 1; 1; 1; 1; 1; 4301; 1; 1; 1; 1] /\
  find_matching_brace sample_long_id
    (brace_of 0 [1; 1; 1; 1; 1; 1; 4301; 1; 1; 1; 1]) = None /\
  header_at (block_pattern_to ascii_decimal) sample_long_id 4312
    [1; 1; 1; 1; 1; 1; 1; 1; 1; 1; 1] /\
  find_matching_brace sample_long_id
    (brace_of 4312 [1; 1; 1; 1; 1; 1; 1; 1; 1; 1; 1]) = Some 4327 /\
  extract_blocks_to ascii_decimal default_max_str_digits sample_long_id
  = IntRaises (repeat (chr "1") 4301) /\
  ~ (exists blocks,
       extract_blocks_to ascii_decimal default_max_str_digits sample_long_id
       = Blocks blocks).
Proof.
  assert (H : extract_blocks_to ascii_decimal default_max_str_digits
                sample_long_id
              = IntRaises (repeat (chr "1") 4301))
    by (vm_compute; reflexivity).
  split; [split; [vm_compute; lia|vm_compute; reflexivity]|].
  split; [vm_compute; reflexivity|].
  split; [split; [vm_compute; lia|vm_compute; reflexivity]|].
  split; [vm_compute; reflexivity|].
  split; [exact H|].
  intros [blocks Hb]. rewrite H in Hb. discriminate.
Qed.

(** ** The delimiter matcher on a part of the buffer *)

Lemma find_matching_brace_Some (text : Buffer) (open_index e : nat) :
  find_matching_brace text open_index = Some e ->
  open_index < e <= length text /\
  nth_error text open_index = Some lbrace /\
  nth_error text (e - 1) = Some rbrace /\
  depth_at text open_index e = 0%Z /\
  forall j, open_index < j < e -> (0 < depth_at text open_index j)%Z.
Proof.
  unfold find_matching_brace.
  destruct ((length text <=? open_index)
            || negb (is_at text open_index lbrace)) eqn:G; [discriminate|].
  assert (Hopen : nth_error text open_index = Some lbrace)
    by now apply find_matching_brace_guard_false.
  assert (Hlt : open_index < length text)
    by (apply nth_error_Some; congruence).
  destruct (find_matching_brace_run text open_index Hlt)
    as (i & d & Hrun & Hi & Hd & _ & Hpos & Hz & _).
  rewrite Hrun. destruct (d =? 0)%Z eqn:E; [|discriminate].
  apply Z.eqb_eq in E. intros [= <-]. destruct (Hz E) as [Hr _].
  repeat split; try lia; assumption.
Qed.

Lemma weight_agree (t1 t2 : Buffer) (k1 k2 j : nat) :
  1 <= j ->
  nth_error t2 (k2 + (j - 1)) = nth_error t1 (k1 + (j - 1)) ->
  nth_error t2 (k2 + j) = nth_error t1 (k1 + j) ->
  weight t2 (k2 + j) = weight t1 (k1 + j).
Proof.
  intros Hj Hprev Hcur. unfold weight, escaped, is_at.
  replace (k2 + j - 1) with (k2 + (j - 1)) by lia.
  replace (k1 + j - 1) with (k1 + (j - 1)) by lia.
  rewrite Hprev, Hcur.
  assert (E1 : (0 <? k1 + j) = true) by (apply Nat.ltb_lt; lia).
  assert (E2 : (0 <? k2 + j) = true) by (apply Nat.ltb_lt; lia).
  now rewrite E1, E2.
Qed.

Lemma wsum_agree (t1 t2 : Buffer) (k1 k2 n : nat) :
  (forall j, j <= n -> nth_error t2 (k2 + j) = nth_error t1 (k1 + j)) ->
  wsum t2 (k2 + 1) n = wsum t1 (k1 + 1) n.
Proof.
  induction n as [|n IH]; intros Hag; [reflexivity|].
  rewrite !wsum_snoc, IH by (intros; apply Hag; lia).
  f_equal.
  replace (k2 + 1 + n) with (k2 + (n + 1)) by lia.
  replace (k1 + 1 + n) with (k1 + (n + 1)) by lia.
  apply weight_agree; [lia| |apply Hag; lia].
  replace (n + 1 - 1) with n by lia. apply Hag. lia.
Qed.

Lemma find_matching_brace_agree (t1 t2 : Buffer) (k1 k2 e1 : nat) :
  find_matching_brace t1 k1 = Some e1 ->
  (forall j, j < e1 - k1 -> nth_error t2 (k2 + j) = nth_error t1 (k1 + j)) ->
  find_matching_brace t2 k2 = Some (k2 + (e1 - k1)).
Proof.
  intros H1 Hag.
  destruct (find_matching_brace_Some _ _ _ H1)
    as (Hb1 & Ho1 & _ & Hz1 & Hp1).
  assert (Ho2 : nth_error t2 k2 = Some lbrace).
  { rewrite <- Ho1. specialize (Hag 0 ltac:(lia)).
    now rewrite !Nat.add_0_r in Hag. }
  assert (Hlen2 : k2 + (e1 - k1) <= length t2).
  { specialize (Hag (e1 - k1 - 1) ltac:(lia)).
    assert (Hs : nth_error t1 (k1 + (e1 - k1 - 1)) <> None)
      by (apply nth_error_Some; lia).
    rewrite <- Hag in Hs. apply nth_error_Some in Hs. lia. }
  assert (Hdepth : forall m, m < e1 - k1 ->
            depth_at t2 k2 (k2 + 1 + m) = depth_at t1 k1 (k1 + 1 + m)).
  { intros m Hm. unfold depth_at.
    replace (k2 + 1 + m - (k2 + 1)) with m by lia.
    replace (k1 + 1 + m - (k1 + 1)) with m by lia.
    f_equal. destruct (Nat.eq_dec m (e1 - k1 - 1)) as [->|Hne].
    - destruct (e1 - k1 - 1) as [|n] eqn:E; [reflexivity|].
      rewrite !wsum_snoc. f_equal.
      + apply wsum_agree. intros; apply Hag; lia.
      + replace (k2 + 1 + n) with (k2 + (n + 1)) by lia.
        replace (k1 + 1 + n) with (k1 + (n + 1)) by lia.
        apply weight_agree; [lia| |apply Hag; lia].
        replace (n + 1 - 1) with n by lia. apply Hag. lia.
    - apply wsum_agree. intros; apply Hag; lia. }
  unfold find_matching_brace.
  assert (G : (length t2 <=? k2) || negb (is_at t2 k2 lbrace) = false).
  { apply orb_false_iff. split.
    - apply Nat.leb_gt. apply nth_error_Some. congruence.
    - apply negb_false_iff. now apply is_at_true. }
  rewrite G.
  assert (Hlt : k2 < length t2) by (apply nth_error_Some; congruence).
  destruct (find_matching_brace_run t2 k2 Hlt)
    as (i2 & d2 & Hrun & Hi2 & Hd2 & Hd0 & Hp2 & _ & Hend).
  rewrite Hrun.
  assert (Hi : i2 = k2 + (e1 - k1)).
  { destruct (Nat.lt_trichotomy i2 (k2 + (e1 - k1))) as [Hlt'|[Heq|Hgt]];
      [|assumption|].
    - exfalso.
      assert (Hpos : (0 < d2)%Z).
      { rewrite Hd2.
        replace i2 with (k2 + 1 + (i2 - k2 - 1)) by lia.
        rewrite Hdepth by lia. apply Hp1. lia. }
      specialize (Hend Hpos). lia.
    - exfalso.
      specialize (Hp2 (k2 + (e1 - k1)) ltac:(lia)).
      replace (k2 + (e1 - k1)) with (k2 + 1 + (e1 - k1 - 1)) in Hp2 by lia.
      rewrite Hdepth in Hp2 by lia.
      replace (k1 + 1 + (e1 - k1 - 1)) with e1 in Hp2 by lia. lia. }
  assert (Hz : d2 = 0%Z).
  { rewrite Hd2, Hi.
    replace (k2 + (e1 - k1)) with (k2 + 1 + (e1 - k1 - 1)) by lia.
    rewrite Hdepth by lia.
    replace (k1 + 1 + (e1 - k1 - 1)) with e1 by lia. exact Hz1. }
  rewrite Hz, Hi. reflexivity.
Qed.

Lemma ends_with (l : Buffer) (n : nat) (c : char) :
  length l = S n -> nth_error l n = Some c -> l = firstn n l ++ [c].
Proof.
  intros Hlen Hn. rewrite <- (firstn_skipn n l) at 1. f_equal.
  destruct (skipn n l) as [|x t] eqn:E.
  - apply (f_equal (@length char)) in E. rewrite length_skipn in E.
    simpl in E. lia.
  - pose proof (nth_error_skipn n l 0) as H. rewrite E, Nat.add_0_r in H.
    simpl in H. assert (x = c) by congruence. subst x.
    apply (f_equal (@length char)) in E. rewrite length_skipn in E.
    simpl in E. destruct t; [reflexivity|simpl in E; lia].
Qed.

(** ** The shape of a subsection *)

Lemma header_tail_shape (s : Buffer) (ls : list nat) :
  match_here header_tail s = Some ls ->
  exists ws ws' rest,
    s = ws ++ chr "=" :: ws' ++ lbrace :: rest /\
    Forall (holds is_space) ws /\ Forall (holds is_space) ws' /\
    list_sum ls = length ws + length ws' + 2.
Proof.
  unfold header_tail. intros H.
  apply match_here_Star in H. destruct H as (n & l1 & -> & Hn & Hws & H).
  apply match_here_One in H. destruct H as (c & s1 & l2 & Hs1 & Hc & H & ->).
  apply match_here_Star in H. destruct H as (n' & l3 & -> & Hn' & Hws' & H).
  apply match_here_One in H. destruct H as (c' & s2 & l4 & Hs2 & Hc' & H & ->).
  cbn [match_here] in H. injection H as <-.
  apply N.eqb_eq in Hc, Hc'. subst c c'.
  exists (firstn n s), (firstn n' s1), s2.
  rewrite <- Hs2, firstn_skipn, <- Hs1, firstn_skipn, !length_firstn.
  repeat split; try assumption. unfold list_sum. cbn [fold_right]. lia.
Qed.

Lemma sub_no_match (pat : pattern) (repl : Buffer -> rmatch -> Buffer)
    (s : Buffer) :
  search pat s = None -> sub pat repl s = s.
Proof.
  intros H. unfold sub. destruct (length s); cbn [sub_loop];
    [reflexivity|now rewrite H].
Qed.

Section SubsectionShape.

Variables p1 p2 : char -> bool.

Lemma subsection_shape (c : Buffer) (a b : nat) (x : Buffer) :
  find_subsection ([One p1; One p2] ++ header_tail) c = Some (a, b, x) ->
  (exists c1 c2 ws ws' body,
     x = c1 :: c2 :: ws ++ chr "=" :: ws' ++ lbrace :: body /\
     p1 c1 = true /\ p2 c2 = true /\
     Forall (holds is_space) ws /\ Forall (holds is_space) ws' /\
     find_matching_brace x (3 + length ws + length ws') = Some (length x)) /\
  (exists x', x = x' ++ [rbrace]).
Proof.
  unfold find_subsection.
  destruct (search text_pattern c) as [tm|] eqn:Ht; [|discriminate].
  destruct (find_matching_brace c (m_end tm - 1)) as [te|] eqn:Hte;
    [|discriminate].
  cbv zeta. set (T := slice c (m_start tm) te).
  destruct (search ([One p1; One p2] ++ header_tail) T) as [im|] eqn:Hi;
    [|discriminate].
  destruct (find_matching_brace T (m_end im - 1)) as [ie|] eqn:Hie;
    [|discriminate].
  intros [= <- <- <-].
  destruct (search_spec _ _ _ Hi) as (Hend & Hm & _).
  destruct (find_matching_brace_Some _ _ _ Hie) as (Hb & _ & Hclose & _).
  cbn [app] in Hm.
  apply match_here_One in Hm. destruct Hm as (c1 & s1 & l1 & Hs & H1 & Hm & El).
  apply match_here_One in Hm. destruct Hm as (c2 & s2 & l2 & -> & H2 & Hm & ->).
  destruct (header_tail_shape _ _ Hm) as (ws & ws' & rest & -> & Hws & Hws' & Hsum).
  unfold m_end, m_len in *. rewrite El in *. cbn [list_sum] in *.
  set (st := m_start im) in *.
  set (L := 4 + length ws + length ws').
  assert (HL : list_sum (1 :: 1 :: l2) = L).
  { change (list_sum (1 :: 1 :: l2)) with (1 + (1 + list_sum l2)).
    unfold L. lia. }
  rewrite HL in *. clear HL.
  assert (Lx : length (slice T st ie) = ie - st)
    by (apply slice_length; lia).
  assert (Hbal : find_matching_brace (slice T st ie) (L - 1)
                 = Some (length (slice T st ie))).
  { rewrite Lx.
    replace (ie - st) with (L - 1 + (ie - (st + L - 1))) by (unfold L; lia).
    apply (find_matching_brace_agree T); [exact Hie|].
    intros j Hj. rewrite nth_error_slice by (unfold L in *; lia).
    f_equal. unfold L. lia. }
  split.
  - exists c1, c2, ws, ws', (firstn (ie - st - L) rest).
    split; [|repeat split; assumption].
    unfold slice. rewrite Hs.
      replace (ie - st) with (S (S (ie - st - 2))) by (unfold L in *; lia).
      rewrite !firstn_cons. do 2 f_equal.
      rewrite firstn_app, firstn_all2 by (unfold L in *; lia). f_equal.
      replace (ie - st - 2 - length ws)
        with (S (ie - st - 3 - length ws)) by (unfold L in *; lia).
      rewrite firstn_cons. f_equal.
      rewrite firstn_app, firstn_all2 by (unfold L in *; lia). f_equal.
      replace (ie - st - 3 - length ws - length ws')
        with (S (ie - st - L)) by (unfold L in *; lia).
      rewrite firstn_cons. do 2 f_equal. unfold L in *. lia.
  - exists (firstn (ie - st - 1) (slice T st ie)).
    apply ends_with; [unfold L in *; lia|].
    rewrite nth_error_slice by (unfold L in *; lia).
    replace (st + (ie - st - 1)) with (ie - 1) by (unfold L in *; lia).
    exact Hclose.
Qed.

End SubsectionShape.


(** ** The name-field transform *)

Lemma search_nil (pat : pattern) :
  starts_with_One pat -> search pat [] = None.
Proof.
  destruct pat as [|[p| | | |] pat]; simpl; try contradiction. reflexivity.
Qed.

(** Any fuel that covers the text gives the same substitution. *)
Lemma sub_loop_fuel (pat : pattern) (repl : Buffer -> rmatch -> Buffer)
    (f1 f2 : nat) (s : Buffer) :
  starts_with_One pat -> length s <= f1 -> length s <= f2 ->
  sub_loop pat repl f1 s = sub_loop pat repl f2 s.
Proof.
  intros Hp. revert f2 s; induction f1 as [|f1 IH]; intros [|f2] s H1 H2;
    cbn [sub_loop]; try reflexivity.
  - destruct s; [|simpl in H1; lia]. now rewrite search_nil.
  - destruct s; [|simpl in H2; lia]. now rewrite search_nil.
  - destruct (search pat s) as [m|] eqn:Hs; [|reflexivity].
    pose proof (search_nonempty _ _ _ Hp Hs) as Hl.
    destruct (search_spec _ _ _ Hs) as (Hend & _).
    unfold m_end in *. do 2 f_equal.
    apply IH; rewrite length_skipn; lia.
Qed.

Lemma slice_mid (A B C : Buffer) :
  slice (A ++ B ++ C) (length A) (length A + length B) = B.
Proof.
  replace (length A) with (length A + 0) at 1 by lia.
  rewrite slice_app_skip, slice_from_0, firstn_app, firstn_all, Nat.sub_diag.
  cbn [firstn]. now rewrite app_nil_r.
Qed.

(** The end of a name field: the lazy [.*?] runs up to the first closing
    brace. *)
Lemma name_body_match (body post : Buffer) :
  ~ In rbrace body ->
  match_here [Lazy any_char; One (lit rbrace)] (body ++ rbrace :: post)
  = Some [length body; 1].
Proof.
  intros Hb. cbn [match_here].
  rewrite (lazy_first any_char _ body (rbrace :: post) [1]); [reflexivity| | |].
  - apply Forall_forall. intros; reflexivity.
  - intros j Hj.
    destruct (skipn j (body ++ rbrace :: post)) as [|c t] eqn:E;
      [reflexivity|].
    assert (Hc : nth_error body j = Some c).
    { pose proof (nth_error_skipn j (body ++ rbrace :: post) 0) as H.
      rewrite E, Nat.add_0_r, nth_error_app1 in H by assumption.
      simpl in H. congruence. }
    unfold lit.
    destruct (N.eqb_spec rbrace c) as [<-|]; [|reflexivity].
    exfalso. apply Hb. now apply nth_error_In with (n := j).
  - reflexivity.
Qed.

Lemma match_here_One_ok (p : char -> bool) (pat : pattern) (c : char)
    (s : Buffer) (ls : list nat) :
  p c = true -> match_here pat s = Some ls ->
  match_here (One p :: pat) (c :: s) = Some (1 :: ls).
Proof. intros Hp Hm. cbn [match_here]. now rewrite Hp, Hm. Qed.

Lemma match_here_Star_all (p : char -> bool) (pat : pattern)
    (ws tail : Buffer) (ls : list nat) :
  Forall (holds p) ws ->
  match tail with [] => True | c :: _ => p c = false end ->
  match_here pat tail = Some ls ->
  match_here (Star p :: pat) (ws ++ tail) = Some (length ws :: ls).
Proof.
  intros Hws Htail Hm. cbn [match_here].
  now rewrite (greedy_all p _ ws tail ls Hws Hm Htail).
Qed.

(** The whole pattern on a name field. *)
Lemma name_field_match (tag ws1 ws2 body post : Buffer) :
  is_name_tag tag ->
  Forall (holds is_space) ws1 -> Forall (holds is_space) ws2 ->
  ~ In rbrace body ->
  match_here name_pattern (name_header tag ws1 ws2 ++ body ++ rbrace :: post)
  = Some [1; 1; 1; 1; length ws1; 1; length ws2; 1; length body; 1].
Proof.
  intros (c1 & c2 & c3 & c4 & -> & H1 & H2 & H3 & H4) Hw1 Hw2 Hb.
  assert (E : name_header [c1; c2; c3; c4] ws1 ws2 ++ body ++ rbrace :: post
              = c1 :: c2 :: c3 :: c4
                :: ws1 ++ chr "=" :: ws2 ++ lbrace :: body ++ rbrace :: post).
  { unfold name_header. cbn [app]. do 4 f_equal.
    rewrite <- !app_assoc. cbn [app]. do 2 f_equal.
    rewrite <- !app_assoc. reflexivity. }
  rewrite E. unfold name_pattern, header_tail. cbn [app].
  do 4 (apply match_here_One_ok; [assumption|]).
  apply match_here_Star_all; [assumption|reflexivity|].
  apply match_here_One_ok; [apply N.eqb_refl|].
  apply match_here_Star_all; [assumption|reflexivity|].
  apply match_here_One_ok; [apply N.eqb_refl|].
  now apply name_body_match.
Qed.

Lemma name_header_length (tag ws1 ws2 : Buffer) :
  is_name_tag tag ->
  length (name_header tag ws1 ws2) = 6 + length ws1 + length ws2.
Proof.
  intros (c1 & c2 & c3 & c4 & -> & _). unfold name_header.
  rewrite !length_app. simpl. lia.
Qed.

(** One name field at the head of the text still to be searched: it is
    rewritten, and the substitution goes on after it. *)
Lemma name_field_sub (pre tag ws1 ws2 body post : Buffer) :
  is_name_tag tag ->
  Forall (holds is_space) ws1 -> Forall (holds is_space) ws2 ->
  ~ In rbrace body ->
  (forall j, j < length pre ->
     match_here name_pattern
       (skipn j (pre ++ name_header tag ws1 ws2 ++ body ++ rbrace :: post))
     = None) ->
  sub name_pattern transform_name
    (pre ++ name_header tag ws1 ws2 ++ body ++ rbrace :: post)
  = pre ++ name_header tag ws1 ws2 ++ new_name_list body
    ++ rbrace :: sub name_pattern transform_name post.
Proof.
  intros Htag Hw1 Hw2 Hb Hpre.
  pose proof (name_field_match tag ws1 ws2 body post Htag Hw1 Hw2 Hb) as Hm.
  pose proof (name_header_length tag ws1 ws2 Htag) as Hlen.
  set (H := name_header tag ws1 ws2) in *.
  set (s := pre ++ H ++ body ++ rbrace :: post).
  set (lens := [1; 1; 1; 1; length ws1; 1; length ws2; 1; length body; 1]) in *.
  assert (Hs : search name_pattern s
               = Some {| m_start := length pre; m_lens := lens |}).
  { assert (Hat : match_here name_pattern (skipn (length pre) s) = Some lens).
    { unfold s. rewrite skipn_app, skipn_all, Nat.sub_diag. exact Hm. }
    destruct (search_from_complete name_pattern s 0 (length pre) lens Hat)
      as (m & Hsm & Hle).
    change (search_from name_pattern s 0) with (search name_pattern s) in Hsm.
    destruct (search_spec _ _ _ Hsm) as (_ & Hmm & _).
    destruct (Nat.eq_dec (m_start m) (length pre)) as [E|E].
    - rewrite E, Hat in Hmm. injection Hmm as Hl.
      rewrite Hsm. destruct m as [st ll]. cbn in *. now subst.
    - unfold s in Hmm. rewrite Hpre in Hmm by (simpl in Hle; lia).
      discriminate. }
  assert (L8 : list_sum (firstn 8 lens) = length H) by (rewrite Hlen; simpl; lia).
  assert (L9 : list_sum (firstn 9 lens) = length H + length body)
    by (rewrite Hlen; simpl; lia).
  assert (L10 : list_sum (firstn 10 lens) = length H + length body + 1)
    by (rewrite Hlen; simpl; lia).
  assert (Lall : list_sum lens = length H + length body + 1)
    by (rewrite Hlen; simpl; lia).
  set (m := {| m_start := length pre; m_lens := lens |}) in *.
  assert (G2 : group s m 8 9 = body).
  { unfold group, span, m. cbn [fst snd m_start m_lens]. rewrite L8, L9.
    unfold s. rewrite slice_app_skip. apply slice_mid. }
  assert (G1 : group s m 0 8 = H).
  { unfold group, span, m. cbn [fst snd m_start m_lens]. rewrite L8.
    cbn [firstn list_sum fold_right]. unfold s. rewrite slice_app_skip.
    rewrite slice_from_0, firstn_app, firstn_all, Nat.sub_diag.
    cbn [firstn]. now rewrite app_nil_r. }
  assert (G3 : group s m 9 10 = [rbrace]).
  { unfold group, span, m. cbn [fst snd m_start m_lens]. rewrite L9, L10.
    unfold s. rewrite slice_app_skip.
    change (rbrace :: post) with ([rbrace] ++ post).
    rewrite (app_assoc H body), <- length_app.
    replace (length (H ++ body) + 1)
      with (length (H ++ body) + length [rbrace]) by reflexivity.
    apply slice_mid. }
  assert (G0 : group0 s m = H ++ body ++ [rbrace]).
  { unfold group0, m_end, m_len, m. cbn [m_start m_lens]. rewrite Lall.
    unfold s. replace (length pre) with (length pre + 0) at 1 by lia.
    rewrite slice_app_skip, slice_from_0.
    change (rbrace :: post) with ([rbrace] ++ post).
    rewrite !app_assoc.
    replace (length H + length body + 1)
      with (length ((H ++ body) ++ [rbrace]))
      by (rewrite !length_app; simpl; lia).
    rewrite firstn_app, firstn_all, Nat.sub_diag. cbn [firstn].
    now rewrite app_nil_r. }
  assert (Ht : transform_name s m = H ++ new_name_list body ++ [rbrace]).
  { unfold transform_name, new_name_list. rewrite G2.
    destruct (findall quoted_pattern body) as [|q qs].
    - exact G0.
    - now rewrite G1, G3. }
  unfold sub at 1.
  assert (Hlen_s : length s = S (length pre + length H + length body + length post))
    by (unfold s; rewrite !length_app; simpl; lia).
  rewrite Hlen_s. cbn [sub_loop]. rewrite Hs, Ht.
  replace (m_end m) with (length pre + (length H + length body + 1))
    by (unfold m_end, m_len, m; cbn [m_start m_lens]; rewrite Lall; lia).
  assert (Hskip : skipn (length pre + (length H + length body + 1)) s = post).
  { unfold s. rewrite (Nat.add_comm (length pre)), <- skipn_skipn.
    rewrite skipn_app, skipn_all, Nat.sub_diag. cbn [skipn app].
    change (rbrace :: post) with ([rbrace] ++ post).
    rewrite !app_assoc.
    replace (length H + length body + 1)
      with (length ((H ++ body) ++ [rbrace]))
      by (rewrite !length_app; simpl; lia).
    rewrite skipn_app, skipn_all, Nat.sub_diag. reflexivity. }
  rewrite Hskip.
  assert (Hfirst : firstn (m_start m) s = pre).
  { unfold m, s. cbn [m_start].
    rewrite firstn_app, firstn_all, Nat.sub_diag. cbn [firstn].
    now rewrite app_nil_r. }
  rewrite Hfirst.
  rewrite (sub_loop_fuel name_pattern transform_name _ (length post) post I)
    by lia.
  fold (sub name_pattern transform_name post).
  rewrite <- !app_assoc. reflexivity.
Qed.

(** C6, as the code has it. A name field found by the substitution keeps its
    header up to the opening brace and its closing brace; between them stands
    the last quoted string of the list alone, without the padding that
    surrounded it, or the text as it was when it holds no quoted string. The
    substitution then goes on after the field. So the two-entry list of the
    example becomes the one-entry list with no space inside the braces, the
    one-entry list loses its padding, and a list without quoted strings is
    left as it is. *)
Theorem name_field_keeps_last_string :
  (forall pre tag ws1 ws2 body post : Buffer,
     is_name_tag tag ->
     Forall (holds is_space) ws1 -> Forall (holds is_space) ws2 ->
     ~ In rbrace body ->
     (forall j, j < length pre ->
        match_here name_pattern
          (skipn j (pre ++ name_header tag ws1 ws2 ++ body ++ rbrace :: post))
        = None) ->
     sub name_pattern transform_name
       (pre ++ name_header tag ws1 ws2 ++ body ++ rbrace :: post)
     = pre ++ name_header tag ws1 ws2 ++ new_name_list body
       ++ rbrace :: sub name_pattern transform_name post) /\
  new_name_list
    (str " " ++ quoted [36965%N; 26007%N] ++ str ", "
     ++ quoted (str "Haruto") ++ str " ")
  = quoted (str "Haruto") /\
  sub name_pattern transform_name sample_name_pair
  = str "name = {" ++ quoted (str "Haruto") ++ str "}" /\
  sub name_pattern transform_name sample_name_single
  = str "name = {" ++ quoted (str "OnlyOne") ++ str "}" /\
  sub name_pattern transform_name (str "name = { no quoted string }")
  = str "name = { no quoted string }" /\
  sub name_pattern transform_name (str "name = {}") = str "name = {}".
Proof.
  split; [exact name_field_sub|]. repeat split; reflexivity.
Qed.

Lemma name_field_keeps_last_string_witness :
  sub name_pattern transform_name
    (str "id = 7, "
     ++ name_header (str "Name") (str " ") (str " ")
     ++ (str " " ++ quoted (str "a") ++ str ", " ++ quoted (str "b") ++ str " ")
     ++ rbrace :: str ", x")
  = str "id = 7, " ++ name_header (str "Name") (str " ") (str " ")
    ++ new_name_list
         (str " " ++ quoted (str "a") ++ str ", " ++ quoted (str "b") ++ str " ")
    ++ rbrace :: sub name_pattern transform_name (str ", x").
Proof.
  apply (proj1 name_field_keeps_last_string).
  - exists 78%N, 97%N, 109%N, 101%N. repeat split; reflexivity.
  - repeat constructor.
  - repeat constructor.
  - vm_compute. intuition discriminate.
  - intros j Hj.
    do 8 (destruct j as [|j]; [vm_compute; reflexivity|]).
    simpl in Hj. lia.
Defined.

(** The outputs the claim names are not what the substitution returns: the
    space after the opening brace and the one before the closing brace are
    gone, also when the list had a single entry. *)
Lemma name_list_padding_dropped :
  sub name_pattern transform_name sample_name_pair
  <> str "name = { " ++ quoted (str "Haruto") ++ str " }" /\
  sub name_pattern transform_name sample_name_single <> sample_name_single.
Proof. split; vm_compute; discriminate. Qed.

(** ** The Field Transform, field by field *)

Lemma first_rbrace (s : Buffer) :
  In rbrace s ->
  exists body post, s = body ++ rbrace :: post /\ ~ In rbrace body.
Proof.
  induction s as [|c s IH]; [intros []|].
  destruct (N.eq_dec c rbrace) as [->|Hne].
  - intros _. exists [], s. split; [reflexivity|intros []].
  - intros [H|H]; [congruence|].
    destruct (IH H) as (body & post & -> & Hb).
    exists (c :: body), post. split; [reflexivity|].
    intros [E|E]; [congruence|contradiction].
Qed.

(** Where a name field stands, the pattern of the substitution matches. *)
Lemma starts_name_field_match (s : Buffer) :
  starts_name_field s -> exists ls, match_here name_pattern s = Some ls.
Proof.
  intros (tag & ws1 & ws2 & body & post & -> & Htag & Hw1 & Hw2).
  destruct (first_rbrace (body ++ rbrace :: post)) as (body' & post' & E & Hb).
  { apply in_or_app. right. now left. }
  rewrite E. eexists. now apply name_field_match.
Qed.

(** Where the pattern of the substitution matches, a name field stands, and
    the match runs to its first closing brace. *)
Lemma match_name_field (s : Buffer) (ls : list nat) :
  match_here name_pattern s = Some ls ->
  exists tag ws1 ws2 body post,
    s = name_header tag ws1 ws2 ++ body ++ rbrace :: post /\
    is_name_tag tag /\
    Forall (holds is_space) ws1 /\ Forall (holds is_space) ws2 /\
    ~ In rbrace body.
Proof.
  unfold name_pattern, header_tail. cbn [app]. intros H.
  apply match_here_One in H. destruct H as (c1 & s1 & l1 & -> & H1 & H & ->).
  apply match_here_One in H. destruct H as (c2 & s2 & l2 & -> & H2 & H & ->).
  apply match_here_One in H. destruct H as (c3 & s3 & l3 & -> & H3 & H & ->).
  apply match_here_One in H. destruct H as (c4 & s4 & l4 & -> & H4 & H & ->).
  apply match_here_Star in H. destruct H as (n1 & l5 & -> & Hn1 & Hw1 & H).
  apply match_here_One in H. destruct H as (e & s5 & l6 & Hs5 & He & H & ->).
  apply match_here_Star in H. destruct H as (n2 & l7 & -> & Hn2 & Hw2 & H).
  apply match_here_One in H. destruct H as (o & s6 & l8 & Hs6 & Ho & H & ->).
  apply N.eqb_eq in He, Ho. subst e o.
  change (match_here [Lazy any_char; One (lit rbrace)] s6)
    with (glue (lazy any_char (match_here [One (lit rbrace)]) s6)) in H.
  destruct (lazy any_char (match_here [One (lit rbrace)]) s6)
    as [[n l9]|] eqn:Hlazy; cbn [glue option_map] in H; [|discriminate].
  destruct (lazy_sound _ _ _ _ _ Hlazy) as (Hn & _ & Hk & Hfirst).
  destruct (skipn n s6) as [|c post] eqn:Hpost; [discriminate|].
  cbn [match_here] in Hk.
  destruct (lit rbrace c) eqn:Hc; [|discriminate].
  apply N.eqb_eq in Hc. subst c.
  exists [c1; c2; c3; c4], (firstn n1 s4), (firstn n2 s5), (firstn n s6), post.
  split; [|split; [|split; [|split]]].
  - unfold name_header. cbn [app]. do 4 f_equal.
    rewrite <- (firstn_skipn n1 s4) at 1. rewrite <- app_assoc. f_equal.
    rewrite Hs5. cbn [app]. f_equal.
    rewrite <- (firstn_skipn n2 s5) at 1. rewrite <- app_assoc. f_equal.
    rewrite Hs6. cbn [app]. f_equal.
    rewrite <- (firstn_skipn n s6) at 1. now rewrite Hpost.
  - now exists c1, c2, c3, c4.
  - exact Hw1.
  - exact Hw2.
  - intros Hin. apply In_nth_error in Hin. destruct Hin as [j Hj].
    assert (Hjn : j < n).
    { assert (Hs : nth_error (firstn n s6) j <> None) by congruence.
      apply nth_error_Some in Hs. rewrite length_firstn in Hs. lia. }
    rewrite nth_error_firstn in Hj.
    assert (Ej : (j <? n) = true) by now apply Nat.ltb_lt.
    rewrite Ej in Hj.
    specialize (Hfirst j Hjn).
    destruct (skipn j s6) as [|x t] eqn:Hsk.
    + apply (f_equal (@length char)) in Hsk. rewrite length_skipn in Hsk.
      simpl in Hsk. lia.
    + pose proof (nth_error_skipn j s6 0) as Hx.
      rewrite Hsk, Nat.add_0_r in Hx. simpl in Hx.
      assert (x = rbrace) by congruence. subst x.
      cbn [match_here] in Hfirst. unfold lit in Hfirst.
      rewrite N.eqb_refl in Hfirst. discriminate.
Qed.

Lemma no_match_no_field (s : Buffer) :
  match_here name_pattern s = None -> ~ starts_name_field s.
Proof.
  intros Hnone Hf. destruct (starts_name_field_match s Hf) as [ls Hm].
  congruence.
Qed.

(** What the substitution of lines 176-181 does to a text. *)
Lemma sub_names_rewritten (s : Buffer) :
  names_rewritten s (sub name_pattern transform_name s).
Proof.
  remember (length s) as n eqn:Hn.
  assert (Hle : length s <= n) by lia. clear Hn.
  revert s Hle. induction n as [|n IH]; intros s Hle.
  - destruct s; [|simpl in Hle; lia].
    rewrite sub_no_match by (apply search_nil; exact I).
    apply names_kept. intros j. rewrite skipn_nil.
    apply no_match_no_field. reflexivity.
  - destruct (search name_pattern s) as [m|] eqn:Hs.
    + destruct (search_spec _ _ _ Hs) as (Hend & Hm & Hbefore).
      destruct (match_name_field _ _ Hm)
        as (tag & ws1 & ws2 & body & post & Hshape & Htag & Hw1 & Hw2 & Hb).
      assert (Hstart : m_start m <= length s) by (unfold m_end in Hend; lia).
      assert (Es : s = firstn (m_start m) s
                       ++ name_header tag ws1 ws2 ++ body ++ rbrace :: post).
      { rewrite <- Hshape. symmetry. apply firstn_skipn. }
      assert (Lpre : length (firstn (m_start m) s) = m_start m)
        by (rewrite length_firstn; lia).
      set (pre := firstn (m_start m) s) in *.
      assert (Hpost : length post <= n).
      { apply (f_equal (@length char)) in Es.
        rewrite !length_app in Es. cbn [length] in Es. lia. }
      rewrite Es at 2.
      rewrite (name_field_sub pre tag ws1 ws2 body post Htag Hw1 Hw2 Hb).
      * rewrite Es at 1. apply names_field; try assumption.
        -- intros j Hj. rewrite <- Es. apply no_match_no_field.
           apply Hbefore. lia.
        -- now apply IH.
      * intros j Hj. rewrite <- Es. apply Hbefore. lia.
    + rewrite sub_no_match by assumption.
      apply names_kept. intros j. apply no_match_no_field.
      exact (search_from_None _ _ _ Hs j).
Qed.

(** What [extract_en_section] returns, in the words of the transform. *)
Lemma extract_en_section_transformed (c r : Buffer) :
  extract_en_section c = Some r ->
  exists a b en,
    find_subsection en_pattern c = Some (a, b, en) /\
    a < b /\ b <= length c /\ en = slice c a b /\
    transformed_en en r.
Proof.
  intros H.
  destruct (extract_en_section_spec c r H)
    as (a & b & tag & body & Hf & Hab & Hb & Htag & Hsub & ->).
  exists a, b, (slice c a b).
  split; [exact Hf|]. split; [exact Hab|]. split; [exact Hb|].
  split; [reflexivity|].
  exists tag, body. split; [exact Htag|]. split; [|reflexivity].
  rewrite <- Hsub. apply sub_names_rewritten.
Qed.

(** ** The edits of a processed file *)

Section FrameClaim.

Variable decimal : char -> option Z.
Variable max_digits : nat.
Variable int_error : Buffer -> string.

(** The span and the replacement of the pair of a target and a source
    block that lie in their buffers. *)
Lemma edit_described (to_content from_content : Buffer)
    (tb fb : ASTBlock) (a b : nat) (ja r : Buffer) :
  start tb < end_ tb /\ end_ tb <= length to_content /\
  content tb = slice to_content (start tb) (end_ tb) ->
  start fb < end_ fb /\ end_ fb <= length from_content /\
  content fb = slice from_content (start fb) (end_ fb) ->
  extract_ja_section (content tb) = Some (a, b, ja) ->
  extract_en_section (content fb) = Some r ->
  start tb + b <= end_ tb /\
  slice to_content (start tb + a) (start tb + b) = ja /\
  is_ja_construct ja /\
  exists a' b' en,
    find_subsection en_pattern (content fb) = Some (a', b', en) /\
    a' < b' /\ start fb + b' <= end_ fb /\
    en = slice from_content (start fb + a') (start fb + b') /\
    transformed_en en r.
Proof.
  intros (T1 & T2 & T3) (F1 & F2 & F3) Hja Hen.
  destruct (extract_ja_section_spec _ _ _ _ Hja) as (Hab & Hb & Hx).
  assert (Lt : length (content tb) = end_ tb - start tb)
    by (rewrite T3; apply slice_length; lia).
  assert (Lf : length (content fb) = end_ fb - start fb)
    by (rewrite F3; apply slice_length; lia).
  split; [lia|]. split; [|split].
  - rewrite Hx, T3. symmetry. apply slice_slice. lia.
  - rewrite extract_ja_section_find in Hja.
    exact (proj1 (subsection_shape _ _ _ _ _ _ Hja)).
  - destruct (extract_en_section_transformed _ _ Hen)
      as (a' & b' & en & Hf & Hab' & Hb' & Hen' & Htr).
    exists a', b', en. split; [exact Hf|]. split; [exact Hab'|].
    split; [lia|]. split; [|exact Htr].
    rewrite Hen', F3. apply slice_slice. lia.
Qed.

(** C2. When [process_file] succeeds, the text written is the target buffer
    with the spans of a list of edits replaced and nothing else changed: the
    edits are exactly those of the target blocks of the id-indexed lookup
    whose source block (id plus one) is there and for which both subsections
    were extracted. Each span lies in its target block and holds, in the
    target buffer, the [ja = {...}] construct that [extract_ja_section]
    locates in the block; each replacement is the [en = {...}] construct of
    the source block as it stands in the source buffer, with its name fields
    rewritten and its tag, up to the equals sign, replaced by [ja =]. The
    spans are non-empty, in order and inside the buffer; every character
    outside them is found unchanged at its image, and every replacement
    stands whole at the image of its span. *)
Theorem process_file_frame (self : Processor) (name : string)
    (to_read from_read : read_result) (write_raises : option string)
    (self' : Processor) (out : option Buffer) :
  process_file decimal max_digits int_error self name to_read from_read
    write_raises
  = (self', true, out) ->
  exists to_content from_content to_blocks from_blocks result edits,
    to_read = ReadOk to_content /\ from_read = ReadOk from_content /\
    extract_blocks_to decimal max_digits to_content = Blocks to_blocks /\
    extract_blocks_from decimal max_digits from_content = Blocks from_blocks /\
    out = Some result /\
    (forall s e r,
       In (s, (e, r)) edits <->
       exists t tb fb a b ja,
         Dict.get Z.eqb t (blocks_dict to_blocks) = Some tb /\
         Dict.get Z.eqb (t + 1)%Z (blocks_dict from_blocks) = Some fb /\
         extract_ja_section (content tb) = Some (a, b, ja) /\
         extract_en_section (content fb) = Some r /\
         s = start tb + a /\ e = start tb + b) /\
    (forall s e r,
       In (s, (e, r)) edits ->
       exists tb fb ja a' b' en,
         In tb to_blocks /\ In fb from_blocks /\
         block_id fb = (block_id tb + 1)%Z /\
         start tb <= s /\ e <= end_ tb /\
         slice to_content s e = ja /\ is_ja_construct ja /\
         extract_ja_section (content tb)
         = Some (s - start tb, e - start tb, ja) /\
         find_subsection en_pattern (content fb) = Some (a', b', en) /\
         en = slice from_content (start fb + a') (start fb + b') /\
         a' < b' /\ start fb + b' <= end_ fb /\
         transformed_en en r) /\
    in_order (length to_content) 0 edits /\
    (forall s e r,
       In (s, (e, r)) edits ->
       s < e /\ exists body, r = str "ja =" ++ body) /\
    result = reconstruct to_content edits /\
    (forall i,
       (forall s e r, In (s, (e, r)) edits -> i < s \/ e <= i) ->
       nth_error result (image edits 0 i) = nth_error to_content i) /\
    (forall s e r,
       In (s, (e, r)) edits ->
       slice result (image edits 0 s) (image edits 0 s + length r) = r).
Proof.
  intros H.
  destruct (process_file_success decimal max_digits int_error _ _ _ _ _ _ _ H)
    as (to_content & from_content & to_blocks & from_blocks & reps & um & uf
        & result & -> & -> & Hto & Hfrom & Hc & Hne & Ha & _ & _ & _ & ->).
  rewrite (correlate_located decimal max_digits to_content to_blocks
             from_blocks Hto) in Hc.
  injection Hc as Hreps _ _.
  set (from_dict := blocks_dict from_blocks) in *.
  pose proof (laid_out_sorted _ _ _
                (extract_blocks_to_laid_out decimal max_digits to_content
                   to_blocks Hto)) as Hsorted.
  pose proof (laid_out_each _ _ _
                (extract_blocks_to_laid_out decimal max_digits to_content
                   to_blocks Hto)) as Hblocks.
  pose proof (laid_out_each _ _ _
                (extract_blocks_from_laid_out decimal max_digits from_content
                   from_blocks Hfrom)) as Hfblocks.
  set (E := flat_map (edit_of from_dict) (blocks_dict to_blocks)) in *.
  pose proof (sort_edits_perm E) as Hperm.
  pose proof (located_edits_in_order to_content to_blocks from_dict
                Hsorted Hblocks) as Hord.
  fold E in Hord.
  assert (Hbounds : forall x, In x (sort_edits E) -> fst x < fst (snd x)).
  { intros x Hx. apply (Permutation_in _ Hperm) in Hx.
    exact (proj1 (located_edits_bounds to_content to_blocks from_dict
                    Hblocks x Hx)). }
  assert (Hres : result = reconstruct to_content (sort_edits E)).
  { assert (Hap : apply_edits to_content reps
                  = Some (reconstruct to_content (sort_edits E))).
    { apply apply_edits_in_order.
      - rewrite <- Hreps.
        exact (located_edits_NoDup_keys to_content to_blocks from_dict
                 Hsorted Hblocks).
      - now rewrite <- Hreps.
      - exact Hord. }
    congruence. }
  exists to_content, from_content, to_blocks, from_blocks, result,
    (sort_edits E).
  split; [reflexivity|]. split; [reflexivity|].
  split; [exact Hto|]. split; [exact Hfrom|]. split; [reflexivity|].
  assert (Hmem : forall s e r,
    In (s, (e, r)) (sort_edits E) <->
    exists t tb fb a b ja,
      Dict.get Z.eqb t (blocks_dict to_blocks) = Some tb /\
      Dict.get Z.eqb (t + 1)%Z from_dict = Some fb /\
      extract_ja_section (content tb) = Some (a, b, ja) /\
      extract_en_section (content fb) = Some r /\
      s = start tb + a /\ e = start tb + b).
  { intros s e r. split.
    - intros Hx. apply (Permutation_in _ Hperm) in Hx.
      apply in_flat_map in Hx. destruct Hx as ([t tb] & Hi & Hx).
      apply edit_of_In in Hx. destruct Hx as (fb & a & b & ja & Hx).
      exists t, tb, fb, a, b, ja. split; [|exact Hx].
      apply (In_get _ _ Z.eqb Z_eqb_spec); [apply blocks_dict_NoDup|exact Hi].
    - intros (t & tb & fb & a & b & ja & Ht & Hx).
      apply (Permutation_in _ (Permutation_sym Hperm)).
      apply in_flat_map. exists (t, tb). split.
      + now apply (get_In _ _ Z.eqb Z_eqb_spec).
      + apply edit_of_In. now exists fb, a, b, ja. }
  split; [exact Hmem|].
  split; [|split; [exact Hord|split; [|split; [exact Hres|split]]]].
  - intros s e r Hx. apply Hmem in Hx.
    destruct Hx as (t & tb & fb & a & b & ja & Gt & Gf & Hja & Hen & -> & ->).
    destruct (blocks_dict_get _ _ _ Gt) as [Itb Idt].
    destruct (blocks_dict_get _ _ _ Gf) as [Ifb Idf].
    rewrite Forall_forall in Hblocks, Hfblocks.
    destruct (edit_described to_content from_content tb fb a b ja r
                (Hblocks _ Itb) (Hfblocks _ Ifb) Hja Hen)
      as (Hb & Hslice & Hshape & a' & b' & en & Hf & Hab' & Hb' & Hen' & Htr).
    exists tb, fb, ja, a', b', en.
    split; [exact Itb|]. split; [exact Ifb|]. split; [lia|].
    split; [lia|]. split; [exact Hb|]. split; [exact Hslice|].
    split; [exact Hshape|].
    split.
    { replace (start tb + a - start tb) with a by lia.
      replace (start tb + b - start tb) with b by lia. exact Hja. }
    split; [exact Hf|]. split; [exact Hen'|]. split; [exact Hab'|].
    split; [exact Hb'|exact Htr].
  - intros s e r Hx. split; [exact (Hbounds _ Hx)|].
    apply Hmem in Hx. destruct Hx as (t & tb & fb & a & b & ja & _ & _ & _ & Hen & _).
    destruct (extract_en_section_spec _ _ Hen)
      as (_ & _ & _ & body & _ & _ & _ & _ & _ & ->).
    now exists body.
  - intros i Hout. rewrite Hres. unfold reconstruct.
    apply reconstruct_outside; [exact Hord|exact Hbounds|lia|].
    intros [s [e r]] Hx. exact (Hout s e r Hx).
  - intros s e r Hx. rewrite Hres. unfold reconstruct.
    now apply (reconstruct_span to_content (sort_edits E) 0 s e r Hord Hbounds).
Qed.

End FrameClaim.

Lemma process_file_frame_witness :
  exists edits,
    sample_result = reconstruct sample_to edits /\
    in_order (length sample_to) 0 edits /\
    forall s e r,
      In (s, (e, r)) edits ->
      exists ja en, slice sample_to s e = ja /\ is_ja_construct ja /\
                    transformed_en en r.
Proof.
  destruct (process_file_frame ascii_decimal default_max_str_digits
              sample_int_error no_files "demo.ast"
              (ReadOk sample_to) (ReadOk sample_from) None
              (record_success no_files "demo.ast") (Some sample_result))
    as (tc & fc & tbs & fbs & res & edits & H1 & _ & _ & _ & H3 & _ & Hdesc
        & Hord & _ & Hres & _).
  - vm_compute. reflexivity.
  - injection H1 as <-. injection H3 as <-. exists edits.
    split; [assumption|]. split; [assumption|].
    intros s e r Hx.
    destruct (Hdesc s e r Hx)
      as (tb & fb & ja & a' & b' & en & _ & _ & _ & _ & _ & Hs & Hj & _ & _
          & _ & _ & _ & Htr).
    now exists ja, en.
Defined.

(** * Further properties *)

(** ** The delimiter matcher reads only the matched span *)

(** X1. The result of [find_matching_brace] depends only on the characters
    from the opening brace to its match: a buffer that holds the same
    characters there, at any offset, gives the same result relative to the
    opening brace. *)
Theorem find_matching_brace_local (t1 t2 : Buffer) (k1 k2 e1 : nat) :
  find_matching_brace t1 k1 = Some e1 ->
  (forall j, j < e1 - k1 -> nth_error t2 (k2 + j) = nth_error t1 (k1 + j)) ->
  find_matching_brace t2 k2 = Some (k2 + (e1 - k1)).
Proof. exact (find_matching_brace_agree t1 t2 k1 k2 e1). Qed.

Lemma find_matching_brace_local_witness :
  find_matching_brace (str "xx{a{b}}yy") 2 = Some (2 + (6 - 0)).
Proof.
  apply (find_matching_brace_local (str "{a{b}}") (str "xx{a{b}}yy") 0 2 6).
  - reflexivity.
  - intros j Hj. do 6 (destruct j as [|j]; [reflexivity|]). lia.
Defined.

(** ** A located block on its own *)

Section BlockAlone.

Variable decimal : char -> option Z.
Variable max_digits : nat.
Variable pat : pattern.
Variable gid : nat.
Variable buf : Buffer.
Hypothesis Hpat : starts_with_One pat.

Lemma scanned_block_alone (blocks : list ASTBlock) (b : ASTBlock) :
  scan decimal max_digits pat gid buf 0 = Blocks blocks ->
  In b blocks ->
  (exists body, content b = raw_header b ++ body) /\
  (exists h, raw_header b = h ++ [lbrace]) /\
  (exists c, content b = c ++ [rbrace]) /\
  length (content b) = end_ b - start b /\
  find_matching_brace (content b) (length (raw_header b) - 1)
  = Some (length (content b)).
Proof.
  intros Hscan Hb.
  pose proof (extract_blocks_loop_headers decimal max_digits pat gid buf Hpat
                (length buf) 0 blocks Hscan) as Hh.
  pose proof (laid_out_each _ _ _
                (extract_blocks_loop_laid_out decimal max_digits pat gid buf
                   Hpat (length buf) 0 blocks Hscan)) as He.
  rewrite Forall_forall in Hh, He.
  destruct (Hh b Hb) as (ls & [Hp Hm] & Hbrace & Hraw & _).
  destruct (He b Hb) as (B1 & B2 & B3).
  pose proof (match_here_nonempty _ _ _ Hpat Hm) as Hsum.
  destruct (find_matching_brace_Some _ _ _ Hbrace) as (F1 & F2 & F3 & _).
  unfold brace_of in *.
  set (s := start b) in *. set (e := end_ b) in *. set (n := list_sum ls) in *.
  assert (Lraw : length (raw_header b) = n)
    by (rewrite Hraw, slice_length by lia; lia).
  assert (Lc : length (content b) = e - s)
    by (rewrite B3, slice_length by lia; lia).
  split; [|split; [|split; [|split]]].
  - exists (slice buf (s + n) e). rewrite B3, Hraw. unfold slice.
    replace (e - s) with (n + (e - (s + n))) by lia.
    rewrite firstn_plus, skipn_skipn.
    replace (s + n - s) with n by lia.
    now rewrite (Nat.add_comm n s).
  - exists (firstn (n - 1) (raw_header b)).
    apply ends_with; [lia|].
    rewrite Hraw, nth_error_slice by lia.
    replace (s + (n - 1)) with (s + n - 1) by lia. exact F2.
  - exists (firstn (e - s - 1) (content b)).
    apply ends_with; [lia|].
    rewrite B3, nth_error_slice by lia.
    replace (s + (e - s - 1)) with (e - 1) by lia. exact F3.
  - exact Lc.
  - rewrite Lraw, Lc.
    replace (e - s) with (n - 1 + (e - (s + n - 1))) by lia.
    apply (find_matching_brace_agree buf); [exact Hbrace|].
    intros j Hj. rewrite B3, nth_error_slice by lia. f_equal. lia.
Qed.

End BlockAlone.

(** X2. The content of a located block, taken on its own, starts with the
    header of the block, whose last character is the opening brace, and ends
    with the closing brace that matches it: the delimiter matcher run on the
    content from the brace of the header returns the length of the content. *)
Theorem located_block_is_balanced (decimal : char -> option Z)
    (max_digits : nat) (buffer : Buffer) (blocks : list ASTBlock)
    (b : ASTBlock) :
  extract_blocks_to decimal max_digits buffer = Blocks blocks \/
  extract_blocks_from decimal max_digits buffer = Blocks blocks ->
  In b blocks ->
  (exists body, content b = raw_header b ++ body) /\
  (exists h, raw_header b = h ++ [lbrace]) /\
  (exists c, content b = c ++ [rbrace]) /\
  length (content b) = end_ b - start b /\
  find_matching_brace (content b) (length (raw_header b) - 1)
  = Some (length (content b)).
Proof.
  intros [H|H].
  - exact (scanned_block_alone decimal max_digits (block_pattern_to decimal)
             6 buffer I blocks b H).
  - exact (scanned_block_alone decimal max_digits
             (block_pattern_from decimal) 4 buffer I blocks b H).
Qed.

Lemma located_block_is_balanced_witness :
  let blocks :=
    blocks_of (extract_blocks_to ascii_decimal default_max_str_digits
                 sample_broken) in
  find_matching_brace
    (content (block_of (blocks_dict blocks) 1%Z))
    (length (raw_header (block_of (blocks_dict blocks) 1%Z)) - 1)
  = Some (length (content (block_of (blocks_dict blocks) 1%Z))).
Proof.
  intros blocks.
  apply (located_block_is_balanced ascii_decimal default_max_str_digits
           sample_broken blocks).
  - left. vm_compute. reflexivity.
  - vm_compute. right. left. reflexivity.
Defined.

(** ** The id-indexed lookup *)

Lemma find_last_spec (id : Z) (blocks : list ASTBlock) (b : ASTBlock) :
  find_last id blocks = Some b ->
  block_id b = id /\
  exists before after,
    blocks = before ++ b :: after /\
    forall b', In b' after -> block_id b' <> id.
Proof.
  revert b; induction blocks as [|x blocks IH]; intros b; simpl;
    [discriminate|].
  destruct (find_last id blocks) as [b'|] eqn:E.
  - intros [= <-]. destruct (IH b' eq_refl) as (Hid & l1 & l2 & -> & Hl2).
    split; [assumption|]. now exists (x :: l1), l2.
  - destruct (Z.eqb_spec (block_id x) id) as [Hx|Hx]; [|discriminate].
    intros [= <-]. split; [assumption|]. exists [], blocks.
    split; [reflexivity|]. intros b' Hb' Hid.
    clear IH. induction blocks as [|y blocks IHb]; [destruct Hb'|].
    simpl in E. destruct (find_last id blocks); [discriminate|].
    destruct (Z.eqb_spec (block_id y) id) as [Hy|Hy]; [discriminate|].
    destruct Hb' as [<-|Hb']; [contradiction|]. now apply IHb.
Qed.

Lemma get_fold_blocks (blocks : list ASTBlock) (d0 : Dict.dict Z ASTBlock)
    (k : Z) :
  Dict.get Z.eqb k
    (fold_left (fun d b => Dict.set Z.eqb (block_id b) b d) blocks d0)
  = match find_last k blocks with
    | Some b => Some b
    | None => Dict.get Z.eqb k d0
    end.
Proof.
  revert d0; induction blocks as [|x blocks IH]; intros d0; simpl;
    [reflexivity|].
  rewrite IH. destruct (find_last k blocks); [reflexivity|].
  rewrite (get_set _ _ Z.eqb Z_eqb_spec).
  rewrite (Z.eqb_sym k). now destruct (block_id x =? k)%Z.
Qed.

(** X3. In the lookup built from a list of blocks, an id gives the last
    block of the list that carries it: a later block with the same id
    overwrites the earlier one; each id is a key once, and the keys are the
    ids of the blocks. *)
Theorem blocks_dict_last_wins (blocks : list ASTBlock) :
  (forall id, Dict.get Z.eqb id (blocks_dict blocks) = find_last id blocks) /\
  (forall id b,
     Dict.get Z.eqb id (blocks_dict blocks) = Some b ->
     block_id b = id /\
     exists before after,
       blocks = before ++ b :: after /\
       forall b', In b' after -> block_id b' <> id) /\
  NoDup (Dict.keys (blocks_dict blocks)) /\
  (forall id, In id (Dict.keys (blocks_dict blocks))
              <-> In id (map block_id blocks)).
Proof.
  assert (Hget : forall id,
            Dict.get Z.eqb id (blocks_dict blocks) = find_last id blocks).
  { intros id. unfold blocks_dict. rewrite get_fold_blocks.
    now destruct (find_last id blocks). }
  split; [exact Hget|]. split; [|split].
  - intros id b H. rewrite Hget in H. now apply find_last_spec.
  - apply blocks_dict_NoDup.
  - apply blocks_dict_keys.
Qed.

(** ** Block ids *)

Lemma int_nonneg (decimal : char -> option Z) (max_digits : nat)
    (digits : Buffer) (id : Z) :
  digit_values decimal -> int decimal max_digits digits = Some id ->
  (0 <= id)%Z.
Proof.
  intros Hd. unfold int.
  destruct ((0 <? max_digits) && (max_digits <? length digits));
    [discriminate|].
  intros [= <-]. unfold digits_value.
  assert (H : forall acc, (0 <= acc)%Z ->
            (0 <= fold_left
                    (fun acc c =>
                       10 * acc + match decimal c with
                                  | Some v => v
                                  | None => 0
                                  end) digits acc)%Z).
  { induction digits as [|c ds IH]; intros acc Hacc; cbn [fold_left];
      [assumption|].
    apply IH. destruct (decimal c) as [v|] eqn:E; [|lia].
    destruct (Hd c v E). lia. }
  apply H. lia.
Qed.

Lemma located_ids_nonneg (decimal : char -> option Z) (max_digits : nat)
    (pat : pattern) (gid : nat) (buf : Buffer) (blocks : list ASTBlock)
    (b : ASTBlock) :
  starts_with_One pat -> digit_values decimal ->
  scan decimal max_digits pat gid buf 0 = Blocks blocks ->
  In b blocks -> (0 <= block_id b)%Z.
Proof.
  intros Hpat Hd Hscan Hb.
  pose proof (extract_blocks_loop_headers decimal max_digits pat gid buf Hpat
                (length buf) 0 blocks Hscan) as Hh.
  rewrite Forall_forall in Hh.
  destruct (Hh b Hb) as (ls & _ & _ & _ & Hid).
  exact (int_nonneg decimal max_digits _ _ Hd Hid).
Qed.

(** X4. When every decimal digit has a value from 0 to 9, the id of a located
    block is not negative. *)
Theorem block_ids_nonnegative (decimal : char -> option Z)
    (max_digits : nat) (buffer : Buffer) (blocks : list ASTBlock)
    (b : ASTBlock) :
  digit_values decimal ->
  extract_blocks_to decimal max_digits buffer = Blocks blocks \/
  extract_blocks_from decimal max_digits buffer = Blocks blocks ->
  In b blocks ->
  (0 <= block_id b)%Z.
Proof.
  intros Hd [H|H].
  - exact (located_ids_nonneg decimal max_digits (block_pattern_to decimal) 6
             buffer blocks b I Hd H).
  - exact (located_ids_nonneg decimal max_digits (block_pattern_from decimal)
             4 buffer blocks b I Hd H).
Qed.

Lemma ascii_digit_values : digit_values ascii_decimal.
Proof.
  intros c v. unfold ascii_decimal.
  destruct ((48 <=? c)%N && (c <=? 57)%N) eqn:E; [|discriminate].
  apply andb_true_iff in E. destruct E as [E1 E2].
  apply N.leb_le in E1, E2. intros [= <-]. lia.
Qed.

Lemma block_ids_nonnegative_witness :
  let blocks :=
    blocks_of (extract_blocks_to ascii_decimal default_max_str_digits
                 sample_broken) in
  (0 <= block_id (block_of (blocks_dict blocks) 2%Z))%Z.
Proof.
  intros blocks.
  apply (block_ids_nonnegative ascii_decimal default_max_str_digits
           sample_broken blocks).
  - exact ascii_digit_values.
  - left. vm_compute. reflexivity.
  - vm_compute. right. right. left. reflexivity.
Defined.

(** ** The two lists of unmatched ids *)

Lemma unmatched_from_of_spec (to_blocks from_blocks : list ASTBlock) :
  NoDup (unmatched_from_of (blocks_dict to_blocks) (blocks_dict from_blocks)) /\
  forall s,
    In s (unmatched_from_of (blocks_dict to_blocks) (blocks_dict from_blocks))
    <-> In s (map block_id from_blocks)
        /\ ~ In (s - 1)%Z (map block_id to_blocks).
Proof.
  split.
  - apply NoDup_filter, blocks_dict_NoDup.
  - intros s. unfold unmatched_from_of.
    rewrite filter_In, blocks_dict_keys, negb_true_iff.
    rewrite <- (blocks_dict_keys to_blocks), <- mem_keys.
    destruct (Dict.mem Z.eqb (s - 1)%Z (blocks_dict to_blocks));
      intuition congruence.
Qed.

(** X5. A source id is reported as unmatched exactly when a source block
    carries it and no target block carries the id before it; no id is
    reported twice. *)
Theorem unmatched_from_spec (to_blocks from_blocks : list ASTBlock)
    (replacements : Replacements) (unmatched_to unmatched_from : list Z) :
  correlate to_blocks from_blocks
  = (replacements, unmatched_to, unmatched_from) ->
  NoDup unmatched_from /\
  forall s,
    In s unmatched_from
    <-> In s (map block_id from_blocks)
        /\ ~ In (s - 1)%Z (map block_id to_blocks).
Proof.
  unfold correlate.
  destruct (fold_left _ _ _) as [reps um]. intros [= _ _ <-].
  apply unmatched_from_of_spec.
Qed.

Lemma unmatched_from_spec_witness :
  NoDup [4%Z] /\
  forall s,
    In s [4%Z]
    <-> In s (map block_id
                (blocks_of (extract_blocks_from ascii_decimal
                   default_max_str_digits sample_source_124)))
        /\ ~ In (s - 1)%Z
               (map block_id
                  (blocks_of (extract_blocks_to ascii_decimal
                   default_max_str_digits sample_target_012))).
Proof.
  apply (unmatched_from_spec
           (blocks_of (extract_blocks_to ascii_decimal
                   default_max_str_digits sample_target_012))
           (blocks_of (extract_blocks_from ascii_decimal
                   default_max_str_digits sample_source_124))
           [(21, (31, str "ja = { p }")); (57, (67, str "ja = { q }"))]
           [2%Z]).
  vm_compute. reflexivity.
Defined.

(** X6. A source block of id 0 is always reported as unmatched: the target
    id it would pair with is negative, and no located block has one. *)
Theorem source_id_zero_unmatched (decimal : char -> option Z)
    (max_digits : nat) (target source : Buffer)
    (to_blocks from_blocks : list ASTBlock)
    (replacements : Replacements) (unmatched_to unmatched_from : list Z) :
  digit_values decimal ->
  extract_blocks_to decimal max_digits target = Blocks to_blocks ->
  extract_blocks_from decimal max_digits source = Blocks from_blocks ->
  correlate to_blocks from_blocks
  = (replacements, unmatched_to, unmatched_from) ->
  In 0%Z (map block_id from_blocks) ->
  In 0%Z unmatched_from.
Proof.
  intros Hd Hto Hfrom Hc H0. unfold correlate in Hc.
  destruct (fold_left _ _ _) as [reps um]. injection Hc as _ _ <-.
  apply unmatched_from_of_spec. split; [assumption|].
  intros Hneg. apply in_map_iff in Hneg. destruct Hneg as (b & Hid & Hb).
  pose proof (located_ids_nonneg decimal max_digits (block_pattern_to decimal)
                6 target to_blocks b I Hd Hto Hb). lia.
Qed.

(** An id is among the unmatched target ids exactly when the lookup has a
    target block for it and either the source block of the next id is
    missing, or the source text was harvested and the target block has no
    [ja] subsection. *)
Lemma unmatched_to_of_spec (to_blocks from_blocks : list ASTBlock) :
  NoDup (flat_map (unmatched_of (blocks_dict from_blocks))
           (blocks_dict to_blocks)) /\
  forall t,
    In t (flat_map (unmatched_of (blocks_dict from_blocks))
            (blocks_dict to_blocks))
    <-> exists tb,
          Dict.get Z.eqb t (blocks_dict to_blocks) = Some tb /\
          (Dict.get Z.eqb (t + 1)%Z (blocks_dict from_blocks) = None \/
           exists fb en,
             Dict.get Z.eqb (t + 1)%Z (blocks_dict from_blocks) = Some fb /\
             extract_en_section (content fb) = Some en /\
             extract_ja_section (content tb) = None).
Proof.
  split; [apply unmatched_NoDup, blocks_dict_NoDup|].
  intros t. rewrite in_flat_map. split.
  - intros ([k tb] & Hi & Hin).
    assert (Hg : Dict.get Z.eqb k (blocks_dict to_blocks) = Some tb)
      by (apply (In_get _ _ Z.eqb Z_eqb_spec);
          [apply blocks_dict_NoDup|assumption]).
    revert Hin. unfold unmatched_of. cbn [fst snd].
    destruct (Dict.get Z.eqb (k + 1)%Z (blocks_dict from_blocks)) as [fb|] eqn:Ef.
    + destruct (extract_en_section (content fb)) as [en|] eqn:Een;
        [|intros []].
      destruct (extract_ja_section (content tb)) eqn:Eja; [intros []|].
      intros [<-|[]]. exists tb. split; [assumption|]. right.
      now exists fb, en.
    + intros [<-|[]]. exists tb. split; [assumption|]. now left.
  - intros (tb & Hg & Hcase). exists (t, tb).
    split; [now apply (get_In _ _ Z.eqb Z_eqb_spec)|].
    unfold unmatched_of. cbn [fst snd].
    destruct Hcase as [Hn|(fb & en & Hf & Hen & Hja)].
    + rewrite Hn. now left.
    + rewrite Hf, Hen, Hja. now left.
Qed.

(** X7. A target id is reported as unmatched exactly when the lookup has a
    target block for it and either no source block carries the next id, or
    the source text was harvested and the target block has no [ja]
    subsection; no id is reported twice. *)
Theorem unmatched_to_spec (to_blocks from_blocks : list ASTBlock)
    (replacements : Replacements) (unmatched_to unmatched_from : list Z) :
  correlate to_blocks from_blocks
  = (replacements, unmatched_to, unmatched_from) ->
  NoDup unmatched_to /\
  forall t,
    In t unmatched_to
    <-> exists tb,
          Dict.get Z.eqb t (blocks_dict to_blocks) = Some tb /\
          (Dict.get Z.eqb (t + 1)%Z (blocks_dict from_blocks) = None \/
           exists fb en,
             Dict.get Z.eqb (t + 1)%Z (blocks_dict from_blocks) = Some fb /\
             extract_en_section (content fb) = Some en /\
             extract_ja_section (content tb) = None).
Proof.
  unfold correlate. rewrite match_block_fold. intros [= _ <- _].
  cbn [app]. apply unmatched_to_of_spec.
Qed.

Lemma unmatched_to_spec_witness :
  NoDup [0%Z].
Proof.
  apply (unmatched_to_spec
           (blocks_of (extract_blocks_to ascii_decimal default_max_str_digits
                         sample_to_gaps))
           (blocks_of (extract_blocks_from ascii_decimal
                         default_max_str_digits sample_from_gaps))
           [] [0%Z] []).
  vm_compute. reflexivity.
Defined.

Lemma source_id_zero_unmatched_witness : In 0%Z [0%Z].
Proof.
  apply (source_id_zero_unmatched ascii_decimal default_max_str_digits
           sample_target_012 sample_source_0
           (blocks_of (extract_blocks_to ascii_decimal default_max_str_digits
                         sample_target_012))
           (blocks_of (extract_blocks_from ascii_decimal
                         default_max_str_digits sample_source_0))
           [] [0; 1; 2]%Z [0%Z]).
  - exact ascii_digit_values.
  - vm_compute. reflexivity.
  - vm_compute. reflexivity.
  - vm_compute. reflexivity.
  - vm_compute. left. reflexivity.
Defined.

(** ** The replacement loop *)

Lemma apply_keys_total (replacements : Replacements) (keys : list nat)
    (buffer : Buffer) :
  (forall k, In k keys -> In k (Dict.keys replacements)) ->
  exists result,
    fold_left
      (fun acc start_pos =>
         match acc with
         | None => None
         | Some result_chars =>
             match Dict.get Nat.eqb start_pos replacements with
             | Some (end_pos, replacement) =>
                 Some (slice_assign result_chars start_pos end_pos replacement)
             | None => None
             end
         end)
      keys (Some buffer)
    = Some result.
Proof.
  revert buffer; induction keys as [|k keys IH]; intros buffer Hin.
  - now exists buffer.
  - cbn [fold_left].
    destruct (Dict.get Nat.eqb k replacements) as [[e r]|] eqn:E.
    + apply IH. intros k' Hk'. apply Hin. now right.
    + apply (get_None _ _ Nat.eqb Nat_eqb_spec) in E.
      exfalso. apply E, Hin. now left.
Qed.

(** X8. The loop over the sorted keys never fails to find a key: for every
    buffer and every dictionary of replacements it returns a buffer. *)
Theorem apply_edits_never_fails (buffer : Buffer)
    (replacements : Replacements) :
  exists result, apply_edits buffer replacements = Some result.
Proof.
  unfold apply_edits. apply apply_keys_total.
  intros k Hk. now apply (Permutation_in _ (sorted_reverse_perm _)).
Qed.

Lemma reconstruct_from_length (buffer : Buffer) (cursor : nat)
    (edits : list Edit) :
  in_order (length buffer) cursor edits ->
  length (reconstruct_from buffer cursor edits) + replaced_length edits + cursor
  = length buffer + replacement_length edits.
Proof.
  unfold replaced_length, replacement_length.
  revert cursor; induction edits as [|[s [e r]] edits IH]; intros cursor;
    cbn [reconstruct_from in_order map list_sum fold_right fst snd].
  - intros H. rewrite length_skipn. lia.
  - intros (H1 & H2 & H3). pose proof (in_order_le _ _ _ H3) as He.
    specialize (IH e H3). fold (list_sum (map (fun x : Edit => fst (snd x) - fst x) edits)) in *.
    fold (list_sum (map (fun x : Edit => length (snd (snd x))) edits)) in *.
    rewrite !length_app, slice_length by lia. lia.
Qed.

(** X9. For edits that are in order, the result is as long as the buffer,
    less the characters replaced, plus the characters put in their place. *)
Theorem apply_edits_length (buffer : Buffer) (replacements : Replacements)
    (edits : list Edit) (result : Buffer) :
  NoDup (Dict.keys replacements) ->
  Permutation edits replacements ->
  in_order (length buffer) 0 edits ->
  apply_edits buffer replacements = Some result ->
  length result + replaced_length edits
  = length buffer + replacement_length edits.
Proof.
  intros Hnd Hp Hord Ha.
  rewrite (apply_edits_in_order buffer replacements edits Hnd Hp Hord) in Ha.
  injection Ha as <-.
  pose proof (reconstruct_from_length buffer 0 edits Hord) as H.
  unfold reconstruct. lia.
Qed.

Lemma apply_edits_length_witness :
  length (str "0123456789XXXXXXXXXXfghijYmnopqrst")
  + replaced_length [(10, (15, str "XXXXXXXXXX")); (20, (22, str "Y"))]
  = length (str "0123456789abcdefghijklmnopqrst")
    + replacement_length [(10, (15, str "XXXXXXXXXX")); (20, (22, str "Y"))].
Proof.
  apply (apply_edits_length (str "0123456789abcdefghijklmnopqrst")
           [(10, (15, str "XXXXXXXXXX")); (20, (22, str "Y"))]).
  - constructor; [simpl; lia|constructor; [simpl; tauto|constructor]].
  - reflexivity.
  - simpl. lia.
  - vm_compute. reflexivity.
Defined.

Lemma reconstruct_from_same (buffer : Buffer) (cursor : nat)
    (edits : list Edit) :
  in_order (length buffer) cursor edits ->
  (forall x, In x edits -> snd (snd x) = slice buffer (fst x) (fst (snd x))) ->
  reconstruct_from buffer cursor edits = skipn cursor buffer.
Proof.
  revert cursor; induction edits as [|[s [e r]] edits IH]; intros cursor;
    cbn [reconstruct_from in_order]; [reflexivity|].
  intros (H1 & H2 & H3) Hsame.
  rewrite (IH e H3) by (intros x Hx; apply Hsame; now right).
  pose proof (Hsame (s, (e, r)) ltac:(now left)) as Hr. cbn [fst snd] in Hr.
  rewrite Hr. unfold slice. symmetry.
  rewrite <- (firstn_skipn (s - cursor) (skipn cursor buffer)) at 1.
  f_equal. rewrite skipn_skipn.
  replace (s - cursor + cursor) with s by lia.
  rewrite <- (firstn_skipn (e - s) (skipn s buffer)) at 1.
  f_equal. rewrite skipn_skipn. f_equal. lia.
Qed.

(** X10. Replacing every span by the text it already holds gives the buffer
    back. *)
Theorem apply_edits_same_text (buffer : Buffer) (replacements : Replacements)
    (edits : list Edit) :
  NoDup (Dict.keys replacements) ->
  Permutation edits replacements ->
  in_order (length buffer) 0 edits ->
  (forall x, In x edits -> snd (snd x) = slice buffer (fst x) (fst (snd x))) ->
  apply_edits buffer replacements = Some buffer.
Proof.
  intros Hnd Hp Hord Hsame.
  rewrite (apply_edits_in_order buffer replacements edits Hnd Hp Hord).
  unfold reconstruct. now rewrite reconstruct_from_same.
Qed.

Lemma apply_edits_same_text_witness :
  apply_edits (str "0123456789abcdefghij")
    [(12, (15, str "cde")); (3, (5, str "34"))]
  = Some (str "0123456789abcdefghij").
Proof.
  apply (apply_edits_same_text (str "0123456789abcdefghij")
           [(12, (15, str "cde")); (3, (5, str "34"))]
           [(3, (5, str "34")); (12, (15, str "cde"))]).
  - constructor; [simpl; lia|constructor; [simpl; tauto|constructor]].
  - apply perm_swap.
  - simpl. lia.
  - intros x [<-|[<-|[]]]; reflexivity.
Defined.

(** ** What one call of [process_file] does to the processor *)

Section ProcessShape.

Variable decimal : char -> option Z.
Variable max_digits : nat.
Variable int_error : Buffer -> string.

Ltac shape_leaf :=
  intros [= <- <- <-]; cbn [record_failure record_mismatch record_success
    mismatched_files failed_files successful_files];
  (split;
   [first [ exists []; rewrite app_nil_r; split; [reflexivity|];
            split; [simpl; lia|intros ? []]
          | eexists [_]; split; [reflexivity|];
            split; [simpl; lia|intros ? [<-|[]]; reflexivity] ]
   | first [ left; split; [reflexivity|]; split; [eexists; reflexivity|];
             split; reflexivity
           | right; split; [reflexivity|]; split; [reflexivity|];
             split; [reflexivity|eexists; reflexivity] ] ]).

Lemma process_file_shape (self : Processor) (name : string)
    (to_read from_read : read_result) (write_raises : option string)
    (self' : Processor) (ok : bool) (out : option Buffer) :
  process_file decimal max_digits int_error self name to_read from_read
    write_raises
  = (self', ok, out) ->
  (exists more,
     mismatched_files self' = mismatched_files self ++ more /\
     length more <= 1 /\
     forall e, In e more -> fst (fst (fst e)) = name) /\
  ((ok = true /\ (exists result, out = Some result) /\
    successful_files self' = successful_files self ++ [name] /\
    failed_files self' = failed_files self) \/
   (ok = false /\ out = None /\
    successful_files self' = successful_files self /\
    exists error_msg,
      failed_files self' = failed_files self ++ [(name, error_msg)])).
Proof.
  unfold process_file, failure.
  destruct to_read as [to_content|]; [|shape_leaf].
  destruct from_read as [from_content|]; [|shape_leaf].
  destruct (extract_blocks_to decimal max_digits to_content)
    as [to_blocks|]; [|shape_leaf].
  destruct (extract_blocks_from decimal max_digits from_content)
    as [from_blocks|]; [|shape_leaf].
  destruct (is_nil to_blocks); [shape_leaf|].
  destruct (is_nil from_blocks); [shape_leaf|].
  destruct (correlate _ _) as [[reps um] uf].
  destruct (is_nil um && is_nil uf);
    (destruct (is_nil reps); [shape_leaf|]);
    (destruct (apply_edits to_content reps) as [result|]; [|shape_leaf]);
    (destruct (negb (contains (str "astver") (firstn 200 result))
               || negb (contains (str "ast = {") (firstn 300 result)));
     [shape_leaf|]);
    (destruct write_raises; shape_leaf).
Qed.

(** X11. Every call of [process_file] either returns [True], writes a text
    and appends the name to the successful files, leaving the failures as
    they were, or returns [False], writes nothing and appends exactly one
    failure for the name, leaving the successful files as they were. In both
    cases the earlier entries of the three lists stay, and at most one
    mismatch entry, for that name, is appended. *)
Theorem process_file_outcome (self : Processor) (name : string)
    (to_read from_read : read_result) (write_raises : option string)
    (self' : Processor) (ok : bool) (out : option Buffer) :
  process_file decimal max_digits int_error self name to_read from_read
    write_raises
  = (self', ok, out) ->
  (exists more,
     mismatched_files self' = mismatched_files self ++ more /\
     length more <= 1 /\
     forall e, In e more -> fst (fst (fst e)) = name) /\
  ((ok = true /\ (exists result, out = Some result) /\
    successful_files self' = successful_files self ++ [name] /\
    failed_files self' = failed_files self) \/
   (ok = false /\ out = None /\
    successful_files self' = successful_files self /\
    exists error_msg,
      failed_files self' = failed_files self ++ [(name, error_msg)])).
Proof. apply process_file_shape. Qed.

(** X12. When both files have blocks, the mismatch entry depends on the two
    lists of unmatched ids alone, whatever becomes of the file afterwards:
    none when both lists are empty, otherwise one entry with the name, the
    numbers of blocks located in the two files and the unmatched target ids
    followed by the unmatched source ids. When a read raises or one file
    has no block, no entry is made. *)
Theorem mismatch_entry (self : Processor) (name : string)
    (to_read from_read : read_result) (write_raises : option string) :
  (forall to_content from_content to_blocks from_blocks
          replacements unmatched_to unmatched_from,
     to_read = ReadOk to_content -> from_read = ReadOk from_content ->
     extract_blocks_to decimal max_digits to_content = Blocks to_blocks ->
     extract_blocks_from decimal max_digits from_content
     = Blocks from_blocks ->
     to_blocks <> [] ->
     from_blocks <> [] ->
     correlate to_blocks from_blocks
     = (replacements, unmatched_to, unmatched_from) ->
     mismatched_files
       (fst (fst (process_file decimal max_digits int_error self name
                    to_read from_read write_raises)))
     = mismatched_files self
       ++ (if is_nil (unmatched_to ++ unmatched_from) then []
           else [(name, length to_blocks, length from_blocks,
                  unmatched_to ++ unmatched_from)])) /\
  ((forall to_content from_content to_blocks from_blocks,
      to_read = ReadOk to_content -> from_read = ReadOk from_content ->
      extract_blocks_to decimal max_digits to_content = Blocks to_blocks ->
      extract_blocks_from decimal max_digits from_content
      = Blocks from_blocks ->
      to_blocks = [] \/ from_blocks = []) ->
   mismatched_files
     (fst (fst (process_file decimal max_digits int_error self name
                  to_read from_read write_raises)))
   = mismatched_files self).
Proof.
  split.
  - intros to_content from_content to_blocks from_blocks reps um uf
      -> -> Hto Hfrom Ht Hf Hc.
    unfold process_file, failure. rewrite Hto, Hfrom.
    destruct to_blocks as [|tb tbs]; [now contradiction Ht|].
    destruct from_blocks as [|fb fbs]; [now contradiction Hf|].
    cbn [is_nil]. rewrite Hc.
    assert (Hnil : is_nil um && is_nil uf = is_nil (um ++ uf))
      by (destruct um, uf; reflexivity).
    rewrite <- Hnil.
    destruct (is_nil um && is_nil uf);
      (destruct (is_nil reps); [cbn; now rewrite ?app_nil_r|]);
      (destruct (apply_edits to_content reps) as [result|];
       [|cbn; now rewrite ?app_nil_r]);
      (destruct (negb (contains (str "astver") (firstn 200 result))
                 || negb (contains (str "ast = {") (firstn 300 result)));
       [cbn; now rewrite ?app_nil_r|]);
      (destruct write_raises; cbn; now rewrite ?app_nil_r).
  - intros Hnone. unfold process_file, failure.
    destruct to_read as [to_content|]; [|reflexivity].
    destruct from_read as [from_content|]; [|reflexivity].
    destruct (extract_blocks_to decimal max_digits to_content)
      as [to_blocks|] eqn:Hto; [|reflexivity].
    destruct (extract_blocks_from decimal max_digits from_content)
      as [from_blocks|] eqn:Hfrom; [|reflexivity].
    destruct (Hnone to_content from_content to_blocks from_blocks
                eq_refl eq_refl Hto Hfrom) as [-> | ->].
    + reflexivity.
    + now destruct (is_nil to_blocks).
Qed.

End ProcessShape.

Lemma process_file_outcome_witness :
  exists error_msg,
    failed_files
      (fst (fst (process_file ascii_decimal default_max_str_digits
                   sample_int_error no_files "demo.ast"
                   (ReadOk sample_to_gaps) (ReadOk sample_from_gaps) None)))
    = failed_files no_files ++ [("demo.ast"%string, error_msg)].
Proof.
  destruct (process_file_outcome ascii_decimal default_max_str_digits
              sample_int_error no_files "demo.ast"
              (ReadOk sample_to_gaps) (ReadOk sample_from_gaps) None
              (fst (fst (process_file ascii_decimal default_max_str_digits
                           sample_int_error no_files "demo.ast"
                           (ReadOk sample_to_gaps) (ReadOk sample_from_gaps)
                           None)))
              false None ltac:(vm_compute; reflexivity))
    as (_ & [(H & _)|(_ & _ & _ & H)]); [discriminate|exact H].
Defined.

Lemma mismatch_entry_witness :
  let to_blocks :=
    blocks_of (extract_blocks_to ascii_decimal default_max_str_digits
                 sample_to_gaps) in
  let from_blocks :=
    blocks_of (extract_blocks_from ascii_decimal default_max_str_digits
                 sample_from_gaps) in
  mismatched_files
    (fst (fst (process_file ascii_decimal default_max_str_digits
                 sample_int_error no_files "demo.ast"
                 (ReadOk sample_to_gaps) (ReadOk sample_from_gaps) None)))
  = mismatched_files no_files
    ++ (if is_nil ([0%Z] ++ []) then []
        else [("demo.ast"%string, length to_blocks, length from_blocks,
               [0%Z] ++ [])]).
Proof.
  intros to_blocks from_blocks.
  apply (proj1 (mismatch_entry ascii_decimal default_max_str_digits
                  sample_int_error no_files "demo.ast"
                  (ReadOk sample_to_gaps) (ReadOk sample_from_gaps) None)
           sample_to_gaps sample_from_gaps to_blocks from_blocks
           [] [0%Z] []).
  - reflexivity.
  - reflexivity.
  - vm_compute. reflexivity.
  - vm_compute. reflexivity.
  - vm_compute. discriminate.
  - vm_compute. discriminate.
  - vm_compute. reflexivity.
Defined.

(** ** The batch loop of [main] *)

Section MainLoop.

Variable decimal : char -> option Z.
Variable max_digits : nat.
Variable int_error : Buffer -> string.

Lemma main_step_shape (p0 : Processor) (n0 : nat)
    (w0 : list (string * Buffer)) (f : FileEnv)
    (p1 : Processor) (n1 : nat) (w1 : list (string * Buffer)) :
  main_step decimal max_digits int_error (p0, n0, w0) f = (p1, n1, w1) ->
  (exists more, mismatched_files p1 = mismatched_files p0 ++ more /\
                length more <= 1) /\
  ((successful_files p1 = successful_files p0 ++ [file_name f] /\
    failed_files p1 = failed_files p0 /\
    n1 = S n0 /\
    map fst w1 = map fst w0 ++ [file_name f] /\
    from_exists f = true) \/
   (successful_files p1 = successful_files p0 /\
    (exists error_msg,
       failed_files p1 = failed_files p0 ++ [(file_name f, error_msg)] /\
       (from_exists f = false ->
        error_msg = "No matching file in FROM folder"%string)) /\
    n1 = n0 /\ w1 = w0)).
Proof.
  unfold main_step.
  destruct (from_exists f) eqn:Hex; cbn [negb].
  - destruct (process_file decimal max_digits int_error p0 (file_name f)
                (to_read f) (from_read f) (write_raises f))
      as [[p' ok] out] eqn:Hp.
    apply process_file_shape in Hp.
    destruct Hp as [(more & Hm & Hl & _) [(-> & (result & ->) & Hs & Hf)
                                         |(-> & -> & Hs & msg & Hf)]];
      intros [= <- <- <-].
    + split; [now exists more|]. left.
      repeat split; try assumption. now rewrite map_app.
    + split; [now exists more|]. right.
      repeat split; try assumption.
      exists msg. split; [assumption|discriminate].
  - intros [= <- <- <-]. split.
    + exists []. cbn. rewrite app_nil_r. split; [reflexivity|lia].
    + right. repeat split. eexists. split; reflexivity.
Qed.

Lemma main_fold (files : list FileEnv) :
  forall (p0 : Processor) (n0 : nat) (w0 : list (string * Buffer))
         (p : Processor) (n : nat) (w : list (string * Buffer)),
  fold_left (main_step decimal max_digits int_error) files (p0, n0, w0)
  = (p, n, w) ->
  exists successes failures mismatches,
    successful_files p = successful_files p0 ++ successes /\
    failed_files p = failed_files p0 ++ failures /\
    mismatched_files p = mismatched_files p0 ++ mismatches /\
    n = n0 + length successes /\
    map fst w = map fst w0 ++ successes /\
    length mismatches <= length files /\
    Permutation (successes ++ map fst failures) (map file_name files) /\
    (forall name, In name successes ->
       exists f, In f files /\ file_name f = name /\ from_exists f = true) /\
    (forall f, In f files -> from_exists f = false ->
       In (file_name f, "No matching file in FROM folder"%string) failures).
Proof.
  induction files as [|f files IH]; intros p0 n0 w0 p n w.
  - cbn [fold_left]. intros [= <- <- <-].
    exists [], [], []. rewrite !app_nil_r.
    repeat apply conj; try reflexivity; try (cbn; lia).
  - cbn [fold_left].
    destruct (main_step decimal max_digits int_error (p0, n0, w0) f)
      as [[p1 n1] w1] eqn:Hstep.
    intros Hfold.
    apply main_step_shape in Hstep.
    destruct (IH _ _ _ _ _ _ Hfold)
      as (ss & fs & ms & Hs & Hf & Hm & Hn & Hw & Hl & Hperm & Hsrc & Hmiss).
    destruct Hstep as [(m1 & Hm1 & Hl1) [(Hs1 & Hf1 & -> & Hw1 & Hex)
                                        |(Hs1 & (msg & Hf1 & Hmsg) & -> & ->)]].
    + exists (file_name f :: ss), fs, (m1 ++ ms).
      rewrite Hs, Hs1, Hf, Hf1, Hm, Hm1, Hw, Hw1, <- !app_assoc.
      do 3 (split; [reflexivity|]).
      split; [cbn [length]; lia|].
      split; [reflexivity|].
      split; [rewrite length_app; cbn [length]; lia|].
      split; [cbn [app map]; now constructor|].
      split.
      * intros name [<- | Hin].
        -- exists f. repeat split; [now left|assumption].
        -- destruct (Hsrc name Hin) as (g & Hg & Hgn & Hge).
           exists g. repeat split; [now right|assumption|assumption].
      * intros g [<- | Hg] Hgex; [congruence|]. now apply Hmiss.
    + exists ss, ((file_name f, msg) :: fs), (m1 ++ ms).
      rewrite Hs, Hs1, Hf, Hf1, Hm, Hm1, Hw, <- !app_assoc.
      do 3 (split; [reflexivity|]).
      split; [exact Hn|].
      split; [reflexivity|].
      split; [rewrite length_app; cbn [length]; lia|].
      split; [cbn [map fst]; apply Permutation_sym, Permutation_cons_app;
              now apply Permutation_sym|].
      split.
      * intros name Hin.
        destruct (Hsrc name Hin) as (g & Hg & Hgn & Hge).
        exists g. repeat split; [now right|assumption|assumption].
      * intros g [<- | Hg] Hgex.
        -- left. now rewrite (Hmsg Hgex).
        -- right. now apply Hmiss.
Qed.

(** X13. The loop of [main] accounts for every target file exactly once:
    the names of the successful files followed by the names of the failed
    files are the names of the target files, up to order, so that
    [total_files] of the summary is the number of target files;
    [success_count] is the number of successful files, and there are at
    most as many mismatch entries as target files. *)
Theorem main_loop_accounts (to_files : list FileEnv) :
  let '(processor, success_count, written) :=
    main_loop decimal max_digits int_error to_files in
  Permutation
    (successful_files processor ++ map fst (failed_files processor))
    (map file_name to_files) /\
  total_files processor = length to_files /\
  success_count = length (successful_files processor) /\
  length (mismatched_files processor) <= length to_files.
Proof.
  unfold main_loop.
  destruct (fold_left (main_step decimal max_digits int_error) to_files
              (no_files, 0, []))
    as [[p n] w] eqn:Hfold.
  apply main_fold in Hfold.
  destruct Hfold
    as (ss & fs & ms & Hs & Hf & Hm & Hn & Hw & Hl & Hperm & Hsrc & Hmiss).
  cbn in Hs, Hf, Hm, Hn, Hw. subst n.
  unfold total_files. rewrite Hs, Hf, Hm.
  repeat split; try assumption.
  apply Permutation_length in Hperm.
  rewrite length_app, !length_map in Hperm. exact Hperm.
Qed.

(** X14. The files written by the loop of [main] are, in order, the
    successful files, each of which has its counterpart in the source
    folder; the exit status is 0 exactly when a file was written, and 1
    otherwise. *)
Theorem main_exit_status (to_files : list FileEnv) :
  let '(processor, success_count, written) :=
    main_loop decimal max_digits int_error to_files in
  map fst written = successful_files processor /\
  (forall name, In name (map fst written) ->
     exists f, In f to_files /\ file_name f = name /\ from_exists f = true) /\
  (exit_status success_count = 0%Z <-> written <> []) /\
  (exit_status success_count = 1%Z <-> written = []).
Proof.
  unfold main_loop.
  destruct (fold_left (main_step decimal max_digits int_error) to_files
              (no_files, 0, []))
    as [[p n] w] eqn:Hfold.
  apply main_fold in Hfold.
  destruct Hfold
    as (ss & fs & ms & Hs & Hf & Hm & Hn & Hw & Hl & Hperm & Hsrc & Hmiss).
  cbn in Hs, Hf, Hm, Hn, Hw. subst n.
  rewrite Hs, Hw. split; [reflexivity|]. split; [exact Hsrc|].
  unfold exit_status.
  assert (Hlen : length w = length ss)
    by (rewrite <- Hw; symmetry; apply length_map).
  rewrite <- Hlen. cbn [Nat.add].
  destruct w as [|x w]; cbn [length Nat.ltb Nat.leb]; split; split;
    try discriminate; try reflexivity; intros H; try discriminate;
    now contradiction H.
Qed.

(** X15. A target file without a counterpart in the source folder is
    listed among the failures with the message of line 388, is not
    processed, and is never among the successful files when no other target
    file has its name. *)
Theorem missing_source_file_fails (to_files : list FileEnv) (f : FileEnv) :
  In f to_files -> from_exists f = false ->
  let '(processor, success_count, written) :=
    main_loop decimal max_digits int_error to_files in
  In (file_name f, "No matching file in FROM folder"%string)
     (failed_files processor) /\
  (NoDup (map file_name to_files) ->
   ~ In (file_name f) (successful_files processor)).
Proof.
  intros Hin Hex. unfold main_loop.
  destruct (fold_left (main_step decimal max_digits int_error) to_files
              (no_files, 0, []))
    as [[p n] w] eqn:Hfold.
  apply main_fold in Hfold.
  destruct Hfold
    as (ss & fs & ms & Hs & Hf & Hm & Hn & Hw & Hl & Hperm & Hsrc & Hmiss).
  cbn in Hs, Hf, Hm, Hn, Hw. rewrite Hs, Hf. split.
  - now apply Hmiss.
  - intros Hnd Hss.
    destruct (Hsrc _ Hss) as (g & Hg & Hgn & Hge).
    assert (g = f); [|congruence].
    clear - Hnd Hg Hin Hgn.
    induction to_files as [|x xs IH]; [destruct Hin|].
    cbn [map] in Hnd. inversion Hnd as [|? ? Hx Hxs]; subst.
    destruct Hg as [<- | Hg], Hin as [<- | Hin].
    + reflexivity.
    + exfalso. apply Hx. rewrite Hgn. now apply in_map.
    + exfalso. apply Hx. rewrite <- Hgn. now apply in_map.
    + now apply IH.
Qed.

End MainLoop.

Lemma missing_source_file_fails_witness :
  let f := {| file_name := "b.ast"; from_exists := false;
              to_read := ReadOk sample_to; from_read := ReadRaises "absent";
              write_raises := None |} in
  let g := {| file_name := "a.ast"; from_exists := true;
              to_read := ReadOk sample_to; from_read := ReadOk sample_from;
              write_raises := None |} in
  let '(processor, success_count, written) :=
    main_loop ascii_decimal default_max_str_digits sample_int_error
      [g; f] in
  In (file_name f, "No matching file in FROM folder"%string)
     (failed_files processor) /\
  (NoDup (map file_name [g; f]) ->
   ~ In (file_name f) (successful_files processor)).
Proof.
  intros f g.
  apply (missing_source_file_fails ascii_decimal default_max_str_digits
           sample_int_error [g; f] f).
  - right. left. reflexivity.
  - reflexivity.
Defined.

(** ** The shape of a subsection *)

(** X16. The text [extract_ja_section] returns is a [ja] construct on its
    own: the letters j and a in either case, optional whitespace, an equals
    sign, optional whitespace, an opening brace, and it ends with the
    closing brace that the delimiter matcher pairs with that opening brace
    when run on the returned text alone. *)
Theorem ja_section_shape (block_content : Buffer) (a b : nat) (x : Buffer) :
  extract_ja_section block_content = Some (a, b, x) ->
  (exists c1 c2 ws ws' body,
     x = c1 :: c2 :: ws ++ chr "=" :: ws' ++ lbrace :: body /\
     ci "j" c1 = true /\ ci "a" c2 = true /\
     Forall (holds is_space) ws /\ Forall (holds is_space) ws' /\
     find_matching_brace x (3 + length ws + length ws') = Some (length x)) /\
  (exists x', x = x' ++ [rbrace]).
Proof.
  rewrite extract_ja_section_find. exact (subsection_shape _ _ _ _ _ _).
Qed.

Lemma ja_section_shape_witness :
  exists x',
    str "ja = { p }" = x' ++ [rbrace].
Proof.
  exact (proj2 (ja_section_shape (str "text = { ja = { p } en = { q } }") 9 19
                  (str "ja = { p }") ltac:(vm_compute; reflexivity))).
Defined.

Lemma en_section_plain (block_content : Buffer) (a b : nat) (x : Buffer) :
  find_subsection en_pattern block_content = Some (a, b, x) ->
  search name_pattern x = None ->
  exists c1 c2 ws ws' body,
    x = c1 :: c2 :: ws ++ chr "=" :: ws' ++ lbrace :: body /\
    ci "e" c1 = true /\ ci "n" c2 = true /\
    Forall (holds is_space) ws /\ Forall (holds is_space) ws' /\
    extract_en_section block_content
    = Some (str "ja =" ++ ws' ++ lbrace :: body) /\
    find_matching_brace (str "ja =" ++ ws' ++ lbrace :: body)
      (4 + length ws')
    = Some (length (str "ja =" ++ ws' ++ lbrace :: body)).
Proof.
  intros Hf Hnone.
  destruct (subsection_shape _ _ _ _ _ _ Hf)
    as [(c1 & c2 & ws & ws' & body & Hx & H1 & H2 & Hws & Hws' & Hbal) _].
  exists c1, c2, ws, ws', body.
  split; [assumption|]. do 4 (split; [assumption|]). split.
  - rewrite extract_en_section_find, Hf. cbn [option_map].
    rewrite sub_no_match by assumption. rewrite Hx.
    now rewrite retag_tag.
  - assert (Lx : length x = 3 + length ws + length ws' + S (length body)).
    { rewrite Hx. cbn [length]. rewrite length_app. cbn [length].
      rewrite length_app. cbn [length]. lia. }
    assert (Lr : length (str "ja =" ++ ws' ++ lbrace :: body)
                 = 4 + length ws' + S (length body)).
    { rewrite !length_app. change (length (str "ja =")) with 4.
      cbn [length]. lia. }
    rewrite Lr.
    replace (S (length body))
      with (length x - (3 + length ws + length ws')) by lia.
    apply (find_matching_brace_agree x); [exact Hbal|].
    intros j Hj.
    transitivity (nth_error (lbrace :: body) j).
    + rewrite app_assoc.
      rewrite nth_error_app2
        by (rewrite length_app; change (length (str "ja =")) with 4; lia).
      f_equal. rewrite length_app. change (length (str "ja =")) with 4. lia.
    + symmetry. rewrite Hx.
      replace (c1 :: c2 :: ws ++ chr "=" :: ws' ++ lbrace :: body)
        with ((c1 :: c2 :: ws ++ chr "=" :: ws') ++ lbrace :: body)
        by (cbn [app]; rewrite <- app_assoc; reflexivity).
      rewrite nth_error_app2
        by (cbn [length]; rewrite length_app; cbn [length]; lia).
      f_equal. cbn [length]. rewrite length_app. cbn [length]. lia.
Qed.

(** X17. An [en] subsection that holds no name field is harvested as it
    stands but for its tag: the letters e and n, in either case, the
    whitespace after them and the equals sign are replaced by the four
    characters [ja =], and everything after the equals sign is kept. The
    result is again a construct whose opening brace is paired with its last
    character. *)
Theorem en_section_without_names (block_content : Buffer) (a b : nat)
    (x : Buffer) :
  find_subsection en_pattern block_content = Some (a, b, x) ->
  search name_pattern x = None ->
  exists c1 c2 ws ws' body,
    x = c1 :: c2 :: ws ++ chr "=" :: ws' ++ lbrace :: body /\
    ci "e" c1 = true /\ ci "n" c2 = true /\
    Forall (holds is_space) ws /\ Forall (holds is_space) ws' /\
    extract_en_section block_content
    = Some (str "ja =" ++ ws' ++ lbrace :: body) /\
    find_matching_brace (str "ja =" ++ ws' ++ lbrace :: body)
      (4 + length ws')
    = Some (length (str "ja =" ++ ws' ++ lbrace :: body)).
Proof. exact (en_section_plain block_content a b x). Qed.

Lemma en_section_without_names_witness :
  exists c1 c2 ws ws' body,
    str "EN= { q }" = c1 :: c2 :: ws ++ chr "=" :: ws' ++ lbrace :: body /\
    ci "e" c1 = true /\ ci "n" c2 = true /\
    Forall (holds is_space) ws /\ Forall (holds is_space) ws' /\
    extract_en_section (str "text = { ja = { p } EN= { q } }")
    = Some (str "ja =" ++ ws' ++ lbrace :: body) /\
    find_matching_brace (str "ja =" ++ ws' ++ lbrace :: body)
      (4 + length ws')
    = Some (length (str "ja =" ++ ws' ++ lbrace :: body)).
Proof.
  apply (en_section_without_names (str "text = { ja = { p } EN= { q } }")
           20 29 (str "EN= { q }")).
  - vm_compute. reflexivity.
  - vm_compute. reflexivity.
Defined.

(** ** Files without blocks *)

Section NoBlocks.

Variable decimal : char -> option Z.
Variable max_digits : nat.
Variable pat : pattern.
Variable gid : nat.
Variable buf : Buffer.
Hypothesis Hpat : starts_with_One pat.

Lemma scan_nonempty_header (b : ASTBlock) (blocks : list ASTBlock) :
  scan decimal max_digits pat gid buf 0 = Blocks (b :: blocks) ->
  exists p ls e,
    header_at pat buf p ls /\
    find_matching_brace buf (brace_of p ls) = Some e.
Proof.
  intros E.
  pose proof (extract_blocks_loop_headers decimal max_digits pat gid buf Hpat
                (length buf) 0 (b :: blocks) E) as Hh.
  inversion Hh as [|? ? Hb _]; subst.
  destruct Hb as (ls & Hhead & Hbrace & _).
  now exists (start b), ls, (end_ b).
Qed.

Lemma scan_empty (blocks : list ASTBlock) :
  no_matched_header pat buf ->
  scan decimal max_digits pat gid buf 0 = Blocks blocks -> blocks = [].
Proof.
  intros Hnone E. destruct blocks as [|b blocks]; [reflexivity|].
  destruct (scan_nonempty_header b blocks E) as (p & ls & e & Hh & Hb).
  rewrite (Hnone p ls Hh) in Hb. discriminate.
Qed.

Hypothesis Hapart :
  forall s ls j,
    match_here pat s = Some ls -> 0 < j < list_sum ls ->
    match_here pat (skipn j s) = None.

Lemma scan_empty_headless :
  scan decimal max_digits pat gid buf 0 = Blocks [] ->
  no_matched_header pat buf.
Proof.
  intros E p ls Hh.
  destruct (find_matching_brace buf (brace_of p ls)) as [e|] eqn:Hb;
    [|reflexivity].
  exfalso.
  destruct (scan_finds_matched_headers decimal max_digits pat gid buf Hpat
              Hapart [] E p ls e Hh Hb) as [(b & Hin & _)|(b & Hin & _)];
    destruct Hin.
Qed.

End NoBlocks.

(** X18. In a pair whose two locators return: if the target text holds no
    block header with a matched brace the call fails with
    [No blocks found in TO file]; if the target has one and the source text
    has none it fails with [No blocks found in FROM file]; nothing else is
    recorded in either case. If a locator raises on the digits of an id,
    the target locator being run first, the call fails with the formatted
    [ValueError] instead, whatever the blocks of the two texts. A pair that
    succeeds has a header with a matched brace in each of its two texts. *)
Theorem no_blocks_rejected (decimal : char -> option Z) (max_digits : nat)
    (int_error : Buffer -> string) (self : Processor)
    (name : string) (to_content from_content : Buffer)
    (write_raises : option string) :
  digits_apart decimal ->
  (forall to_blocks from_blocks,
     extract_blocks_to decimal max_digits to_content = Blocks to_blocks ->
     extract_blocks_from decimal max_digits from_content
     = Blocks from_blocks ->
     (no_matched_header (block_pattern_to decimal) to_content ->
      process_file decimal max_digits int_error self name
        (ReadOk to_content) (ReadOk from_content) write_raises
      = (record_failure self name "No blocks found in TO file",
         false, None)) /\
     (~ no_matched_header (block_pattern_to decimal) to_content ->
      no_matched_header (block_pattern_from decimal) from_content ->
      process_file decimal max_digits int_error self name
        (ReadOk to_content) (ReadOk from_content) write_raises
      = (record_failure self name "No blocks found in FROM file",
         false, None))) /\
  (forall digits,
     extract_blocks_to decimal max_digits to_content = IntRaises digits \/
     ((exists to_blocks,
         extract_blocks_to decimal max_digits to_content = Blocks to_blocks) /\
      extract_blocks_from decimal max_digits from_content
      = IntRaises digits) ->
     process_file decimal max_digits int_error self name
       (ReadOk to_content) (ReadOk from_content) write_raises
     = (record_failure self name
          (format_exception "ValueError" (int_error digits)),
        false, None)) /\
  (snd (fst (process_file decimal max_digits int_error self name
               (ReadOk to_content) (ReadOk from_content) write_raises))
   = true ->
   (exists p ls e,
      header_at (block_pattern_to decimal) to_content p ls /\
      find_matching_brace to_content (brace_of p ls) = Some e) /\
   (exists p ls e,
      header_at (block_pattern_from decimal) from_content p ls /\
      find_matching_brace from_content (brace_of p ls) = Some e)).
Proof.
  intros Hd. split; [|split].
  - intros to_blocks from_blocks Hto Hfrom. split.
    + intros Hnone. unfold process_file, failure. rewrite Hto, Hfrom.
      now rewrite (scan_empty decimal max_digits (block_pattern_to decimal) 6
                     to_content I to_blocks Hnone Hto).
    + intros Hsome Hnone. unfold process_file, failure. rewrite Hto, Hfrom.
      rewrite (scan_empty decimal max_digits (block_pattern_from decimal) 4
                 from_content I from_blocks Hnone Hfrom).
      destruct to_blocks as [|b blocks]; [|reflexivity].
      exfalso. apply Hsome.
      exact (scan_empty_headless decimal max_digits
               (block_pattern_to decimal) 6 to_content I
               (to_header_apart decimal Hd) Hto).
  - intros digits [Hto|[[to_blocks Hto] Hfrom]];
      unfold process_file, failure.
    + now rewrite Hto.
    + now rewrite Hto, Hfrom.
  - unfold process_file, failure.
    destruct (extract_blocks_to decimal max_digits to_content)
      as [to_blocks|] eqn:Hto; [|discriminate].
    destruct (extract_blocks_from decimal max_digits from_content)
      as [from_blocks|] eqn:Hfrom; [|discriminate].
    destruct to_blocks as [|tb tbs]; [discriminate|].
    destruct from_blocks as [|fb fbs]; [discriminate|].
    intros _. split.
    + exact (scan_nonempty_header decimal max_digits
               (block_pattern_to decimal) 6 to_content I tb tbs Hto).
    + exact (scan_nonempty_header decimal max_digits
               (block_pattern_from decimal) 4 from_content I fb fbs Hfrom).
Qed.

Lemma no_blocks_rejected_witness :
  process_file ascii_decimal default_max_str_digits sample_int_error
    no_files "demo.ast"
    (ReadOk (str "astver = 1 block_7 = { never closed"))
    (ReadOk sample_from) None
  = (record_failure no_files "demo.ast" "No blocks found in TO file",
     false, None) /\
  process_file ascii_decimal default_max_str_digits sample_int_error
    no_files "demo.ast" (ReadOk sample_long_id) (ReadOk sample_from) None
  = (record_failure no_files "demo.ast"
       (format_exception "ValueError"
          (sample_int_error (repeat (chr "1") 4301))),
     false, None).
Proof.
  split.
  - apply (proj1 (proj1 (no_blocks_rejected ascii_decimal
                           default_max_str_digits sample_int_error no_files
                           "demo.ast"
                           (str "astver = 1 block_7 = { never closed")
                           sample_from None
                           ltac:(repeat split; reflexivity))
                    [] (blocks_of (extract_blocks_from ascii_decimal
                                     default_max_str_digits sample_from))
                    ltac:(vm_compute; reflexivity)
                    ltac:(vm_compute; reflexivity))).
    apply (scan_empty_headless ascii_decimal default_max_str_digits
             (block_pattern_to ascii_decimal) 6
             (str "astver = 1 block_7 = { never closed") I
             (to_header_apart ascii_decimal ltac:(repeat split; reflexivity))).
    vm_compute. reflexivity.
  - apply (proj1 (proj2 (no_blocks_rejected ascii_decimal
                           default_max_str_digits sample_int_error no_files
                           "demo.ast" sample_long_id sample_from None
                           ltac:(repeat split; reflexivity)))).
    left. vm_compute. reflexivity.
Defined.

(** ** Braces nest *)

Lemma wsum_app (text : Buffer) (i n m : nat) :
  wsum text i (n + m) = (wsum text i n + wsum text (i + n) m)%Z.
Proof.
  revert i; induction n as [|n IH]; intros i.
  - cbn [Nat.add wsum]. now rewrite Nat.add_0_r.
  - cbn [Nat.add wsum]. rewrite IH.
    replace (S i + n) with (i + S n) by lia. lia.
Qed.

Lemma weight_open (text : Buffer) (k : nat) :
  nth_error text k = Some lbrace -> escaped text k = false ->
  weight text k = 1%Z.
Proof.
  intros Hk He. unfold weight. rewrite He.
  apply is_at_true in Hk. now rewrite Hk.
Qed.

Lemma depth_at_split (text : Buffer) (k k' j : nat) :
  k < k' < j ->
  depth_at text k j
  = (depth_at text k k' + weight text k' + wsum text (k' + 1) (j - (k' + 1)))%Z.
Proof.
  intros H. unfold depth_at.
  replace (j - (k + 1)) with ((k' - (k + 1)) + (1 + (j - (k' + 1)))) by lia.
  rewrite wsum_app, wsum_app.
  replace (k + 1 + (k' - (k + 1))) with k' by lia.
  change (wsum text k' 1) with (weight text k' + 0)%Z.
  replace (k' + 1) with (k' + 1) by reflexivity. lia.
Qed.

Lemma inner_brace_closes (text : Buffer) (k e k' : nat) :
  find_matching_brace text k = Some e ->
  k < k' < e ->
  nth_error text k' = Some lbrace -> escaped text k' = false ->
  exists e', find_matching_brace text k' = Some e' /\ k' < e' < e.
Proof.
  intros Hk Hin Hopen Hesc.
  destruct (find_matching_brace_Some _ _ _ Hk) as (Hb & _ & _ & Hz & Hpos).
  assert (Hend : (depth_at text k' e < 0)%Z).
  { pose proof (depth_at_split text k k' e ltac:(lia)) as Hs.
    rewrite (weight_open _ _ Hopen Hesc), Hz in Hs.
    specialize (Hpos k' ltac:(lia)). unfold depth_at at 1. lia. }
  assert (Hlt : k' < length text) by lia.
  destruct (find_matching_brace_run text k' Hlt)
    as (i & d & Hrun & Hi & Hd & Hd0 & Hp & _ & Hlast).
  assert (Hie : i < e).
  { destruct (Nat.lt_trichotomy i e) as [H|[H|H]]; [assumption| |].
    - subst i. lia.
    - specialize (Hp e ltac:(lia)). lia. }
  assert (Hzero : d = 0%Z).
  { destruct (Z.eq_dec d 0) as [H|H]; [assumption|].
    specialize (Hlast ltac:(lia)). lia. }
  exists i. split; [|lia].
  unfold find_matching_brace.
  assert (G : (length text <=? k') || negb (is_at text k' lbrace) = false).
  { apply orb_false_iff. split; [apply Nat.leb_gt; lia|].
    apply negb_false_iff. now apply is_at_true. }
  rewrite G, Hrun, Hzero. reflexivity.
Qed.

(** X19. Braces nest: an unescaped opening brace that stands strictly
    inside a matched span is itself matched, and its match lies strictly
    inside the span. *)
Theorem nested_brace_closes_inside (text : Buffer) (k e k' : nat) :
  find_matching_brace text k = Some e ->
  k < k' < e ->
  nth_error text k' = Some lbrace -> escaped text k' = false ->
  exists e', find_matching_brace text k' = Some e' /\ k' < e' < e.
Proof. exact (inner_brace_closes text k e k'). Qed.

Lemma nested_brace_closes_inside_witness :
  exists e',
    find_matching_brace (str "{ ja = { p } en = { q } }") 7 = Some e' /\
    7 < e' < 25.
Proof.
  apply (nested_brace_closes_inside (str "{ ja = { p } en = { q } }") 0 25 7).
  - reflexivity.
  - lia.
  - reflexivity.
  - reflexivity.
Defined.

(** ** Quoted strings and the name transform *)

Lemma quoted_match_shape (s : Buffer) (ls : list nat) :
  match_here quoted_pattern s = Some ls ->
  exists mid rest,
    s = dquote :: mid ++ dquote :: rest /\ list_sum ls = length mid + 2.
Proof.
  unfold quoted_pattern. intros H.
  apply match_here_One in H. destruct H as (c & s1 & l1 & -> & Hc & H & ->).
  apply N.eqb_eq in Hc. subst c.
  cbn [match_here] in H.
  destruct (star_alt _ _ (length s1) s1) as [[n l2]|] eqn:Hstar;
    [|discriminate].
  cbn [glue option_map] in H. injection H as <-.
  apply star_alt_sound in Hstar. destruct Hstar as [Hn Hk].
  destruct (skipn n s1) as [|c rest] eqn:Hs; [discriminate|].
  destruct (lit dquote c) eqn:Hc; [|discriminate].
  apply N.eqb_eq in Hc. subst c.
  exists (firstn n s1), rest. split.
  - now rewrite <- Hs, firstn_skipn.
  - cbn [option_map] in Hk. injection Hk as <-.
    rewrite length_firstn. unfold list_sum. cbn [fold_right]. lia.
Qed.

Lemma findall_loop_quoted (fuel : nat) (s q : Buffer) :
  In q (findall_loop quoted_pattern fuel s) ->
  (exists mid, q = dquote :: mid ++ [dquote]) /\ occurs_in q s.
Proof.
  revert s; induction fuel as [|fuel IH]; intros s; cbn [findall_loop];
    [intros []|].
  destruct (search quoted_pattern s) as [m|] eqn:Hs; [|intros []].
  destruct (search_spec _ _ _ Hs) as (Hend & Hm & _).
  intros [<- | Hin].
  - destruct (quoted_match_shape _ _ Hm) as (mid & rest & Hshape & Hsum).
    assert (Hq : group0 s m = dquote :: mid ++ [dquote]).
    { unfold group0, slice, m_end, m_len. rewrite Hshape, Hsum.
      replace (m_start m + (length mid + 2) - m_start m)
        with (S (length mid + 1)) by lia.
      rewrite firstn_cons. f_equal.
      rewrite firstn_app, firstn_all2 by lia. f_equal.
      replace (length mid + 1 - length mid) with 1 by lia. reflexivity. }
    split; [now exists mid|].
    exists (firstn (m_start m) s), rest.
    rewrite Hq. rewrite <- (firstn_skipn (m_start m) s) at 1.
    rewrite Hshape. cbn [app]. now rewrite <- app_assoc.
  - destruct (IH _ Hin) as [Hmid (pre & post & Hocc)].
    split; [assumption|].
    exists (firstn (m_end m) s ++ pre), post.
    rewrite <- (firstn_skipn (m_end m) s) at 1.
    now rewrite Hocc, <- app_assoc.
Qed.

Lemma last_In (A : Type) (l : list A) (d : A) : l <> [] -> In (last l d) l.
Proof.
  induction l as [|x l IH]; [congruence|]. intros _.
  destruct l as [|y l]; [now left|].
  right. apply IH. discriminate.
Qed.

Lemma transform_name_cases (s : Buffer) (m : rmatch) :
  (findall quoted_pattern (group s m 8 9) = [] /\
   transform_name s m = group0 s m) \/
  (exists mid,
     occurs_in (dquote :: mid ++ [dquote]) (group s m 8 9) /\
     transform_name s m
     = group s m 0 8 ++ (dquote :: mid ++ [dquote]) ++ group s m 9 10).
Proof.
  unfold transform_name.
  destruct (findall quoted_pattern (group s m 8 9)) as [|q0 qs] eqn:E;
    [now left|].
  right.
  assert (Hin : In (last (q0 :: qs) []) (findall quoted_pattern (group s m 8 9)))
    by (rewrite E; apply last_In; discriminate).
  destruct (findall_loop_quoted _ _ _ Hin) as [(mid & Hq) Hocc].
  exists mid. rewrite <- Hq. split; [assumption|reflexivity].
Qed.

(** X20. Whatever the match handed to it, [transform_name] either finds no
    quoted string between the braces and returns the field as it was, or
    returns the header, one string and the closing part, where the string
    starts and ends with a double quote and stands, as it is, between the
    braces of the field. *)
Theorem transform_name_shape (s : Buffer) (m : rmatch) :
  (findall quoted_pattern (group s m 8 9) = [] /\
   transform_name s m = group0 s m) \/
  (exists mid,
     occurs_in (dquote :: mid ++ [dquote]) (group s m 8 9) /\
     transform_name s m
     = group s m 0 8 ++ (dquote :: mid ++ [dquote]) ++ group s m 9 10).
Proof. exact (transform_name_cases s m). Qed.

(** ** What is written *)

Lemma written_text (decimal : char -> option Z) (max_digits : nat)
    (int_error : Buffer -> string) (self : Processor)
    (name : string) (to_read from_read : read_result)
    (write_raises : option string) (self' : Processor) (ok : bool)
    (result : Buffer) :
  process_file decimal max_digits int_error self name to_read from_read
    write_raises
  = (self', ok, Some result) ->
  ok = true /\ write_raises = None /\
  occurs_in (str "astver") (firstn 200 result) /\
  occurs_in (str "ast = {") (firstn 300 result) /\
  exists to_content from_content to_blocks from_blocks
         replacements unmatched_to unmatched_from,
    to_read = ReadOk to_content /\ from_read = ReadOk from_content /\
    extract_blocks_to decimal max_digits to_content = Blocks to_blocks /\
    extract_blocks_from decimal max_digits from_content = Blocks from_blocks /\
    correlate to_blocks from_blocks
    = (replacements, unmatched_to, unmatched_from) /\
    replacements <> [] /\
    apply_edits to_content replacements = Some result.
Proof.
  intros H.
  destruct (process_file_shape decimal max_digits int_error _ _ _ _ _ _ _ _ H)
    as [_ [(-> & _)|(_ & Hnone & _)]]; [|discriminate].
  destruct (process_file_success decimal max_digits int_error _ _ _ _ _ _ _ H)
    as (tc & fc & tbs & fbs & reps & um & uf & r & -> & -> & Hto & Hfrom
        & Hc & Hne & Ha & C1 & C2 & -> & Hr).
  injection Hr as ->.
  apply contains_spec in C1, C2.
  repeat split; try assumption.
  now exists tc, fc, tbs, fbs, reps, um, uf.
Qed.

(** X21. Nothing is written unless the call succeeds: a text goes to the
    output path only when both files were read, both locators returned,
    replacements were found and applied to the target text, the result
    holds [astver] within its first 200 characters and [ast = {] within its
    first 300, and the write itself did not raise; the text written is that
    result and the call returns [True]. *)
Theorem output_written_only_when_checked (decimal : char -> option Z)
    (max_digits : nat) (int_error : Buffer -> string)
    (self : Processor) (name : string) (to_read from_read : read_result)
    (write_raises : option string) (self' : Processor) (ok : bool)
    (result : Buffer) :
  process_file decimal max_digits int_error self name to_read from_read
    write_raises
  = (self', ok, Some result) ->
  ok = true /\ write_raises = None /\
  occurs_in (str "astver") (firstn 200 result) /\
  occurs_in (str "ast = {") (firstn 300 result) /\
  exists to_content from_content to_blocks from_blocks
         replacements unmatched_to unmatched_from,
    to_read = ReadOk to_content /\ from_read = ReadOk from_content /\
    extract_blocks_to decimal max_digits to_content = Blocks to_blocks /\
    extract_blocks_from decimal max_digits from_content = Blocks from_blocks /\
    correlate to_blocks from_blocks
    = (replacements, unmatched_to, unmatched_from) /\
    replacements <> [] /\
    apply_edits to_content replacements = Some result.
Proof. apply written_text. Qed.

Lemma output_written_only_when_checked_witness :
  occurs_in (str "astver") (firstn 200 sample_result) /\
  occurs_in (str "ast = {") (firstn 300 sample_result).
Proof.
  destruct (output_written_only_when_checked ascii_decimal
              default_max_str_digits sample_int_error no_files "demo.ast"
              (ReadOk sample_to) (ReadOk sample_from) None
              (record_success no_files "demo.ast") true sample_result
              ltac:(vm_compute; reflexivity))
    as (_ & _ & H1 & H2 & _).
  split; assumption.
Defined.
